(** * ups: binding a typed handler and dispatching one HTTP request

    A shallow embedding of [ups.go]: the construction-time signature check
    [UPSWithParameterAndConfig] and the per-request pipeline [ServeHTTP],
    with the constructors that fill in a nil parameter or [DefaultConfig].

    The Go packages the file imports (reflect, mime, proto, jsonpb, net/http)
    are not part of the repository.  What the code obtains from their
    functions is a field of the class [Lib] below, so every theorem holds
    for any behaviour of these functions; [Demo] instantiates the class with
    small fixtures in the shape of the repository's TestHello.

    ServeHTTP is written in a state monad whose computations end normally,
    by [return] or by a panic, with [defer] and the recovering closure as
    combinators.  The state holds the two locals the closures share, the
    object borrowed from the pool, the free list of the pool, the response
    writer and the trace of what was called.

    Where the model stops:
    - the handler is a function of its arguments that returns or panics; the
      creation of a pool object can panic ([reflect.New(reqType.Elem())] on
      a type without element type); the callbacks of [Config], the codecs,
      [Reset] and [StatusCode] return;
    - a request type with an element type is a pointer to a message, so a
      new pool object is a message;
    - the response writer records what it is given and may fail or cut short
      finitely many calls of [Write]; like the writers of net/http and
      httptest its [WriteHeader] panics on a status code outside 100..999;
    - the pool is a free list: it keeps every object put into it and hands
      out the one put last (sync.Pool promises neither). *)

From Stdlib Require Import String List ZArith Bool Lia DecimalString.
Import ListNotations.
Open Scope string_scope.
Open Scope Z_scope.
Open Scope list_scope.

Set Implicit Arguments.

Definition bytes := list Byte.byte.

(** ** What the imported packages provide *)

Class Lib := {
  (** reflect.Type of parameters and results, compared with [==] *)
  rtype : Type;
  rtype_eqb : rtype -> rtype -> bool;
  rtype_eqb_spec : forall a b, rtype_eqb a b = true <-> a = b;
  (** the package variables errorType/messageType are only used through
      [t.Implements(errorType)] and [t.Implements(messageType)] *)
  contextType : rtype;
  requestType : rtype;
  context_is_not_request : contextType <> requestType;
  Implements_error : rtype -> bool;
  Implements_message : rtype -> bool;
  AssignableTo : rtype -> rtype -> bool;
  (** values *)
  Msg : Type;                      (* a proto.Message that is not the nil
                                      interface: a pointer to a message,
                                      possibly a nil pointer *)
  Err : Type;                      (* a non-nil error *)
  Any : Type;                      (* an opaque interface{} payload *)
  Ctx : Type;                      (* context.Context *)
  Marshaler : Type;                (* jsonpb.Marshaler *)
  (** [reflect.New(t.Elem())]: the zero message a pointer type [t] points to;
      [None] when [t.Elem()] panics because [t] has no element type *)
  New_Elem : rtype -> option Msg;
  (** the message's own [Reset()] *)
  Reset : Msg -> Msg;
  (** mime.ParseMediaType, media type only *)
  ParseMediaType : string -> Err + string;
  (** the codecs: unmarshalling writes through the pointer and may fail *)
  jsonpb_Unmarshal : bytes -> Msg -> Msg * option Err;
  proto_Unmarshal : bytes -> Msg -> Msg * option Err;
  MarshalToString : Marshaler -> Msg -> Err + string;
  proto_Marshal : Msg -> Err + bytes;
  (** [err.(StatusCoder)]: [Some c] when the error's type has [StatusCode()]
      and that method returns [c] *)
  asStatusCoder : Err -> option Z
}.

(** ** Constants of net/http *)

Definition StatusOK : Z := 200.
Definition StatusMethodNotAllowed : Z := 405.
Definition StatusUnsupportedMediaType : Z := 415.
Definition StatusInternalServerError : Z := 500.
Definition MethodPost : string := "POST".

(** http.Header, reduced to one value per key *)
Definition Header := list (string * string).

Fixpoint Header_Get (h : Header) (k : string) : string :=
  match h with
  | [] => ""
  | (k', v) :: h' => if String.eqb k' k then v else Header_Get h' k
  end.

Fixpoint Header_Del (h : Header) (k : string) : Header :=
  match h with
  | [] => []
  | (k', v) :: h' =>
      if String.eqb k' k then Header_Del h' k else (k', v) :: Header_Del h' k
  end.

Definition Header_Set (h : Header) (k v : string) : Header :=
  (k, v) :: Header_Del h k.

Section Ups.
Context {L : Lib}.

(** ** Data model *)

Inductive handlerType :=
| messageHandlerType
| contextHandlerType
| requestHandlerType
| paramHandlerType
| contextParamHandlerType
| requestParamHandlerType.

(** An interface{} that is not nil: its dynamic type and its payload. *)
Record Value := { TypeOf : rtype; payload : Any }.

(** What [panic] was called with.  Since Go 1.21 a panic never carries a nil
    value, so [recover() != nil] holds exactly while panicking. *)
Inductive PanicValue :=
| PanicString (s : string)
| RuntimeError (s : string)
| ValueError (method kind : string)     (* a *reflect.ValueError *)
| PanicAny (v : Any).

Record Request := {
  Method : string;
  URL : string;
  ReqHeader : Header;
  Body : Err + bytes;       (* what reading r.Body to its end gives *)
  Context : Ctx
}.

(** One reflect.Value of the argument slice passed to [handler.Call]. *)
Inductive Arg :=
| ArgContext (c : Ctx)
| ArgRequest (r : Request)
| ArgParameter (p : option Value)
| ArgMessage (m : Msg).

(** What [handler.Call(args)] does: it returns one or two results, or it
    panics.

    The first result is a proto.Message.  [None] is the nil interface, on
    which the type assertion of line 366 panics; only a result type that is
    an interface type has it.  [Some m] is any other value, also the nil
    pointer of a pointer result type: the assertion succeeds on it, and what
    the callbacks and the encoders make of it is theirs.

    The second result is an error.  Construction asks of its type only that
    it implements error (line 203).  [Ret2] is a result of a type that has a
    nil (an interface, pointer, map, slice, channel or function type), with
    [None] for nil.  [Ret2Value kind] is a result of a type of another
    [kind] (an integer or a struct type, say), which has no nil:
    [IsNil] panics on every value of it (line 358).

    What the handler writes through the message pointer is not recorded:
    the object is reset before it is handed out again. *)
Inductive CallResult :=
| Ret1 (m : option Msg)
| Ret2 (m : option Msg) (err : option Err)
| Ret2Value (kind : string) (m : option Msg) (err : Err)
| Panics (v : PanicValue).

Definition Handler := list Arg -> CallResult.

(** The [handler interface{}] argument as reflection sees it. *)
Inductive HandlerValue :=
| NilHandler
| NonFunc (t : rtype)
| Func (ins outs : list rtype) (f : Handler).

(** [Config]: a callback field is [true] when it is not nil.  The callbacks
    are observers; calling one is recorded in the trace. *)
Record Config := {
  JSONMarshaler : option Marshaler;
  LogError : bool;
  LogPanic : bool;
  LogStartRequest : bool;
  LogEndRequest : bool;
  LogRequestMessage : bool;
  LogResponseMessage : bool;
  LogRequestBytes : bool;
  LogResponseBytes : bool;
  LogRequestJSON : bool;
  LogResponseJSON : bool;
  ErrorResponse : option (Ctx -> Z -> string)
}.

(** [upsHandler] without its pool, which is the only part that changes
    after construction; [poolNew] is [requestObjectPool.New]. *)
Record upsHandler := {
  config : Config;
  handlerKind : handlerType;
  handler : Handler;
  parameter : option Value;
  poolNew : option Msg
}.

(** ** UPSWithParameterAndConfig *)

Definition nilDeref : PanicValue :=
  RuntimeError "invalid memory address or nil pointer dereference".

(** the [switch ty.NumOut()] *)
Definition checkOut (outs : list rtype) : option PanicValue :=
  match outs with
  | [o0; o1] =>
      if negb (Implements_error o1)
      then Some (PanicString "ups: invalid handler error return type")
      else if negb (Implements_message o0)
      then Some (PanicString "ups: invalid handler message return type")
      else None
  | [o0] =>
      if negb (Implements_message o0)
      then Some (PanicString "ups: invalid handler message return type")
      else None
  | _ => Some (PanicString "ups: invalid handler return type")
  end.

(** the [switch ty.NumIn()]: handler type, reqType and paramType *)
Definition checkIn (ins : list rtype)
  : PanicValue + (handlerType * rtype * option rtype) :=
  match ins with
  | [i0] => inr (messageHandlerType, i0, None)
  | [i0; i1] =>
      if rtype_eqb i0 contextType then inr (contextHandlerType, i1, None)
      else if rtype_eqb i0 requestType then inr (requestHandlerType, i1, None)
      else inr (paramHandlerType, i1, Some i0)
  | [i0; i1; i2] =>
      if rtype_eqb i0 contextType
      then inr (contextParamHandlerType, i2, Some i1)
      else if rtype_eqb i0 requestType
      then inr (requestParamHandlerType, i2, Some i1)
      else inl (PanicString "ups: invalid handler parameter types")
  | _ => inl (PanicString "ups: invalid handler parameter types")
  end.

(** [paramType != nil && !reflect.TypeOf(parameter).AssignableTo(paramType)];
    [reflect.TypeOf(nil)] is nil and calling its method panics. *)
Definition checkParam (paramType : option rtype) (parameter : option Value)
  : option PanicValue :=
  match paramType with
  | None => None
  | Some pt =>
      match parameter with
      | None => Some nilDeref
      | Some p =>
          if negb (AssignableTo (TypeOf p) pt)
          then Some (PanicString "ups: param does not match param parameter type")
          else None
      end
  end.

Definition UPSWithParameterAndConfig
    (h : HandlerValue) (param : option Value) (cfg : Config)
  : PanicValue + upsHandler :=
  match h with
  | NilHandler => inl nilDeref
  | NonFunc _ => inl (PanicString "reflect: NumOut of non-func type")
  | Func ins outs f =>
      match checkOut outs with
      | Some p => inl p
      | None =>
          match checkIn ins with
          | inl p => inl p
          | inr (ht, reqType, paramType) =>
              if negb (Implements_message reqType)
              then inl (PanicString "ups: invalid handler parameter type")
              else
                match checkParam paramType param with
                | Some p => inl p
                | None =>
                    inr {| config := cfg;
                           handlerKind := ht;
                           handler := f;
                           parameter := param;
                           poolNew := New_Elem reqType |}
                end
          end
      end
  end.

Definition UPSWithConfig (h : HandlerValue) (cfg : Config) :=
  UPSWithParameterAndConfig h None cfg.


(** ** The response writer

    [http.ResponseWriter] is an interface.  The model is a recorder in the
    manner of httptest.ResponseRecorder, with a finite list of [faults]
    consumed by the next calls of [Write]: [(n, e)] makes one call accept at
    most [n] bytes and return the error [e].  After the list is used up
    every call accepts all it is given.  [WriteHeader] checks the status
    code as net/http's [checkWriteHeaderCode] does. *)

Record ResponseWriter := {
  RespHeader : Header;
  Code : option Z;                    (* [None] until the header is sent *)
  RespBody : bytes;
  faults : list (nat * option Err)
}.

Definition NewRecorder (fs : list (nat * option Err)) : ResponseWriter :=
  {| RespHeader := []; Code := None; RespBody := []; faults := fs |}.

(** ** What one dispatch can be seen doing *)

Inductive Event :=
(* the callbacks of [Config] *)
| EvLogError (tag : string) (err : Err)
| EvLogPanic (v : PanicValue)
| EvLogStartRequest (method url : string)
| EvLogEndRequest (method url : string) (statusCode : Z)
| EvLogRequestMessage (m : Msg)
| EvLogResponseMessage (m : Msg)
| EvLogRequestBytes (b : bytes)
| EvLogResponseBytes (b : bytes)
| EvLogRequestJSON (s : string)
| EvLogResponseJSON (s : string)
| EvErrorResponse (statusCode : Z)
(* calls into the collaborators *)
| EvReadBody
| EvParseMediaType (v : string)
| EvPoolGet (m : Msg)
| EvReset
| EvPoolPut (m : Msg)
| EvJSONUnmarshal (b : bytes)
| EvProtoUnmarshal (b : bytes)
| EvCall (args : list Arg)
| EvMarshalToString (m : Msg)
| EvProtoMarshal (m : Msg)
| EvHeaderSet (k v : string)
| EvWriteHeader (statusCode : Z)
| EvWrite (p : bytes).

(** ** State of one call of ServeHTTP

    [statusCode] and [resp] are the locals the closures share; [arg] is what
    the borrowed pool object points to ([None]: nothing is borrowed);
    [requestObjectPool] is the free list of the handler's sync.Pool;
    [events] is the trace, latest first. *)

Record State := {
  statusCode : Z;
  resp : bytes;
  arg : option Msg;
  requestObjectPool : list Msg;
  w : ResponseWriter;
  events : list Event
}.

Definition trace (s : State) : list Event := rev (events s).

(** A statement ends normally, leaves the enclosing function ([return]) or
    panics. *)
Inductive Outcome (A : Type) :=
| Normal (a : A)
| Returned
| Panic (v : PanicValue).
Arguments Returned {A}.
Arguments Panic {A} v.

Definition M (A : Type) := State -> Outcome A * State.

Definition ret {A} (a : A) : M A := fun s => (Normal a, s).

Definition bind {A B} (c : M A) (k : A -> M B) : M B := fun s =>
  match c s with
  | (Normal a, s1) => k a s1
  | (Returned, s1) => (Returned, s1)
  | (Panic v, s1) => (Panic v, s1)
  end.

Notation "x <- c1 ;; c2" := (bind c1 (fun x => c2))
  (at level 61, c1 at next level, right associativity).
Notation "c1 ;; c2" := (bind c1 (fun _ => c2))
  (at level 61, right associativity).

Definition return_ {A} : M A := fun s => (Returned, s).
Definition panic {A} (v : PanicValue) : M A := fun s => (Panic v, s).

(** [defer d] followed by [body]: [d] runs however [body] ends, and a panic
    of [d] replaces the way [body] ended. *)
Definition defer {A} (d : M unit) (body : M A) : M A := fun s =>
  let (o, s1) := body s in
  match d s1 with
  | (Panic v, s2) => (Panic v, s2)
  | (_, s2) => (o, s2)
  end.

Definition emit (e : Event) : M unit := fun s =>
  (Normal tt,
   {| statusCode := statusCode s; resp := resp s; arg := arg s;
      requestObjectPool := requestObjectPool s; w := w s;
      events := e :: events s |}).

Definition setStatusCode (c : Z) : M unit := fun s =>
  (Normal tt,
   {| statusCode := c; resp := resp s; arg := arg s;
      requestObjectPool := requestObjectPool s; w := w s;
      events := events s |}).

Definition setResp (b : bytes) : M unit := fun s =>
  (Normal tt,
   {| statusCode := statusCode s; resp := b; arg := arg s;
      requestObjectPool := requestObjectPool s; w := w s;
      events := events s |}).

Definition setArg (a : option Msg) : M unit := fun s =>
  (Normal tt,
   {| statusCode := statusCode s; resp := resp s; arg := a;
      requestObjectPool := requestObjectPool s; w := w s;
      events := events s |}).

Definition setPool (p : list Msg) : M unit := fun s =>
  (Normal tt,
   {| statusCode := statusCode s; resp := resp s; arg := arg s;
      requestObjectPool := p; w := w s;
      events := events s |}).

Definition setWriter (w' : ResponseWriter) : M unit := fun s =>
  (Normal tt,
   {| statusCode := statusCode s; resp := resp s; arg := arg s;
      requestObjectPool := requestObjectPool s; w := w';
      events := events s |}).

Definition getState : M State := fun s => (Normal s, s).

(** ** The callbacks: each wrapper calls its field unless it is nil *)

Definition hook (field : bool) (e : Event) : M unit :=
  if field then emit e else ret tt.

Definition logError (ups : upsHandler) (tag : string) (err : Err) : M unit :=
  hook (LogError (config ups)) (EvLogError tag err).

Definition logPanic (ups : upsHandler) (v : PanicValue) : M unit :=
  hook (LogPanic (config ups)) (EvLogPanic v).

Definition logStartRequest (ups : upsHandler) (method url : string) : M unit :=
  hook (LogStartRequest (config ups)) (EvLogStartRequest method url).

Definition logEndRequest (ups : upsHandler) (method url : string) (c : Z)
  : M unit :=
  hook (LogEndRequest (config ups)) (EvLogEndRequest method url c).

Definition logRequestMessage (ups : upsHandler) (m : Msg) : M unit :=
  hook (LogRequestMessage (config ups)) (EvLogRequestMessage m).

Definition logResponseMessage (ups : upsHandler) (m : Msg) : M unit :=
  hook (LogResponseMessage (config ups)) (EvLogResponseMessage m).

Definition logRequestBytes (ups : upsHandler) (b : bytes) : M unit :=
  hook (LogRequestBytes (config ups)) (EvLogRequestBytes b).

Definition logResponseBytes (ups : upsHandler) (b : bytes) : M unit :=
  hook (LogResponseBytes (config ups)) (EvLogResponseBytes b).

Definition logRequestJSON (ups : upsHandler) (t : string) : M unit :=
  hook (LogRequestJSON (config ups)) (EvLogRequestJSON t).

Definition logResponseJSON (ups : upsHandler) (t : string) : M unit :=
  hook (LogResponseJSON (config ups)) (EvLogResponseJSON t).

Definition errorResponse (ups : upsHandler) (ctx : Ctx) (c : Z) : M string :=
  match ErrorResponse (config ups) with
  | Some f => emit (EvErrorResponse c) ;; ret (f ctx c)
  | None => ret ""
  end.


(** ** Calls on the response writer *)

(** The status line goes out once: a later status does not replace it. *)
Definition sendHeader (c : Z) (sent : option Z) : option Z :=
  match sent with
  | None => Some c
  | Some old => Some old
  end.

(** [w.Header().Set(k, v)] *)
Definition w_Header_Set (k v : string) : M unit :=
  s <- getState ;;
  setWriter {| RespHeader := Header_Set (RespHeader (w s)) k v;
               Code := Code (w s); RespBody := RespBody (w s);
               faults := faults (w s) |} ;;
  emit (EvHeaderSet k v).

(** net/http's [checkWriteHeaderCode]: [code < 100 || code > 999] panics. *)
Definition validStatus (c : Z) : bool := (100 <=? c) && (c <=? 999).

(** [fmt.Sprintf("invalid WriteHeader code %v", code)] *)
Definition invalidWriteHeader (c : Z) : PanicValue :=
  PanicString
    ("invalid WriteHeader code " ++ NilZero.string_of_int (Z.to_int c)).

(** [w.WriteHeader(c)]: nothing happens when the header was sent; otherwise
    the code is checked, and sent if it passes. *)
Definition w_WriteHeader (c : Z) : M unit :=
  s <- getState ;;
  emit (EvWriteHeader c) ;;
  match Code (w s) with
  | Some _ => ret tt
  | None =>
      if validStatus c
      then setWriter {| RespHeader := RespHeader (w s); Code := Some c;
                        RespBody := RespBody (w s); faults := faults (w s) |}
      else panic (invalidWriteHeader c)
  end.

(** [w.Write(p)]: sends the header with 200 if it was not sent, then
    appends what the next fault lets through. *)
Definition w_Write (p : bytes) : M (nat * option Err) :=
  s <- getState ;;
  let code := sendHeader StatusOK (Code (w s)) in
  match faults (w s) with
  | [] =>
      setWriter {| RespHeader := RespHeader (w s); Code := code;
                   RespBody := RespBody (w s) ++ p; faults := [] |} ;;
      emit (EvWrite p) ;;
      ret (length p, None)
  | (n, e) :: fs =>
      let k := Nat.min n (length p) in
      setWriter {| RespHeader := RespHeader (w s); Code := code;
                   RespBody := RespBody (w s) ++ firstn k p; faults := fs |} ;;
      emit (EvWrite p) ;;
      ret (k, e)
  end.

Definition newline : bytes := [Byte.x0a].

(** net/http's [Error(w, error, code)]: two headers, the status line, then
    [fmt.Fprintln(w, error)], one Write of the text and a line feed.  When
    [WriteHeader] panics nothing is written. *)
Definition http_Error (text : string) (code : Z) : M unit :=
  w_Header_Set "Content-Type" "text/plain; charset=utf-8" ;;
  w_Header_Set "X-Content-Type-Options" "nosniff" ;;
  w_WriteHeader code ;;
  _ <- w_Write (list_byte_of_string text ++ newline) ;;
  ret tt.

(** ** The pool *)

(** [ups.requestObjectPool.Get()]: a free object, else [New()] *)
Definition pool_Get (ups : upsHandler) : M unit :=
  s <- getState ;;
  match requestObjectPool s with
  | m :: free => setPool free ;; setArg (Some m) ;; emit (EvPoolGet m)
  | [] =>
      match poolNew ups with
      | Some m => setArg (Some m) ;; emit (EvPoolGet m)
      | None => panic (RuntimeError "reflect: Elem of invalid type")
      end
  end.

(** The deferred
    [arg.Interface().(proto.Message).Reset(); ups.requestObjectPool.Put(arg)] *)
Definition release : M unit :=
  s <- getState ;;
  match arg s with
  | Some m =>
      emit EvReset ;;
      setArg None ;;
      setPool (Reset m :: requestObjectPool s) ;;
      emit (EvPoolPut (Reset m))
  | None => panic nilDeref
  end.

(** [jsonpb.Unmarshal] or [proto.Unmarshal] into the borrowed object *)
Definition unmarshal (f : Msg -> Msg * option Err) (e : Event)
  : M (option Err) :=
  s <- getState ;;
  match arg s with
  | Some m =>
      emit e ;;
      setArg (Some (fst (f m))) ;;
      ret (snd (f m))
  | None => panic nilDeref
  end.

(** ** ServeHTTP *)

(** the [switch ups.handlerType] that builds [args] *)
Definition buildArgs (ups : upsHandler) (r : Request) (m : Msg) : list Arg :=
  match handlerKind ups with
  | messageHandlerType => [ArgMessage m]
  | contextHandlerType => [ArgContext (Context r); ArgMessage m]
  | requestHandlerType => [ArgRequest r; ArgMessage m]
  | paramHandlerType => [ArgParameter (parameter ups); ArgMessage m]
  | contextParamHandlerType =>
      [ArgContext (Context r); ArgParameter (parameter ups); ArgMessage m]
  | requestParamHandlerType =>
      [ArgRequest r; ArgParameter (parameter ups); ArgMessage m]
  end.

(** The write loop at the end of ServeHTTP; [fuel] bounds the iterations. *)
Fixpoint writeLoop (ups : upsHandler) (fuel : nat) (p : bytes) : M unit :=
  match fuel with
  | O => ret tt
  | S fuel' =>
      r <- w_Write p ;;
      match snd r with
      | Some err => logError ups "w.Write" err
      | None =>
          if (length p <=? fst r)%nat then ret tt
          else writeLoop ups fuel' (skipn (fst r) p)
      end
  end.

(** Lines 319-387: from taking the pool object to encoding the result. *)
Definition decodeInvokeEncode
    (ups : upsHandler) (r : Request) (json : bool) (req : bytes) : M unit :=
  pool_Get ups ;;
  defer release (
    (if json then
       logRequestJSON ups (string_of_list_byte req) ;;
       err <- unmarshal (jsonpb_Unmarshal req) (EvJSONUnmarshal req) ;;
       match err with
       | Some e =>
           logError ups "jsonpb.Unmarshal" e ;;
           setStatusCode StatusInternalServerError ;;
           return_
       | None => ret tt
       end
     else
       logRequestBytes ups req ;;
       err <- unmarshal (proto_Unmarshal req) (EvProtoUnmarshal req) ;;
       match err with
       | Some e =>
           logError ups "proto.Unmarshal" e ;;
           setStatusCode StatusInternalServerError ;;
           return_
       | None => ret tt
       end) ;;
    s <- getState ;;
    m <- match arg s with Some m => ret m | None => panic nilDeref end ;;
    logRequestMessage ups m ;;
    let args := buildArgs ups r m in
    emit (EvCall args) ;;
    results0 <-
      match handler ups args with
      | Panics v => panic v
      | Ret1 m0 => ret m0
      | Ret2 m0 None => ret m0
      | Ret2 m0 (Some err) =>
          match asStatusCoder err with
          | Some c => setStatusCode c
          | None => setStatusCode StatusInternalServerError
          end ;;
          return_
      | Ret2Value kind _ _ => panic (ValueError "reflect.Value.IsNil" kind)
      end ;;
    result <-
      match results0 with
      | Some m0 => ret m0
      | None =>
          panic (RuntimeError
                   "interface conversion: interface is nil, not proto.Message")
      end ;;
    logResponseMessage ups result ;;
    if json then
      match JSONMarshaler (config ups) with
      | None => panic nilDeref
      | Some mr =>
          emit (EvMarshalToString result) ;;
          match MarshalToString mr result with
          | inl err =>
              logError ups "JSONMarshaler.MarshalToString" err ;;
              setStatusCode StatusInternalServerError
          | inr response =>
              logResponseJSON ups response ;;
              setResp (list_byte_of_string response) ;;
              w_Header_Set "Content-Type" "application/json"
          end
      end
    else
      emit (EvProtoMarshal result) ;;
      match proto_Marshal result with
      | inl err =>
          logError ups "proto.Marshal" err ;;
          setStatusCode StatusInternalServerError
      | inr response =>
          logResponseBytes ups response ;;
          setResp response ;;
          w_Header_Set "Content-Type" "application/octet-stream"
      end).

(** The [switch contentType]: the value of [json], or [None] where the
    switch sets 415 and returns. *)
Definition switchContentType (cfg : Config) (contentType : string)
  : option bool :=
  if String.eqb contentType "application/json" then
    match JSONMarshaler cfg with
    | None => None
    | Some _ => Some true
    end
  else if String.eqb contentType "application/octet-stream"
          || String.eqb contentType "application/x-protobuf"
  then Some false
  else None.

(** Lines 284-317 followed by the block above: the body of the closure. *)
Definition closure (ups : upsHandler) (r : Request) : M unit :=
  logStartRequest ups (Method r) (URL r) ;;
  (if negb (String.eqb (Method r) MethodPost)
   then setStatusCode StatusMethodNotAllowed ;; return_
   else ret tt) ;;
  emit EvReadBody ;;
  req <-
    match Body r with
    | inl err =>
        logError ups "req.ReadFrom" err ;;
        setStatusCode StatusInternalServerError ;;
        return_
    | inr b => ret b
    end ;;
  let ct := Header_Get (ReqHeader r) "Content-Type" in
  emit (EvParseMediaType ct) ;;
  json <-
    match ParseMediaType ct with
    | inl err =>
        logError ups "mime.ParseMediaType" err ;;
        setStatusCode StatusUnsupportedMediaType ;;
        return_
    | inr contentType =>
        match switchContentType (config ups) contentType with
        | Some json => ret json
        | None => setStatusCode StatusUnsupportedMediaType ;; return_
        end
    end ;;
  decodeInvokeEncode ups r json req.

(** [func() { defer func() { if err := recover(); err != nil {...} }(); ... }()]:
    the call of the closure ends normally unless the deferred function
    itself panics. *)
Definition recovering (ups : upsHandler) (body : M unit) : M unit := fun s =>
  match body s with
  | (Panic v, s1) =>
      (logPanic ups v ;; setStatusCode StatusInternalServerError) s1
  | (_, s1) => (Normal tt, s1)
  end.

(** Lines 390-404: writing the response.  The write loop runs until a call
    of Write fails or takes all that is left; each fault is used by one
    call, so one more iteration than there are faults is enough. *)
Definition respond (ups : upsHandler) (r : Request) : M unit :=
  s <- getState ;;
  (if statusCode s =? StatusOK
   then writeLoop ups (S (length (faults (w s)))) (resp s)
   else
     text <- errorResponse ups (Context r) (statusCode s) ;;
     http_Error text (statusCode s)) ;;
  logEndRequest ups (Method r) (URL r) (statusCode s).

Definition ServeHTTP (ups : upsHandler) (r : Request) : M unit :=
  setStatusCode StatusOK ;;
  setResp [] ;;
  recovering ups (closure ups r) ;;
  respond ups r.

(** A call of ServeHTTP on a fresh recorder, with the pool as the calls
    before it left it. *)
Definition start (pool : list Msg) (fs : list (nat * option Err)) : State :=
  {| statusCode := 0; resp := []; arg := None;
     requestObjectPool := pool; w := NewRecorder fs; events := [] |}.

Definition serve (ups : upsHandler) (r : Request)
    (pool : list Msg) (fs : list (nat * option Err)) : Outcome unit * State :=
  ServeHTTP ups r (start pool fs).


(** ** The documented behaviour, after the specification's words *)

(** The six calling conventions by arity and first parameter; the last
    parameter is the structured message. *)
Definition documentedVariant (ins : list rtype) : option handlerType :=
  match ins with
  | [m] =>
      if Implements_message m then Some messageHandlerType else None
  | [a; m] =>
      if Implements_message m then
        if rtype_eqb a contextType then Some contextHandlerType
        else if rtype_eqb a requestType then Some requestHandlerType
        else Some paramHandlerType
      else None
  | [a; p; m] =>
      if Implements_message m then
        if rtype_eqb a contextType then Some contextParamHandlerType
        else if rtype_eqb a requestType then Some requestParamHandlerType
        else None
      else None
  | _ => None
  end.

(** The declared type of the bound parameter of a variant that has one. *)
Definition documentedParamType (ins : list rtype) : option rtype :=
  match documentedVariant ins, ins with
  | Some paramHandlerType, [p; _] => Some p
  | Some contextParamHandlerType, [_; p; _] => Some p
  | Some requestParamHandlerType, [_; p; _] => Some p
  | _, _ => None
  end.

(** Context or request first if applicable, then the bound parameter if
    applicable, then the decoded message. *)
Definition documentedArgs (v : handlerType) (r : Request)
    (param : option Value) (m : Msg) : list Arg :=
  match v with
  | contextHandlerType | contextParamHandlerType => [ArgContext (Context r)]
  | requestHandlerType | requestParamHandlerType => [ArgRequest r]
  | _ => []
  end ++
  match v with
  | paramHandlerType | contextParamHandlerType | requestParamHandlerType =>
      [ArgParameter param]
  | _ => []
  end ++
  [ArgMessage m].

(** Return arity 1 (message) or 2 (message, error-like). *)
Definition documentedReturns (outs : list rtype) : bool :=
  match outs with
  | [m] => Implements_message m
  | [m; e] => Implements_message m && Implements_error e
  | _ => false
  end.

(** The supplied value's type is assignable to the declared type. *)
Definition documentedParamOk (ins : list rtype) (param : option Value) : bool :=
  match documentedParamType ins with
  | None => true
  | Some pt =>
      match param with
      | Some p => AssignableTo (TypeOf p) pt
      | None => false
      end
  end.

(** A handler of valid shape. *)
Definition validShape (h : HandlerValue) (param : option Value) : bool :=
  match h with
  | Func ins outs _ =>
      documentedReturns outs
      && match documentedVariant ins with Some _ => true | None => false end
      && documentedParamOk ins param
  | _ => false
  end.

Inductive Format := binary | text.

Definition formatOf (json : bool) : Format := if json then text else binary.

(** The content negotiator of the specification, on the declared media
    type string. *)
Definition documentedNegotiate (cfg : Config) (declared : string)
  : option Format :=
  match ParseMediaType declared with
  | inl _ => None
  | inr mt =>
      if String.eqb mt "application/json" then
        match JSONMarshaler cfg with Some _ => Some text | None => None end
      else if String.eqb mt "application/octet-stream" then Some binary
      else if String.eqb mt "application/x-protobuf" then Some binary
      else None
  end.

(** ** Reading a trace *)

Definition isCodecEvent (e : Event) : bool :=
  match e with
  | EvJSONUnmarshal _ | EvProtoUnmarshal _
  | EvMarshalToString _ | EvProtoMarshal _ => true
  | _ => false
  end.

Definition isEncodeEvent (e : Event) : bool :=
  match e with
  | EvMarshalToString _ | EvProtoMarshal _ => true
  | _ => false
  end.

Definition isBinaryCodecEvent (e : Event) : bool :=
  match e with
  | EvProtoUnmarshal _ | EvProtoMarshal _ => true
  | _ => false
  end.

Definition isTextCodecEvent (e : Event) : bool :=
  match e with
  | EvJSONUnmarshal _ | EvMarshalToString _ => true
  | _ => false
  end.

Definition isPoolGet (e : Event) : bool :=
  match e with EvPoolGet _ => true | _ => false end.


Definition isReadBody (e : Event) : bool :=
  match e with EvReadBody => true | _ => false end.

Definition isParseMediaType (e : Event) : bool :=
  match e with EvParseMediaType _ => true | _ => false end.

Definition isErrorResponse (e : Event) : bool :=
  match e with EvErrorResponse _ => true | _ => false end.

Definition isCall (e : Event) : bool :=
  match e with EvCall _ => true | _ => false end.

Definition isWriteHeader (e : Event) : bool :=
  match e with EvWriteHeader _ => true | _ => false end.

Definition count (f : Event -> bool) (t : list Event) : nat :=
  length (filter f t).

(** The object [Get] hands out for a given free list. *)
Definition acquired (ups : upsHandler) (pool : list Msg) : option Msg :=
  match pool with
  | m :: _ => Some m
  | [] => poolNew ups
  end.

(** The request passes the method check, the body read and the negotiation,
    gets a pool object and decodes into it: [json] is the chosen format, [b]
    the body and [m] the decoded message. *)
Definition decodesTo (ups : upsHandler) (r : Request) (pool : list Msg)
    (json : bool) (b : bytes) (m : Msg) : Prop :=
  Method r = MethodPost /\
  Body r = inr b /\
  (exists mt,
      ParseMediaType (Header_Get (ReqHeader r) "Content-Type") = inr mt /\
      switchContentType (config ups) mt = Some json) /\
  (exists m0,
      acquired ups pool = Some m0 /\
      (if json then jsonpb_Unmarshal b m0 else proto_Unmarshal b m0)
      = (m, None)).

(** ** Vocabulary of the statements *)

(** The event a callback leaves when its field is set. *)
Definition note (field : bool) (e : Event) : list Event :=
  if field then [e] else [].

Definition logged (es : list Event) (s : State) : State :=
  {| statusCode := statusCode s; resp := resp s; arg := arg s;
     requestObjectPool := requestObjectPool s; w := w s;
     events := es ++ events s |}.

(** The text of the error-body formatter, empty without one. *)
Definition errorText (ups : upsHandler) (r : Request) (c : Z) : string :=
  match ErrorResponse (config ups) with
  | Some f => f (Context r) c
  | None => ""
  end.

(** The state in which the closure leaves ServeHTTP. *)
Definition dispatched (ups : upsHandler) (r : Request)
    (pool : list Msg) (fs : list (nat * option Err)) : State :=
  snd ((setStatusCode StatusOK ;; setResp [] ;; recovering ups (closure ups r))
         (start pool fs)).

(** Events of the stages before the response is written. *)
Definition isStage (e : Event) : bool :=
  match e with
  | EvReadBody | EvParseMediaType _ | EvPoolGet _
  | EvJSONUnmarshal _ | EvProtoUnmarshal _ | EvCall _
  | EvMarshalToString _ | EvProtoMarshal _ => true
  | _ => false
  end.

(** Events of the pool. *)
Definition isPool (e : Event) : bool :=
  match e with
  | EvPoolGet _ | EvReset | EvPoolPut _ => true
  | _ => false
  end.

(** Events that writing the response can leave. *)
Definition isRespond (e : Event) : bool :=
  match e with
  | EvLogError _ _ | EvLogEndRequest _ _ _ | EvErrorResponse _
  | EvHeaderSet _ _ | EvWriteHeader _ | EvWrite _ => true
  | _ => false
  end.

(** [later] extends [earlier] by events that all satisfy [P]. *)
Definition grows (P : Event -> bool) (earlier later : list Event) : Prop :=
  exists es, later = es ++ earlier /\ Forall (fun e => P e = true) es.

(** The trace, latest event first, of a request that [decodesTo] a message,
    up to and including the call of the handler. *)
Definition upToCall (ups : upsHandler) (r : Request) (pool : list Msg)
    (json : bool) (b : bytes) (m : Msg) : list Event :=
  EvCall (buildArgs ups r m)
  :: note (LogRequestMessage (config ups)) (EvLogRequestMessage m)
  ++ (if json
      then EvJSONUnmarshal b
           :: note (LogRequestJSON (config ups))
                (EvLogRequestJSON (string_of_list_byte b))
      else EvProtoUnmarshal b
           :: note (LogRequestBytes (config ups)) (EvLogRequestBytes b))
  ++ match acquired ups pool with
     | Some m0 => [EvPoolGet m0]
     | None => []
     end
  ++ [EvParseMediaType (Header_Get (ReqHeader r) "Content-Type"); EvReadBody]
  ++ note (LogStartRequest (config ups))
       (EvLogStartRequest (Method r) (URL r)).

(** What follows the call in the trace, latest first, when the handler
    returned [res] and the codec was asked to encode it: [out] is what the
    raw-response callback is given. *)
Definition encoding (ups : upsHandler) (json : bool) (res : Msg)
    (out : list Event) : list Event :=
  out
  ++ [if json then EvMarshalToString res else EvProtoMarshal res]
  ++ note (LogResponseMessage (config ups)) (EvLogResponseMessage res).

Definition rawResponse (ups : upsHandler) (json : bool) (enc : bytes)
  : list Event :=
  if json
  then note (LogResponseJSON (config ups))
         (EvLogResponseJSON (string_of_list_byte enc))
  else note (LogResponseBytes (config ups)) (EvLogResponseBytes enc).

(** The status mapper of the specification. *)
Definition documentedStatus (e : Err) : Z :=
  match asStatusCoder e with
  | Some c => c
  | None => StatusInternalServerError
  end.

(** The handler returns the message [res] and no error. *)
Definition returns (ups : upsHandler) (r : Request) (m res : Msg) : Prop :=
  handler ups (buildArgs ups r m) = Ret1 (Some res)
  \/ handler ups (buildArgs ups r m) = Ret2 (Some res) None.

(** The codec of the negotiated format encodes [res] as [enc]. *)
Definition encodesTo (ups : upsHandler) (json : bool) (res : Msg)
    (enc : bytes) : Prop :=
  if json then
    exists mr txt,
      JSONMarshaler (config ups) = Some mr
      /\ MarshalToString mr res = inr txt
      /\ enc = list_byte_of_string txt
  else proto_Marshal res = inr enc.

(** The codec of the negotiated format rejects [res]. *)
Definition encodeFails (ups : upsHandler) (json : bool) (res : Msg) : Prop :=
  if json then
    exists mr err,
      JSONMarshaler (config ups) = Some mr /\ MarshalToString mr res = inl err
  else exists err, proto_Marshal res = inl err.

(** The media type of the response for a format. *)
Definition mediaTypeOf (json : bool) : string :=
  if json then "application/json" else "application/octet-stream".

(** Status, writer and trace: what a client and the callbacks see. *)
Definition response (s : State) : Z * ResponseWriter * list Event :=
  (statusCode s, w s, trace s).

(** What one call of Write lets through. *)
Definition accepted (fs : list (nat * option Err)) (p : bytes) : bytes :=
  match fs with
  | [] => p
  | (n, _) :: _ => firstn (Nat.min n (length p)) p
  end.

(** The trace of an error reply, latest first. *)
Definition errorReply (ups : upsHandler) (r : Request) (c : Z) : list Event :=
  [EvWrite (list_byte_of_string (errorText ups r c) ++ newline);
   EvWriteHeader c;
   EvHeaderSet "X-Content-Type-Options" "nosniff";
   EvHeaderSet "Content-Type" "text/plain; charset=utf-8"]
  ++ match ErrorResponse (config ups) with
     | Some _ => [EvErrorResponse c]
     | None => []
     end.

(** The trace of an error reply that [WriteHeader] refuses, latest first. *)
Definition refusedReply (ups : upsHandler) (c : Z) : list Event :=
  [EvWriteHeader c;
   EvHeaderSet "X-Content-Type-Options" "nosniff";
   EvHeaderSet "Content-Type" "text/plain; charset=utf-8"]
  ++ match ErrorResponse (config ups) with
     | Some _ => [EvErrorResponse c]
     | None => []
     end.

(** How ServeHTTP ends when the closure has left the status [c]: it returns,
    unless [WriteHeader] refuses [c]; that panic is raised after the
    recovering closure has ended and leaves ServeHTTP. *)
Definition replyOutcome (c : Z) : Outcome unit :=
  if validStatus c then Normal tt else Panic (invalidWriteHeader c).

(** Events of the write loop. *)
Definition isWriting (e : Event) : bool :=
  match e with
  | EvWrite _ | EvLogError _ _ => true
  | _ => false
  end.

(** The same state with another free list. *)
Definition withPool (p : list Msg) (s : State) : State :=
  {| statusCode := statusCode s; resp := resp s; arg := arg s;
     requestObjectPool := p; w := w s; events := events s |}.

Definition isLogPanic (e : Event) : bool :=
  match e with EvLogPanic _ => true | _ => false end.


(** No call of Write fails. *)
Definition noWriteError (fs : list (nat * option Err)) : Prop :=
  Forall (fun f => snd f = None) fs.

(** ** The constructors that fill in defaults *)

(** [DefaultConfig] is an exported package variable.  This is the value it
    is initialised with: every log callback set (each writes one line with
    the log package and returns), a JSON marshaler [mr] for
    [&jsonpb.Marshaler{OrigName: true}], no error-body formatter. *)
Definition DefaultConfig (mr : Marshaler) : Config :=
  {| JSONMarshaler := Some mr;
     LogError := true; LogPanic := true;
     LogStartRequest := true; LogEndRequest := true;
     LogRequestMessage := true; LogResponseMessage := true;
     LogRequestBytes := true; LogResponseBytes := true;
     LogRequestJSON := true; LogResponseJSON := true;
     ErrorResponse := None |}.

(** [UPS] and [UPSWithParameter] read the variable when they are called:
    [current] is the value it has then, which is [DefaultConfig mr] unless
    the program has assigned to the variable or to its fields. *)
Definition UPS (current : Config) (h : HandlerValue) :=
  UPSWithParameterAndConfig h None current.

Definition UPSWithParameter (current : Config) (h : HandlerValue)
    (param : option Value) :=
  UPSWithParameterAndConfig h param current.

(** The conventions in which ServeHTTP does not pass [ups.parameter]. *)
Definition parameterless (k : handlerType) : bool :=
  match k with
  | messageHandlerType | contextHandlerType | requestHandlerType => true
  | _ => false
  end.

(** The same handler with another bound parameter. *)
Definition withParameter (p : option Value) (ups : upsHandler) : upsHandler :=
  {| config := config ups; handlerKind := handlerKind ups;
     handler := handler ups; parameter := p; poolNew := poolNew ups |}.

(** ** More ways to read a trace *)

Definition isLogError (e : Event) : bool :=
  match e with EvLogError _ _ => true | _ => false end.

Definition isWrite (e : Event) : bool :=
  match e with EvWrite _ => true | _ => false end.

(** The start and the end callback. *)
Definition isBoundary (e : Event) : bool :=
  match e with
  | EvLogStartRequest _ _ | EvLogEndRequest _ _ _ => true
  | _ => false
  end.

(** The tags ServeHTTP passes to [logError]. *)
Definition errorTags : list string :=
  ["req.ReadFrom"; "mime.ParseMediaType"; "jsonpb.Unmarshal";
   "proto.Unmarshal"; "JSONMarshaler.MarshalToString"; "proto.Marshal";
   "w.Write"].

(** An event that is not a call of the error callback, or is one with a
    tag of the list. *)
Definition tagged (tags : list string) (e : Event) : bool :=
  match e with
  | EvLogError tag _ => existsb (String.eqb tag) tags
  | _ => true
  end.

(** What the closure can leave in the trace after the start callback:
    nothing that writes the response, no start or end callback, no call of
    the error-body formatter, and error callbacks with the closure's tags
    only. *)
Definition isInner (e : Event) : bool :=
  match e with
  | EvLogStartRequest _ _ | EvLogEndRequest _ _ _ | EvErrorResponse _
  | EvWriteHeader _ | EvWrite _ => false
  | EvLogError tag _ =>
      existsb (String.eqb tag)
        ["req.ReadFrom"; "mime.ParseMediaType"; "jsonpb.Unmarshal";
         "proto.Unmarshal"; "JSONMarshaler.MarshalToString"; "proto.Marshal"]
  | _ => true
  end.

(** What the write loop can leave in the trace. *)
Definition isLoopEvent (e : Event) : bool :=
  match e with
  | EvWrite _ => true
  | EvLogError tag _ => String.eqb tag "w.Write"
  | _ => false
  end.

(** What writing the response can leave before the end callback. *)
Definition isReply (e : Event) : bool :=
  match e with
  | EvWrite _ | EvWriteHeader _ | EvHeaderSet _ _ | EvErrorResponse _ => true
  | EvLogError tag _ => String.eqb tag "w.Write"
  | _ => false
  end.

(** The request passes the method check and the body read, and the
    negotiation chooses the format [json] for the body [b]. *)
Definition negotiates (ups : upsHandler) (r : Request) (json : bool)
    (b : bytes) : Prop :=
  Method r = MethodPost /\
  Body r = inr b /\
  exists mt,
    ParseMediaType (Header_Get (ReqHeader r) "Content-Type") = inr mt /\
    switchContentType (config ups) mt = Some json.

(** Such a request gets the pool object [m0], but the codec rejects the body
    with [e] and leaves [m'] in the object. *)
Definition undecodable (ups : upsHandler) (r : Request) (pool : list Msg)
    (json : bool) (b : bytes) (m0 m' : Msg) (e : Err) : Prop :=
  negotiates ups r json b /\
  acquired ups pool = Some m0 /\
  (if json then jsonpb_Unmarshal b m0 else proto_Unmarshal b m0)
  = (m', Some e).

(** The panic of [reflect.New(reqType.Elem())] on a type without element
    type. *)
Definition noElem : PanicValue := RuntimeError "reflect: Elem of invalid type".

(** An error reply with status [c], earliest first, and the end callback. *)
Definition failing (ups : upsHandler) (r : Request) (c : Z) : list Event :=
  match ErrorResponse (config ups) with
  | Some _ => [EvErrorResponse c]
  | None => []
  end
  ++ [EvHeaderSet "Content-Type" "text/plain; charset=utf-8";
      EvHeaderSet "X-Content-Type-Options" "nosniff";
      EvWriteHeader c;
      EvWrite (list_byte_of_string (errorText ups r c) ++ newline)]
  ++ note (LogEndRequest (config ups))
       (EvLogEndRequest (Method r) (URL r) c).

(** The trace of a request, earliest first, up to the negotiation. *)
Definition negotiated (ups : upsHandler) (r : Request) : list Event :=
  note (LogStartRequest (config ups)) (EvLogStartRequest (Method r) (URL r))
  ++ [EvReadBody; EvParseMediaType (Header_Get (ReqHeader r) "Content-Type")].

(** What the decoding stage adds, earliest first: the raw-request callback
    and the call of the codec. *)
Definition decoding (ups : upsHandler) (json : bool) (b : bytes)
  : list Event :=
  if json
  then note (LogRequestJSON (config ups))
         (EvLogRequestJSON (string_of_list_byte b))
       ++ [EvJSONUnmarshal b]
  else note (LogRequestBytes (config ups)) (EvLogRequestBytes b)
       ++ [EvProtoUnmarshal b].

(** The tag the error callback is given when decoding fails. *)
Definition decodeTag (json : bool) : string :=
  if json then "jsonpb.Unmarshal" else "proto.Unmarshal".

(** The panic of the type assertion on a first result that is the nil
    interface. *)
Definition nilMessage : PanicValue :=
  RuntimeError "interface conversion: interface is nil, not proto.Message".

(** The handler returns the nil interface as its message, and no error.
    Only a handler whose first result type is an interface type can: the
    nil pointer of a pointer result type is a [Some]. *)
Definition returnsNil (ups : upsHandler) (r : Request) (m : Msg) : Prop :=
  handler ups (buildArgs ups r m) = Ret1 None
  \/ handler ups (buildArgs ups r m) = Ret2 None None.

(** A call of one of the ten log callbacks of [Config]. *)
Definition isCallback (e : Event) : bool :=
  match e with
  | EvLogError _ _ | EvLogPanic _ | EvLogStartRequest _ _
  | EvLogEndRequest _ _ _ | EvLogRequestMessage _ | EvLogResponseMessage _
  | EvLogRequestBytes _ | EvLogResponseBytes _ | EvLogRequestJSON _
  | EvLogResponseJSON _ => true
  | _ => false
  end.

(** The same handler with every log callback nil. *)
Definition muted (ups : upsHandler) : upsHandler :=
  {| config :=
       {| JSONMarshaler := JSONMarshaler (config ups);
          LogError := false; LogPanic := false;
          LogStartRequest := false; LogEndRequest := false;
          LogRequestMessage := false; LogResponseMessage := false;
          LogRequestBytes := false; LogResponseBytes := false;
          LogRequestJSON := false; LogResponseJSON := false;
          ErrorResponse := ErrorResponse (config ups) |};
     handlerKind := handlerKind ups; handler := handler ups;
     parameter := parameter ups; poolNew := poolNew ups |}.

(** The same state without the calls of the log callbacks in its trace. *)
Definition mute (s : State) : State :=
  {| statusCode := statusCode s; resp := resp s; arg := arg s;
     requestObjectPool := requestObjectPool s; w := w s;
     events := filter (fun e => negb (isCallback e)) (events s) |}.

(** The end callback, which ServeHTTP reaches unless [WriteHeader] refuses
    the status [c]. *)
Definition ending (ups : upsHandler) (r : Request) (c : Z) : list Event :=
  if validStatus c
  then note (LogEndRequest (config ups)) (EvLogEndRequest (Method r) (URL r) c)
  else [].

(** The calls that send the status line and the body. *)
Definition isSent (e : Event) : bool :=
  match e with
  | EvWriteHeader _ | EvWrite _ => true
  | _ => false
  end.

End Ups.

Arguments Returned {L A}.
Arguments Panic {L A} v.

(** ** Fixtures in the shape of TestHello

    Two message types with a single string field each, [name] in the
    request and [text] in the response; a binary codec that is the wire
    format of that field (tag 0x0a, length, bytes) and a text codec for the
    JSON object with that one member. *)

Module Demo.

(** [TStatus] is a type like [testError] of the tests: an integer type with
    the methods [Error] and [StatusCode]. *)
Inductive ty :=
  TContext | TRequest | TError | TInt | THello | TMessage | TStatus.

Definition ty_eqb (a b : ty) : bool :=
  match a, b with
  | TContext, TContext | TRequest, TRequest | TError, TError
  | TInt, TInt | THello, THello | TMessage, TMessage
  | TStatus, TStatus => true
  | _, _ => false
  end.

Inductive err := Plain (s : string) | Coded (c : Z).

Definition decodeBinary (b : bytes) (m : string) : string * option err :=
  match b with
  | [] => ("", None)
  | Byte.x0a :: n :: rest =>
      if Nat.eqb (Byte.to_nat n) (length rest)
      then (string_of_list_byte rest, None)
      else ("", Some (Plain "proto: unexpected EOF"))
  | _ => ("", Some (Plain "proto: illegal tag"))
  end.

Definition encodeBinary (m : string) : err + bytes :=
  match Byte.of_nat (String.length m) with
  | Some n => inr (Byte.x0a :: n :: list_byte_of_string m)
  | None => inl (Plain "proto: too long")
  end.

(** The text codec reads and writes one JSON object with one string member,
    as jsonpb does for the messages of TestHello: an opening brace, the
    member name between quotation marks, a colon, the value between
    quotation marks, a closing brace.  The quotation mark is given by its
    byte. *)
Definition quote : Byte.byte := Byte.x22.

Definition opening (field : string) : bytes :=
  [Byte.x7b; quote] ++ list_byte_of_string field ++ [quote; Byte.x3a; quote].

Definition closing : bytes := [quote; Byte.x7d].

(** The text of the object with member [field] and value [value]. *)
Definition object (field value : string) : string :=
  string_of_list_byte (opening field ++ list_byte_of_string value ++ closing).

Fixpoint stripPrefix (p b : bytes) : option bytes :=
  match p, b with
  | [], _ => Some b
  | x :: p', y :: b' => if Byte.eqb x y then stripPrefix p' b' else None
  | _ :: _, [] => None
  end.

(** A character that stands for itself in a JSON string. *)
Definition plain (c : Byte.byte) : bool :=
  negb (Byte.eqb c quote) && negb (Byte.eqb c Byte.x5c)
  && (32 <=? Byte.to_nat c)%nat && (Byte.to_nat c <? 127)%nat.

(** It accepts the objects whose value is written without escapes, which
    jsonpb accepts too, and rejects everything else. *)
Definition decodeText (b : bytes) (m : string) : string * option err :=
  match stripPrefix (opening "name") b with
  | Some rest =>
      match stripPrefix (rev closing) (rev rest) with
      | Some value =>
          if forallb plain value
          then (string_of_list_byte (rev value), None)
          else (m, Some (Plain "invalid character in string"))
      | None => (m, Some (Plain "unexpected end of JSON input"))
      end
  | None => (m, Some (Plain "invalid character looking for beginning of value"))
  end.

(** It writes a value of plain characters as it is; the fixtures have no
    other. *)
Definition encodeText (_ : unit) (m : string) : err + string :=
  if forallb plain (list_byte_of_string m) then inr (object "text" m)
  else inl (Plain "value needs escaping").

Definition parse (v : string) : err + string :=
  if String.eqb v "" then inl (Plain "mime: no media type") else inr v.

#[export] Instance lib : Lib := {|
  rtype := ty;
  rtype_eqb := ty_eqb;
  rtype_eqb_spec :=
    ltac:(intros a b; destruct a, b; simpl; split; intro H; congruence);
  contextType := TContext;
  requestType := TRequest;
  context_is_not_request := ltac:(discriminate);
  Implements_error := fun t => ty_eqb t TError || ty_eqb t TStatus;
  Implements_message := fun t => ty_eqb t THello || ty_eqb t TMessage;
  AssignableTo := ty_eqb;
  Msg := string;
  Err := err;
  Any := Z;
  Ctx := unit;
  Marshaler := unit;
  New_Elem := fun t => if ty_eqb t THello then Some ""%string else None;
  Reset := fun _ => ""%string;
  ParseMediaType := parse;
  jsonpb_Unmarshal := decodeText;
  proto_Unmarshal := decodeBinary;
  MarshalToString := encodeText;
  proto_Marshal := encodeBinary;
  asStatusCoder := fun e => match e with Coded c => Some c | Plain _ => None end
|}.

Definition DefaultConfig : Config :=
  {| JSONMarshaler := Some tt;
     LogError := true; LogPanic := true;
     LogStartRequest := true; LogEndRequest := true;
     LogRequestMessage := true; LogResponseMessage := true;
     LogRequestBytes := true; LogResponseBytes := true;
     LogRequestJSON := true; LogResponseJSON := true;
     ErrorResponse := None |}.

Definition lastMessage (args : list Arg) : string :=
  match rev args with
  | ArgMessage m :: _ => m
  | _ => ""%string
  end.

(** The handler of TestHello: one message in, one message out; it panics
    on the name "panic". *)
Definition hello : Handler := fun args =>
  let name := lastMessage args in
  if String.eqb name "panic" then Panics (PanicString name)
  else Ret1 (Some ("Hello, " ++ name ++ "!")%string).

(** The handler of TestHello that also returns an error, of the interface
    type error; here it also has errors with the status codes 200 and 99. *)
Definition helloError : Handler := fun args =>
  let name := lastMessage args in
  if String.eqb name "Error" then Ret2 (Some ""%string) (Some (Plain "error"))
  else if String.eqb name "Teapot" then Ret2 (Some ""%string) (Some (Coded 418))
  else if String.eqb name "Fine" then Ret2 (Some ""%string) (Some (Coded 200))
  else if String.eqb name "Low" then Ret2 (Some ""%string) (Some (Coded 99))
  else Ret2 (Some ("Error, " ++ name ++ "!")%string) None.

(** The same handler declared with the second result type [TStatus]
    instead of error: what it returns is a value of an integer type. *)
Definition helloStatus : Handler := fun args =>
  let name := lastMessage args in
  if String.eqb name "Teapot"
  then Ret2Value "int" (Some ""%string) (Coded 418)
  else if String.eqb name "Fine"
  then Ret2Value "int" (Some ""%string) (Coded 200)
  else Ret2Value "int" (Some ("Error, " ++ name ++ "!")%string) (Coded 0).

(** The handler of TestHello for the convention with a context and a bound
    parameter; it insists on its three arguments in their order. *)
Definition helloContextParam : Handler := fun args =>
  match args with
  | [ArgContext _; ArgParameter (Some _); ArgMessage name] =>
      Ret1 (Some ("ContextParameter, " ++ name ++ "!")%string)
  | _ => Panics (PanicString "wrong arguments")
  end.

Definition post (ct : string) (body : string) : Request :=
  {| Method := "POST"; URL := "/hello";
     ReqHeader := [("Content-Type"%string, ct)];
     Body := inr (list_byte_of_string body); Context := tt |}.

Definition get : Request :=
  {| Method := "GET"; URL := "/hello"; ReqHeader := [];
     Body := inr []; Context := tt |}.

(** The request of TestHello with the JSON object for [name], and the bytes
    of its body. *)
Definition ask (name : string) : Request :=
  post "application/json" (object "name" name).

Definition asked (name : string) : bytes :=
  list_byte_of_string (object "name" name).

(** a POST whose body cannot be read *)
Definition broken (ct : string) : Request :=
  {| Method := "POST"; URL := "/hello";
     ReqHeader := [("Content-Type"%string, ct)];
     Body := inl (Plain "unexpected EOF"); Context := tt |}.

Definition upsOf (h : Handler) (k : handlerType) (p : option Value) : upsHandler :=
  {| config := DefaultConfig; handlerKind := k; handler := h;
     parameter := p; poolNew := Some ""%string |}.

Definition ups : upsHandler := upsOf hello messageHandlerType None.
Definition upsError : upsHandler := upsOf helloError messageHandlerType None.
Definition upsStatus : upsHandler := upsOf helloStatus messageHandlerType None.

Definition one : Value := {| TypeOf := TInt; payload := 1 |}.

Definition upsContextParam : upsHandler :=
  upsOf helloContextParam contextParamHandlerType (Some one).

(** A handler with the result type proto.Message that returns the nil
    interface and no error. *)
Definition silent : Handler := fun _ => Ret1 None.

(** A message the binary codec of the fixtures cannot encode: its length
    does not fit the one length byte. *)
Definition long : string := string_of_list_byte (repeat Byte.x61 256).

Definition verbose : Handler := fun _ => Ret1 (Some long).

Definition upsSilent : upsHandler := upsOf silent messageHandlerType None.
Definition upsVerbose : upsHandler := upsOf verbose messageHandlerType None.

(** [hello] bound with a message type that has no element type, as
    construction leaves it for a parameter of type [TMessage]. *)
Definition upsNoElem : upsHandler :=
  {| config := DefaultConfig; handlerKind := messageHandlerType;
     handler := hello; parameter := None; poolNew := None |}.


End Demo.


(** * Theorems *)

Unset Implicit Arguments.

Section Binder.
Context {L : Lib}.

Lemma rtype_eqb_refl (t : rtype) : rtype_eqb t t = true.
Proof. apply rtype_eqb_spec. reflexivity. Qed.

Lemma request_is_not_context : rtype_eqb requestType contextType = false.
Proof.
  destruct (rtype_eqb requestType contextType) eqn:E; [|reflexivity].
  apply rtype_eqb_spec in E. symmetry in E.
  destruct (context_is_not_request E).
Qed.

Lemma rtype_eqb_neq (a b : rtype) : a <> b -> rtype_eqb a b = false.
Proof.
  intros N. destruct (rtype_eqb a b) eqn:E; [|reflexivity].
  apply rtype_eqb_spec in E. destruct (N E).
Qed.

(** The switch on the parameters agrees with the documented classification
    once the last parameter is known to be a message. *)
Lemma checkIn_documented (ins : list rtype) :
  match checkIn ins with
  | inl _ => documentedVariant ins = None
  | inr (ht, reqType, paramType) =>
      if Implements_message reqType
      then documentedVariant ins = Some ht
           /\ documentedParamType ins = paramType
      else documentedVariant ins = None
  end.
Proof.
  destruct ins as [|i0 [|i1 [|i2 [|i3 ins]]]]; simpl; try reflexivity.
  - unfold documentedParamType. simpl.
    destruct (Implements_message i0); simpl; auto.
  - unfold documentedParamType. simpl.
    destruct (rtype_eqb i0 contextType), (rtype_eqb i0 requestType);
      destruct (Implements_message i1); simpl; auto.
  - unfold documentedParamType. simpl.
    destruct (rtype_eqb i0 contextType), (rtype_eqb i0 requestType);
      destruct (Implements_message i2); simpl; auto.
Qed.

Lemma checkOut_documented (outs : list rtype) :
  documentedReturns outs = match checkOut outs with None => true | Some _ => false end.
Proof.
  destruct outs as [|o0 [|o1 [|o2 outs]]]; simpl; try reflexivity.
  - destruct (Implements_message o0); reflexivity.
  - destruct (Implements_message o0), (Implements_error o1); reflexivity.
Qed.

Lemma buildArgs_documented (ups : upsHandler) (r : Request) (m : Msg) :
  buildArgs ups r m = documentedArgs (handlerKind ups) r (parameter ups) m.
Proof. unfold buildArgs. destruct (handlerKind ups); reflexivity. Qed.

(** The documented classification, case by case. *)
Lemma documentedVariant_table (ins : list rtype) (k : handlerType) :
  documentedVariant ins = Some k ->
  (forall m, ins = [m] -> k = messageHandlerType) /\
  (forall m, ins = [contextType; m] -> k = contextHandlerType) /\
  (forall m, ins = [requestType; m] -> k = requestHandlerType) /\
  (forall p m, ins = [p; m] -> p <> contextType -> p <> requestType ->
               k = paramHandlerType) /\
  (forall p m, ins = [contextType; p; m] -> k = contextParamHandlerType) /\
  (forall p m, ins = [requestType; p; m] -> k = requestParamHandlerType).
Proof.
  intros H.
  repeat match goal with |- _ /\ _ => split end; intros; subst ins;
    simpl in H;
    repeat match goal with
           | N : _ <> _ |- _ => apply rtype_eqb_neq in N
           end;
    rewrite ?rtype_eqb_refl, ?request_is_not_context in H;
    repeat match goal with
           | E : rtype_eqb _ _ = false |- _ => rewrite E in H; clear E
           end;
    destruct (Implements_message _); congruence.
Qed.

(** What a successful construction records. *)
Lemma construction_ok ins outs f param cfg ups :
  UPSWithParameterAndConfig (Func ins outs f) param cfg = inr ups ->
  documentedReturns outs = true /\
  documentedVariant ins = Some (handlerKind ups) /\
  documentedParamOk ins param = true /\
  config ups = cfg /\ handler ups = f /\ parameter ups = param.
Proof.
  unfold UPSWithParameterAndConfig. intros H.
  rewrite checkOut_documented.
  destruct (checkOut outs); [discriminate|].
  pose proof (checkIn_documented ins) as HI.
  destruct (checkIn ins) as [p|[[ht reqType] paramType]]; [discriminate|].
  destruct (Implements_message reqType); simpl in H; [|discriminate].
  destruct HI as [HV HP].
  unfold documentedParamOk. rewrite HP.
  unfold checkParam in H.
  destruct paramType as [pt|].
  - destruct param as [p|]; [|discriminate].
    destruct (AssignableTo (TypeOf p) pt); simpl in H; [|discriminate].
    inversion H; subst; simpl. repeat split; auto.
  - inversion H; subst; simpl. repeat split; auto.
Qed.

Lemma construction_total h param cfg :
  validShape h param = true ->
  exists ups, UPSWithParameterAndConfig h param cfg = inr ups.
Proof.
  destruct h as [| |ins outs f]; simpl; try discriminate.
  intros H. apply andb_prop in H. destruct H as [H HP].
  apply andb_prop in H. destruct H as [HO HV].
  rewrite checkOut_documented in HO.
  destruct (checkOut outs); [discriminate|].
  pose proof (checkIn_documented ins) as HI.
  destruct (checkIn ins) as [p|[[ht reqType] paramType]].
  - rewrite HI in HV. discriminate.
  - destruct (Implements_message reqType); simpl.
    + destruct HI as [_ HT]. unfold documentedParamOk in HP. rewrite HT in HP.
      unfold checkParam. destruct paramType as [pt|]; [|eauto].
      destruct param as [p|]; [|discriminate]. rewrite HP. simpl. eauto.
    + rewrite HI in HV. discriminate.
Qed.

(** C7: construction panics exactly when the handler's shape is invalid.
    A valid shape is a function whose results are a message, or a message
    and an error-like value, whose parameters are one of the six calling
    conventions, and, where the convention has a bound parameter, whose
    supplied parameter value has a type assignable to the declared one. *)
Theorem construction_panics_iff_invalid h param cfg :
  (exists p, UPSWithParameterAndConfig h param cfg = inl p)
  <-> validShape h param = false.
Proof.
  split.
  - intros [p Hp]. destruct (validShape h param) eqn:E; [|reflexivity].
    destruct (construction_total h param cfg E) as [ups Hu]. congruence.
  - intros Hv.
    destruct (UPSWithParameterAndConfig h param cfg) as [p|ups] eqn:E;
      [eauto|].
    exfalso. destruct h as [| |ins outs f]; simpl in E; try discriminate.
    apply construction_ok in E. destruct E as (HO & HVar & HP & _).
    simpl in Hv. rewrite HO, HVar, HP in Hv. discriminate.
Qed.

End Binder.

Section Dispatch.
Context {L : Lib}.

#[local] Arguments note : simpl never.
#[local] Arguments hook : simpl never.

(** ** Running the monad *)

Lemma hook_run (field : bool) (e : Event) (s : State) :
  hook field e s = (Normal tt, logged (note field e) s).
Proof. destruct s, field; reflexivity. Qed.

Lemma errorResponse_run ups r c s :
  errorResponse ups (Context r) c s
  = (Normal (errorText ups r c),
     logged (match ErrorResponse (config ups) with
             | Some _ => [EvErrorResponse c]
             | None => []
             end) s).
Proof.
  unfold errorResponse, errorText.
  destruct (ErrorResponse (config ups)), s; reflexivity.
Qed.

Lemma recovering_normal ups body s :
  fst (recovering ups body s) = Normal tt.
Proof.
  unfold recovering. destruct (body s) as [[a| |v] s1]; try reflexivity.
  unfold bind, logPanic. rewrite hook_run. reflexivity.
Qed.

Lemma serve_split ups r pool fs :
  serve ups r pool fs = respond ups r (dispatched ups r pool fs).
Proof.
  unfold serve, ServeHTTP, dispatched.
  unfold bind at 1 2 3 4 5. cbn [setStatusCode setResp].
  pose proof (recovering_normal ups (closure ups r)) as HN.
  match goal with
  | |- context [recovering ups (closure ups r) ?s0] =>
      specialize (HN s0); destruct (recovering ups (closure ups r) s0) as [o s1]
  end.
  simpl in HN. subst o. reflexivity.
Qed.


(** ** Growing traces *)

Lemma Forall_note (P : Event -> Prop) field e :
  P e -> Forall P (note field e).
Proof. intros H. unfold note. destruct field; repeat constructor; exact H. Qed.

Lemma grows_refl P t : grows P t t.
Proof. exists []. split; [reflexivity|constructor]. Qed.

Lemma grows_cons P t t' e : P e = true -> grows P t t' -> grows P t (e :: t').
Proof.
  intros He (es & -> & Hf). exists (e :: es). split; [reflexivity|].
  constructor; assumption.
Qed.

Lemma grows_app P t t' es :
  Forall (fun e => P e = true) es -> grows P t t' -> grows P t (es ++ t').
Proof.
  intros He (es' & -> & Hf). exists (es ++ es').
  split; [now rewrite app_assoc|]. apply Forall_app. split; assumption.
Qed.

Lemma grows_note P t t' field e :
  P e = true -> grows P t t' -> grows P t (note field e ++ t').
Proof. intros He. apply grows_app. now apply Forall_note. Qed.

Lemma grows_trans P t1 t2 t3 : grows P t1 t2 -> grows P t2 t3 -> grows P t1 t3.
Proof.
  intros (es & -> & Hf) (es' & -> & Hf'). exists (es' ++ es).
  split; [now rewrite app_assoc|]. apply Forall_app. split; assumption.
Qed.

Ltac grows :=
  repeat first
    [ apply grows_refl
    | apply grows_cons; [reflexivity|]
    | apply grows_note; [reflexivity|]
    | apply grows_app;
      [match goal with
       | |- Forall _ (match ?x with _ => _ end) =>
           destruct x; repeat constructor
       end|] ].

(** ** The write loop *)

Ltac splits := repeat match goal with |- _ /\ _ => split end.

Lemma writeLoop_spec ups fuel : forall p s,
  let res := writeLoop ups fuel p s in
  fst res = Normal tt /\
  statusCode (snd res) = statusCode s /\
  resp (snd res) = resp s /\
  arg (snd res) = arg s /\
  requestObjectPool (snd res) = requestObjectPool s /\
  RespHeader (w (snd res)) = RespHeader (w s) /\
  grows isWriting
    (match fuel with O => events s | S _ => EvWrite p :: events s end)
    (events (snd res)) /\
  Code (w (snd res))
  = match fuel with O => Code (w s) | S _ => sendHeader StatusOK (Code (w s)) end /\
  (exists q q', p = q ++ q' /\ RespBody (w (snd res)) = RespBody (w s) ++ q) /\
  (noWriteError (faults (w s)) -> (length (faults (w s)) < fuel)%nat ->
   RespBody (w (snd res)) = RespBody (w s) ++ p).
Proof.
  induction fuel as [|fuel IH]; intros p s; cbn zeta.
  - simpl. splits; auto; try reflexivity.
    + grows.
    + exists nil; exists p. split; [reflexivity|]. now rewrite app_nil_r.
    + intros _ H. inversion H.
  - destruct s as [sc rs a pl [hd cd bd fs] es].
    destruct fs as [|[n e] fs].
    + cbn. rewrite Nat.leb_refl. cbn.
      splits; auto; try reflexivity.
      * grows.
      * exists p; exists nil. split; [now rewrite app_nil_r|reflexivity].
    + destruct e as [err|].
      * cbn. unfold logError. unfold bind. cbn. rewrite hook_run. cbn.
        splits; auto; try reflexivity.
        -- grows.
        -- exists (firstn (Nat.min n (length p)) p);
             exists (skipn (Nat.min n (length p)) p).
           split; [now rewrite firstn_skipn|reflexivity].
        -- intros H. inversion H as [|x l Hx Hl]; subst. discriminate.
      * cbn. unfold bind. cbn.
        destruct (length p <=? Nat.min n (length p))%nat eqn:Hle.
        -- cbn. apply Nat.leb_le in Hle.
           splits; auto; try reflexivity.
           ++ grows.
           ++ exists p; exists nil. split; [now rewrite app_nil_r|].
              now rewrite firstn_all2.
           ++ intros _ _. now rewrite firstn_all2.
        -- apply Nat.leb_gt in Hle.
           match goal with
           | |- context [writeLoop ups fuel ?p' ?s'] =>
               specialize (IH p' s'); cbn zeta in IH;
               destruct (writeLoop ups fuel p' s') as [o s1]
           end.
           cbn in IH |- *.
           destruct IH as (H1 & H2 & H3 & H4 & H5 & H6 & H7 & H8 & H9 & H10).
           splits; auto; try reflexivity.
           ++ eapply grows_trans; [|exact H7]. destruct fuel; grows.
           ++ rewrite H8. destruct fuel, cd; reflexivity.
           ++ destruct H9 as (q & q' & Hp & Hq).
              exists (firstn (Nat.min n (length p)) p ++ q); exists q'.
              split.
              ** rewrite <- app_assoc, <- Hp. now rewrite firstn_skipn.
              ** rewrite Hq. now rewrite <- app_assoc.
           ++ intros Hn Hlen. inversion Hn as [|x l Hx Hl]; subst.
              rewrite H10; [|assumption|simpl in Hlen; lia].
              rewrite <- app_assoc. now rewrite firstn_skipn.
Qed.


(** The bound is never met: with more fuel than there are faults the loop
    ends by itself, as it does with any greater bound. *)
Lemma writeLoop_fuel ups k : forall fuel p s,
  (length (faults (w s)) < fuel)%nat ->
  writeLoop ups (fuel + k) p s = writeLoop ups fuel p s.
Proof.
  induction fuel as [|fuel IH]; intros p s Hlt; [inversion Hlt|].
  destruct s as [sc rs a pl [hd cd bd fs] es].
  destruct fs as [|[n e] fs].
  - cbn. rewrite Nat.leb_refl. reflexivity.
  - destruct e as [err|].
    + reflexivity.
    + cbn. unfold bind. cbn.
      destruct (length p <=? Nat.min n (length p))%nat; [reflexivity|].
      apply IH. cbn in Hlt |- *. lia.
Qed.

(** ** Writing the response *)

Lemma sendHeader_idem c d sent :
  sendHeader c (sendHeader d sent) = sendHeader d sent.
Proof. destruct sent; reflexivity. Qed.

(** An error reply, on any state. *)
Lemma respond_error ups r s :
  statusCode s <> StatusOK ->
  validStatus (statusCode s) = true ->
  respond ups r s =
  (Normal tt,
   {| statusCode := statusCode s; resp := resp s; arg := arg s;
      requestObjectPool := requestObjectPool s;
      w := {| RespHeader :=
                Header_Set
                  (Header_Set (RespHeader (w s)) "Content-Type"
                     "text/plain; charset=utf-8")
                  "X-Content-Type-Options" "nosniff";
              Code := sendHeader (statusCode s) (Code (w s));
              RespBody :=
                RespBody (w s)
                ++ accepted (faults (w s))
                     (list_byte_of_string (errorText ups r (statusCode s))
                      ++ newline);
              faults := tl (faults (w s)) |};
      events := note (LogEndRequest (config ups))
                  (EvLogEndRequest (Method r) (URL r) (statusCode s))
                ++ errorReply ups r (statusCode s) ++ events s |}).
Proof.
  intros Hsc Hv. apply Z.eqb_neq in Hsc.
  unfold respond, logEndRequest, bind. cbn [getState]. rewrite Hsc.
  rewrite errorResponse_run.
  unfold http_Error, w_Header_Set, w_WriteHeader, w_Write, bind, errorReply.
  destruct s as [sc rs a pl [hd cd bd fs] es]. cbn in Hv |- *.
  destruct cd as [old|]; cbn; rewrite ?Hv; cbn;
    (destruct fs as [|[n e] fs]; cbn; rewrite hook_run; cbn;
     destruct (ErrorResponse (config ups)); reflexivity).
Qed.

(** An error reply whose status [WriteHeader] refuses: the two headers are
    set, nothing is sent, the end callback is not reached. *)
Lemma respond_refused ups r s :
  validStatus (statusCode s) = false ->
  Code (w s) = None ->
  respond ups r s =
  (Panic (invalidWriteHeader (statusCode s)),
   {| statusCode := statusCode s; resp := resp s; arg := arg s;
      requestObjectPool := requestObjectPool s;
      w := {| RespHeader :=
                Header_Set
                  (Header_Set (RespHeader (w s)) "Content-Type"
                     "text/plain; charset=utf-8")
                  "X-Content-Type-Options" "nosniff";
              Code := None;
              RespBody := RespBody (w s);
              faults := faults (w s) |};
      events := refusedReply ups (statusCode s) ++ events s |}).
Proof.
  intros Hv Hc.
  assert (Hsc : (statusCode s =? StatusOK) = false).
  { apply Z.eqb_neq. intros E. rewrite E in Hv. discriminate. }
  unfold respond, logEndRequest, bind. cbn [getState]. rewrite Hsc.
  rewrite errorResponse_run.
  unfold http_Error, w_Header_Set, w_WriteHeader, bind, refusedReply.
  destruct s as [sc rs a pl [hd cd bd fs] es]. cbn in Hv, Hc |- *.
  subst cd. cbn. rewrite Hv. cbn.
  destruct (ErrorResponse (config ups)); reflexivity.
Qed.

(** A reply with status 200, on any state: the write loop, then the end
    callback. *)
Lemma respond_ok ups r s :
  statusCode s = StatusOK ->
  exists s1,
    respond ups r s =
    (Normal tt,
     logged (note (LogEndRequest (config ups))
               (EvLogEndRequest (Method r) (URL r) StatusOK)) s1) /\
    statusCode s1 = statusCode s /\
    arg s1 = arg s /\
    requestObjectPool s1 = requestObjectPool s /\
    RespHeader (w s1) = RespHeader (w s) /\
    Code (w s1) = sendHeader StatusOK (Code (w s)) /\
    grows isWriting (EvWrite (resp s) :: events s) (events s1) /\
    (exists q q', resp s = q ++ q' /\ RespBody (w s1) = RespBody (w s) ++ q) /\
    (noWriteError (faults (w s)) ->
     RespBody (w s1) = RespBody (w s) ++ resp s).
Proof.
  intros Hsc. unfold respond, logEndRequest, bind. cbn [getState].
  rewrite Hsc. cbn [Z.eqb StatusOK Pos.eqb].
  pose proof (writeLoop_spec ups (S (length (faults (w s)))) (resp s) s) as H.
  cbn zeta in H.
  destruct (writeLoop ups (S (length (faults (w s)))) (resp s) s) as [o s1].
  cbn [fst snd] in H.
  destruct H as (H1 & H2 & H3 & H4 & H5 & H6 & H7 & H8 & H9 & H10).
  subst o. rewrite hook_run. exists s1. cbn in H7.
  splits; auto; congruence.
Qed.

Lemma isWriting_isRespond e : isWriting e = true -> isRespond e = true.
Proof. destruct e; simpl; congruence. Qed.

Lemma grows_weaken (P Q : Event -> bool) t t' :
  (forall e, P e = true -> Q e = true) -> grows P t t' -> grows Q t t'.
Proof.
  intros HPQ (es & -> & Hf). exists es. split; [reflexivity|].
  eapply Forall_impl; [|exact Hf]. exact HPQ.
Qed.

(** Writing the response returns, touches neither the status chosen by the
    closure nor the pool, and leaves only events of its own. *)
Lemma respond_frame ups r s :
  Code (w s) = None ->
  let res := respond ups r s in
  fst res = replyOutcome (statusCode s) /\
  statusCode (snd res) = statusCode s /\
  arg (snd res) = arg s /\
  requestObjectPool (snd res) = requestObjectPool s /\
  Code (w (snd res))
  = (if validStatus (statusCode s) then Some (statusCode s) else None) /\
  grows isRespond (events s) (events (snd res)).
Proof.
  intros Hc. cbn zeta. unfold replyOutcome.
  destruct (Z.eq_dec (statusCode s) StatusOK) as [Hsc|Hsc].
  - destruct (respond_ok ups r s Hsc)
      as (s1 & -> & H2 & H4 & H5 & H6 & H8 & H7 & _).
    rewrite Hsc. cbn. rewrite H8, Hc. splits; auto; try congruence.
    apply grows_note; [reflexivity|].
      eapply grows_trans; [|eapply grows_weaken; [apply isWriting_isRespond|exact H7]].
      grows.
  - destruct (validStatus (statusCode s)) eqn:Hv.
    + rewrite (respond_error ups r s Hsc Hv). cbn -[note]. splits; auto.
      * now rewrite Hc.
      * unfold errorReply. cbn -[note]. grows.
    + rewrite (respond_refused ups r s Hv Hc). cbn -[note]. splits; auto.
      unfold refusedReply. cbn -[note]. grows.
Qed.

(** ** Symbolic execution of the closure *)

Lemma by_value {A : Type} (x : A) (P : A -> Prop) :
  (exists d, x = d /\ P d) -> P x.
Proof. intros (d & -> & H). exact H. Qed.

(** run the closure once, then look at the state it leaves *)
Ltac on_dispatched ups r pool fs :=
  pattern (dispatched ups r pool fs); apply by_value.

Ltac unfold_all :=
  unfold dispatched, closure, decodeInvokeEncode, recovering, defer, release,
    pool_Get, unmarshal, logStartRequest, logError, logPanic,
    logRequestMessage, logResponseMessage, logRequestBytes, logResponseBytes,
    logRequestJSON, logResponseJSON, w_Header_Set, start, NewRecorder,
    bind, ret, return_, panic, emit, setStatusCode, setResp, setArg, setPool,
    setWriter, getState.

Ltac run := repeat (cbn -[hook note trace]; rewrite ?hook_run).

(** destruct a scrutinee the execution is stuck on *)
Ltac branch :=
  match goal with
  | |- context [match ?x with _ => _ end] =>
      lazymatch x with
      | context [match _ with _ => _ end] => fail
      | context [hook] => fail
      | _ => destruct x eqn:?
      end
  end.

Ltac explore := run; repeat (branch; run).

(** The closure sends nothing. *)
Lemma dispatched_unsent ups r pool fs :
  Code (w (dispatched ups r pool fs)) = None.
Proof.
  on_dispatched ups r pool fs.
  unfold_all. explore; (eexists; split; [reflexivity|]); reflexivity.
Qed.

(** ** The whole call *)

(** The response is written from the state the closure left; writing it
    changes neither status nor pool, and ServeHTTP returns unless the status
    is one that [WriteHeader] refuses. *)
Lemma serve_frame ups r pool fs :
  let d := dispatched ups r pool fs in
  let res := serve ups r pool fs in
  fst res = replyOutcome (statusCode d) /\
  statusCode (snd res) = statusCode d /\
  arg (snd res) = arg d /\
  requestObjectPool (snd res) = requestObjectPool d /\
  Code (w (snd res))
  = (if validStatus (statusCode d) then Some (statusCode d) else None) /\
  grows isRespond (events d) (events (snd res)).
Proof.
  cbn zeta. rewrite serve_split. apply respond_frame, dispatched_unsent.
Qed.

Ltac status := first [reflexivity | discriminate | cbn; discriminate | assumption].

Lemma filter_grows (f P : Event -> bool) t t' :
  (forall e, P e = true -> f e = false) ->
  grows P t t' -> filter f (rev t') = filter f (rev t).
Proof.
  intros HP (es & -> & Hf). rewrite rev_app_distr, filter_app.
  rewrite (filter_rev f es).
  assert (filter f es = []) as ->; [|simpl; now rewrite app_nil_r].
  induction Hf as [|e es He Hes IH]; [reflexivity|].
  simpl. rewrite (HP e He). exact IH.
Qed.

(** What the closure left can be read off the final trace. *)
Lemma trace_dispatched (f : Event -> bool) ups r pool fs :
  (forall e, isRespond e = true -> f e = false) ->
  filter f (trace (snd (serve ups r pool fs)))
  = filter f (trace (dispatched ups r pool fs)).
Proof.
  intros Hf. unfold trace. eapply filter_grows; [exact Hf|].
  apply serve_frame.
Qed.

Lemma filter_note (f : Event -> bool) field e :
  filter f (note field e) = if f e then note field e else [].
Proof. unfold note. destruct field; simpl; destruct (f e); reflexivity. Qed.

Lemma rev_note field e : rev (note field e) = note field e.
Proof. unfold note. destruct field; reflexivity. Qed.

(** ** Wrong method *)

Lemma dispatched_wrong_method ups r pool fs :
  Method r <> MethodPost ->
  dispatched ups r pool fs =
  {| statusCode := StatusMethodNotAllowed; resp := []; arg := None;
     requestObjectPool := pool; w := NewRecorder fs;
     events := note (LogStartRequest (config ups))
                 (EvLogStartRequest (Method r) (URL r)) |}.
Proof.
  intros H. apply String.eqb_neq in H.
  unfold_all. run. rewrite H. run. now rewrite app_nil_r.
Qed.

(** C9: a request whose method is not POST is answered with status 405.
    Its body is not read, its media type is not parsed and the pool is not
    touched: the trace holds the start callback, the error reply and the end
    callback with status 405, and nothing else. *)
Theorem method_not_allowed ups r pool fs :
  Method r <> MethodPost ->
  let res := serve ups r pool fs in
  fst res = Normal tt /\
  statusCode (snd res) = StatusMethodNotAllowed /\
  Code (w (snd res)) = Some StatusMethodNotAllowed /\
  requestObjectPool (snd res) = pool /\
  arg (snd res) = None /\
  count isReadBody (trace (snd res)) = 0%nat /\
  count isParseMediaType (trace (snd res)) = 0%nat /\
  count isPoolGet (trace (snd res)) = 0%nat /\
  trace (snd res) =
    note (LogStartRequest (config ups)) (EvLogStartRequest (Method r) (URL r))
    ++ match ErrorResponse (config ups) with
       | Some _ => [EvErrorResponse StatusMethodNotAllowed]
       | None => []
       end
    ++ [EvHeaderSet "Content-Type" "text/plain; charset=utf-8";
        EvHeaderSet "X-Content-Type-Options" "nosniff";
        EvWriteHeader StatusMethodNotAllowed;
        EvWrite (list_byte_of_string (errorText ups r StatusMethodNotAllowed)
                 ++ newline)]
    ++ note (LogEndRequest (config ups))
         (EvLogEndRequest (Method r) (URL r) StatusMethodNotAllowed).
Proof.
  intros H. cbn zeta. rewrite serve_split, (dispatched_wrong_method ups r pool fs H).
  rewrite respond_error by status.
  unfold trace, count, errorReply. cbn -[note].
  destruct (LogStartRequest (config ups)), (LogEndRequest (config ups)),
    (ErrorResponse (config ups)); cbn; splits; reflexivity.
Qed.


(** ** Requests that reach the handler *)

Ltac to_call H pool json :=
  let HM := fresh "HM" in let HB := fresh "HB" in let HP := fresh "HP" in
  let HS := fresh "HS" in let HA := fresh "HA" in let HU := fresh "HU" in
  let mt := fresh "mt" in let m0 := fresh "m0" in
  destruct H as (HM & HB & (mt & HP & HS) & (m0 & HA & HU));
  unfold upToCall;
  unfold_all; run; rewrite HM; run; rewrite HB; run; rewrite HP; run;
  rewrite HS; run;
  (destruct pool; simpl in HA; cbn [acquired];
   [rewrite !HA | inversion HA; subst]); run;
  destruct json; run; rewrite HU; run.

Ltac tidy := cbn -[note]; rewrite ?app_nil_r, <- ?app_assoc; cbn -[note].

(** the handler returns an error *)
Lemma dispatched_error ups r pool fs json b m x e :
  decodesTo ups r pool json b m ->
  handler ups (buildArgs ups r m) = Ret2 x (Some e) ->
  dispatched ups r pool fs =
  {| statusCode := documentedStatus e; resp := []; arg := None;
     requestObjectPool := Reset m :: tl pool; w := NewRecorder fs;
     events := EvPoolPut (Reset m) :: EvReset :: upToCall ups r pool json b m |}.
Proof.
  intros H Hh. unfold documentedStatus.
  to_call H pool json; rewrite Hh; run;
    destruct (asStatusCoder e); run; tidy; reflexivity.
Qed.

(** the handler panics *)
Lemma dispatched_panic ups r pool fs json b m v :
  decodesTo ups r pool json b m ->
  handler ups (buildArgs ups r m) = Panics v ->
  dispatched ups r pool fs =
  {| statusCode := StatusInternalServerError; resp := []; arg := None;
     requestObjectPool := Reset m :: tl pool; w := NewRecorder fs;
     events := note (LogPanic (config ups)) (EvLogPanic v)
               ++ EvPoolPut (Reset m) :: EvReset
                  :: upToCall ups r pool json b m |}.
Proof.
  intros H Hh.
  to_call H pool json; rewrite Hh; run; tidy; reflexivity.
Qed.


(** the handler returns a message that the codec encodes *)
Lemma dispatched_encoded ups r pool fs json b m res enc :
  decodesTo ups r pool json b m ->
  returns ups r m res ->
  encodesTo ups json res enc ->
  dispatched ups r pool fs =
  {| statusCode := StatusOK; resp := enc; arg := None;
     requestObjectPool := Reset m :: tl pool;
     w := {| RespHeader := [("Content-Type", mediaTypeOf json)];
             Code := None; RespBody := []; faults := fs |};
     events := EvPoolPut (Reset m) :: EvReset
               :: EvHeaderSet "Content-Type" (mediaTypeOf json)
               :: encoding ups json res (rawResponse ups json enc)
               ++ upToCall ups r pool json b m |}.
Proof.
  intros H Hr He. unfold encoding, rawResponse.
  destruct Hr as [Hr|Hr];
    (to_call H pool json; rewrite Hr; run;
     unfold encodesTo in He;
     first
       [ destruct He as (mr & txt & Hm & Ht & ->); rewrite Hm; run;
         rewrite Ht; run; rewrite string_of_list_byte_of_string
       | rewrite He; run ];
     tidy; reflexivity).
Qed.

(** the handler returns a message that the codec rejects *)
Lemma dispatched_encode_failed ups r pool fs json b m res :
  decodesTo ups r pool json b m ->
  returns ups r m res ->
  encodeFails ups json res ->
  statusCode (dispatched ups r pool fs) = StatusInternalServerError
  /\ w (dispatched ups r pool fs) = NewRecorder fs.
Proof.
  intros H Hr He.
  destruct Hr as [Hr|Hr];
    (to_call H pool json; rewrite Hr; run;
     unfold encodeFails in He;
     first
       [ destruct He as (mr & err & Hm & Ht); rewrite Hm; run; rewrite Ht; run
       | destruct He as (err & Ht); rewrite Ht; run ];
     split; reflexivity).
Qed.


(** ** Reading the trace of such a request *)

Ltac filt :=
  unfold upToCall, encoding, rawResponse;
  repeat first
    [ rewrite filter_app
    | rewrite filter_note
    | rewrite app_nil_r
    | progress cbn -[note]
    | match goal with
      | |- context [if ?j then _ else _] => is_var j; destruct j
      | |- context [match acquired ?u ?p with _ => _ end] =>
          destruct (acquired u p)
      end ];
  try reflexivity.

Lemma upToCall_encode ups r pool json b m :
  filter isEncodeEvent (upToCall ups r pool json b m) = [].
Proof. filt. Qed.

Lemma respond_not_encode e : isRespond e = true -> isEncodeEvent e = false.
Proof. destruct e; simpl; congruence. Qed.

Lemma respond_not_call e : isRespond e = true -> isCall e = false.
Proof. destruct e; simpl; congruence. Qed.

Lemma upToCall_respond ups r pool json b m :
  filter isRespond (upToCall ups r pool json b m) = [].
Proof. filt. Qed.

(** C3, amended: when the handler returns, as a second result of a type that
    has a nil, an error that is not nil, the returned message is not
    encoded and the status is the result of the error's StatusCode() if it
    has that method and 500 otherwise.  The response carries that status
    when it is one that WriteHeader accepts, 100 to 999.  Any other status
    makes WriteHeader panic after the recovering closure has ended: the
    panic leaves ServeHTTP, no status line and no body are sent and the end
    callback is not called. *)
Theorem handler_error_status ups r pool fs json b m x e :
  decodesTo ups r pool json b m ->
  handler ups (buildArgs ups r m) = Ret2 x (Some e) ->
  let res := serve ups r pool fs in
  let status :=
    match asStatusCoder e with
    | Some c => c
    | None => StatusInternalServerError
    end in
  statusCode (snd res) = status /\
  count isEncodeEvent (trace (snd res)) = 0%nat /\
  (asStatusCoder e = None ->
   fst res = Normal tt /\ Code (w (snd res)) = Some StatusInternalServerError) /\
  (validStatus status = true ->
   fst res = Normal tt /\ Code (w (snd res)) = Some status) /\
  (validStatus status = false ->
   fst res = Panic (invalidWriteHeader status) /\
   Code (w (snd res)) = None /\
   RespBody (w (snd res)) = [] /\
   filter isRespond (trace (snd res)) = rev (refusedReply ups status)).
Proof.
  intros H Hh. cbn zeta.
  pose proof (serve_frame ups r pool fs) as F. cbn zeta in F.
  destruct F as (F1 & F2 & _ & _ & F5 & _).
  unfold count. rewrite (trace_dispatched isEncodeEvent) by apply respond_not_encode.
  rewrite serve_split in *.
  rewrite (dispatched_error ups r pool fs json b m x e H Hh) in *.
  unfold documentedStatus, replyOutcome in *.
  cbn [statusCode w Code NewRecorder] in *.
  splits; auto.
  - unfold trace. rewrite filter_rev. cbn [events filter isEncodeEvent].
    rewrite upToCall_encode. reflexivity.
  - intros He. rewrite He in *. split; assumption.
  - intros Hv. rewrite Hv in *. split; assumption.
  - intros Hv. rewrite Hv in F1, F5. splits; auto.
    + rewrite respond_refused by (try exact Hv; reflexivity). reflexivity.
    + rewrite respond_refused by (try exact Hv; reflexivity).
      unfold trace. cbn [snd events]. rewrite filter_rev, filter_app.
      cbn [filter isRespond]. rewrite upToCall_respond, app_nil_r.
      f_equal. unfold refusedReply.
      destruct (ErrorResponse (config ups)); reflexivity.
Qed.


(** ** Replies with status 200 *)

(** the final trace of a reply with status 200, filtered *)
Lemma trace_ok (f : Event -> bool) ups r s s1 :
  (forall e, isWriting e = true -> f e = false) ->
  f (EvLogEndRequest (Method r) (URL r) StatusOK) = false ->
  grows isWriting (EvWrite (resp s) :: events s) (events s1) ->
  filter f
    (trace (logged (note (LogEndRequest (config ups))
                      (EvLogEndRequest (Method r) (URL r) StatusOK)) s1))
  = filter f (trace s).
Proof.
  intros Hw He Hg. unfold trace, logged. cbn [events].
  rewrite rev_app_distr, filter_app, rev_note, filter_note, He, app_nil_r.
  rewrite (filter_grows f isWriting _ _ Hw Hg).
  cbn [rev]. rewrite filter_app. cbn [filter].
  rewrite (Hw (EvWrite (resp s)) eq_refl). now rewrite app_nil_r.
Qed.

Lemma trace_ok_write ups r s s1 :
  grows isWriting (EvWrite (resp s) :: events s) (events s1) ->
  In (EvWrite (resp s))
    (trace (logged (note (LogEndRequest (config ups))
                      (EvLogEndRequest (Method r) (URL r) StatusOK)) s1)).
Proof.
  intros (es & He & _). unfold trace, logged. cbn [events].
  apply in_rev. rewrite rev_involutive. rewrite He.
  apply in_or_app. right. apply in_or_app. right. left. reflexivity.
Qed.

Lemma writing_not_errorResponse e :
  isWriting e = true -> isErrorResponse e = false.
Proof. destruct e; simpl; congruence. Qed.

Lemma writing_not_encode e : isWriting e = true -> isEncodeEvent e = false.
Proof. destruct e; simpl; congruence. Qed.

Lemma writing_not_writeHeader e :
  isWriting e = true -> isWriteHeader e = false.
Proof. destruct e; simpl; congruence. Qed.

(** X21: when the handler returns, as a second result of a type that has a
    nil, an error whose StatusCode() is 200, the response has status 200 and
    an empty body and is written by the write loop of the success path: the
    error-body formatter is not called, no status line is written by an
    error reply, nothing is encoded and no header is set. *)
Theorem error_with_status_ok ups r pool fs json b m x e :
  decodesTo ups r pool json b m ->
  handler ups (buildArgs ups r m) = Ret2 x (Some e) ->
  asStatusCoder e = Some StatusOK ->
  let res := serve ups r pool fs in
  fst res = Normal tt /\
  statusCode (snd res) = StatusOK /\
  Code (w (snd res)) = Some StatusOK /\
  RespBody (w (snd res)) = [] /\
  RespHeader (w (snd res)) = [] /\
  In (EvWrite []) (trace (snd res)) /\
  count isWriteHeader (trace (snd res)) = 0%nat /\
  count isErrorResponse (trace (snd res)) = 0%nat /\
  count isEncodeEvent (trace (snd res)) = 0%nat.
Proof.
  intros H Hh Hc. cbn zeta. rewrite serve_split.
  pose proof (dispatched_error ups r pool fs json b m x e H Hh) as D.
  unfold documentedStatus in D. rewrite Hc in D.
  destruct (respond_ok ups r (dispatched ups r pool fs))
    as (s1 & -> & H2 & H4 & H5 & H6 & H8 & H7 & (q & q' & Hq & Hb) & _).
  { rewrite D. reflexivity. }
  unfold count.
  rewrite !(trace_ok _ ups r (dispatched ups r pool fs) s1) by
    first [ reflexivity | exact H7 | exact writing_not_writeHeader
          | exact writing_not_errorResponse | exact writing_not_encode ].
  pose proof (trace_ok_write ups r _ s1 H7) as HW.
  cbn [fst snd logged statusCode w]. rewrite H2, H6, H8, Hb.
  rewrite D in *. cbn [statusCode resp w events RespHeader Code RespBody
                        NewRecorder sendHeader] in *.
  symmetry in Hq. apply app_eq_nil in Hq. destruct Hq as [-> _].
  unfold trace. rewrite !filter_rev. cbn [events filter isWriteHeader
    isErrorResponse isEncodeEvent].
  splits; auto; filt.
Qed.


(** ** The pool decides nothing but the object handed out *)

Lemma writeLoop_withPool ups fuel : forall q s p,
  writeLoop ups fuel q (withPool p s)
  = (fst (writeLoop ups fuel q s), withPool p (snd (writeLoop ups fuel q s))).
Proof.
  induction fuel as [|fuel IH]; intros q s p.
  - reflexivity.
  - destruct s as [sc rs a pl [hd cd bd fs] es].
    destruct fs as [|[n e] fs].
    + cbn. rewrite Nat.leb_refl. reflexivity.
    + destruct e as [err|].
      * cbn. unfold logError, bind. cbn. rewrite !hook_run. reflexivity.
      * cbn. unfold bind. cbn.
        destruct (length q <=? Nat.min n (length q))%nat; [reflexivity|].
        match goal with
        | |- writeLoop ups fuel ?q' _ = (fst (writeLoop ups fuel ?q' ?s'), _) =>
            exact (IH q' s' p)
        end.
Qed.

Lemma respond_withPool ups r s p :
  respond ups r (withPool p s)
  = (fst (respond ups r s), withPool p (snd (respond ups r s))).
Proof.
  destruct (Z.eq_dec (statusCode s) StatusOK) as [Hsc|Hsc].
  - unfold respond, logEndRequest, bind. cbn [getState].
    cbn [withPool statusCode w resp]. rewrite Hsc. cbn [Z.eqb StatusOK Pos.eqb].
    rewrite writeLoop_withPool.
    destruct (writeLoop ups (S (length (faults (w s)))) (resp s) s)
      as [[[]| |v] s1]; cbn [fst snd]; rewrite ?hook_run; reflexivity.
  - apply Z.eqb_neq in Hsc.
    unfold respond, logEndRequest, bind. cbn [getState].
    cbn [withPool statusCode]. rewrite Hsc, !errorResponse_run.
    unfold http_Error, w_Header_Set, w_WriteHeader, w_Write, bind.
    destruct s as [sc rs a pl [hd cd bd fs] es]. cbn.
    destruct cd; cbn; [|destruct (validStatus sc); cbn];
      try (destruct fs as [|[n e] fs]; cbn; rewrite ?hook_run);
      reflexivity.
Qed.


Lemma response_erase s : response (withPool [] s) = response s.
Proof. reflexivity. Qed.

Lemma respond_erase ups r s s' :
  withPool [] s = withPool [] s' ->
  response (snd (respond ups r s)) = response (snd (respond ups r s')).
Proof.
  intros H.
  rewrite <- (response_erase (snd (respond ups r s))).
  rewrite <- (response_erase (snd (respond ups r s'))).
  pose proof (respond_withPool ups r s []) as E.
  pose proof (respond_withPool ups r s' []) as E'.
  rewrite H in E. rewrite E' in E.
  apply (f_equal snd) in E. cbn [snd] in E. now rewrite E.
Qed.

(** the rest of the free list does not matter *)
Lemma dispatched_pool_tail ups r m0 t fs :
  withPool [] (dispatched ups r (m0 :: t) fs)
  = withPool [] (dispatched ups r [m0] fs).
Proof. unfold withPool. unfold_all. explore; reflexivity. Qed.

(** nor does it matter whether the object is new *)
Lemma dispatched_pool_new ups r m0 fs :
  poolNew ups = Some m0 ->
  withPool [] (dispatched ups r [] fs)
  = withPool [] (dispatched ups r [m0] fs).
Proof.
  intros H. unfold withPool. unfold_all. run.
  rewrite H. explore; reflexivity.
Qed.

Lemma dispatched_pool ups r p1 p2 fs :
  acquired ups p1 = acquired ups p2 ->
  withPool [] (dispatched ups r p1 fs) = withPool [] (dispatched ups r p2 fs).
Proof.
  intros H.
  destruct p1 as [|x1 t1], p2 as [|x2 t2]; cbn [acquired] in H.
  - reflexivity.
  - rewrite (dispatched_pool_new ups r x2 fs H).
    symmetry. apply dispatched_pool_tail.
  - symmetry in H. rewrite (dispatched_pool_new ups r x1 fs H).
    apply dispatched_pool_tail.
  - injection H as ->.
    rewrite (dispatched_pool_tail ups r x2 t1 fs).
    symmetry. apply dispatched_pool_tail.
Qed.

(** Two free lists that hand out the same object give the same response. *)
Lemma serve_pool ups r p1 p2 fs :
  acquired ups p1 = acquired ups p2 ->
  response (snd (serve ups r p1 fs)) = response (snd (serve ups r p2 fs)).
Proof.
  intros H. rewrite !serve_split.
  apply respond_erase. apply dispatched_pool. exact H.
Qed.


Lemma respond_not_logPanic e : isRespond e = true -> isLogPanic e = false.
Proof. destruct e; simpl; congruence. Qed.

(** C4: when the call of the handler panics, ServeHTTP still returns, the
    panic callback (if any) is called once with the panic value, and the
    response status is 500.  The pool object is back in the pool, reset, so
    a later request ends as its own status has it (it returns, unless that
    status is one WriteHeader refuses); where resetting gives the object the
    pool hands out, a later request gets the response it would have got had
    the panicking request never been made. *)
Theorem handler_panic_contained ups r pool fs json b m v :
  decodesTo ups r pool json b m ->
  handler ups (buildArgs ups r m) = Panics v ->
  let res := serve ups r pool fs in
  fst res = Normal tt /\
  statusCode (snd res) = StatusInternalServerError /\
  Code (w (snd res)) = Some StatusInternalServerError /\
  filter isLogPanic (trace (snd res))
  = note (LogPanic (config ups)) (EvLogPanic v) /\
  arg (snd res) = None /\
  requestObjectPool (snd res) = Reset m :: tl pool /\
  (forall r2 fs2,
      fst (serve ups r2 (requestObjectPool (snd res)) fs2)
      = replyOutcome
          (statusCode (snd (serve ups r2 (requestObjectPool (snd res)) fs2)))) /\
  (acquired ups pool = Some (Reset m) ->
   forall r2 fs2,
     response (snd (serve ups r2 (requestObjectPool (snd res)) fs2))
     = response (snd (serve ups r2 pool fs2))).
Proof.
  intros H Hh. cbn zeta.
  pose proof (serve_frame ups r pool fs) as F. cbn zeta in F.
  destruct F as (F1 & F2 & F3 & F4 & F5 & _).
  rewrite (trace_dispatched isLogPanic) by apply respond_not_logPanic.
  rewrite F4.
  rewrite (dispatched_panic ups r pool fs json b m v H Hh) in *.
  cbn [statusCode w Code NewRecorder sendHeader arg requestObjectPool] in *.
  splits; auto.
  - unfold trace. rewrite filter_rev. cbn [events].
    rewrite filter_app, filter_note. cbn [isLogPanic filter].
    assert (filter isLogPanic (upToCall ups r pool json b m) = []) as ->
        by filt.
    rewrite app_nil_r. apply rev_note.
  - intros r2 fs2.
    destruct (serve_frame ups r2 (Reset m :: tl pool) fs2) as (G1 & G2 & _).
    cbn zeta in G1, G2. rewrite G2. exact G1.
  - intros HR r2 fs2. apply serve_pool. cbn [acquired]. now rewrite HR.
Qed.


(** ** Success and error replies *)

(** The closure sets a header only where it leaves the status at 200. *)
Lemma dispatched_fresh ups r pool fs :
  statusCode (dispatched ups r pool fs) <> StatusOK ->
  w (dispatched ups r pool fs) = NewRecorder fs.
Proof.
  on_dispatched ups r pool fs.
  unfold_all. explore; (eexists; split; [reflexivity|]);
    cbn [statusCode w]; intros H; try reflexivity;
    exfalso; apply H; reflexivity.
Qed.

(** C8, amended: a request whose handler returned a message that the codec
    encoded is answered with status 200 and the Content-Type of the
    negotiated format, and its body is the encoding when no call of Write
    fails.  When the codec fails the status is 500.  With any status other
    than 200 the only Content-Type is the one of the plain-text error reply;
    when WriteHeader accepts the status (100 to 999) the body is the text of
    the error-body formatter (empty without one) followed by a line feed, as
    far as the first call of Write accepts it, and when WriteHeader refuses
    it neither status line nor body is sent. *)
Theorem response_of_success_and_error ups r pool fs :
  (forall json b m res enc,
      decodesTo ups r pool json b m ->
      returns ups r m res ->
      encodesTo ups json res enc ->
      let s := snd (serve ups r pool fs) in
      statusCode s = StatusOK /\
      Code (w s) = Some StatusOK /\
      RespHeader (w s) = [("Content-Type", mediaTypeOf json)] /\
      (noWriteError fs -> RespBody (w s) = enc)) /\
  (forall json b m res,
      decodesTo ups r pool json b m ->
      returns ups r m res ->
      encodeFails ups json res ->
      statusCode (snd (serve ups r pool fs)) = StatusInternalServerError) /\
  (let s := snd (serve ups r pool fs) in
   statusCode s <> StatusOK ->
   RespHeader (w s)
   = [("X-Content-Type-Options", "nosniff");
      ("Content-Type", "text/plain; charset=utf-8")] /\
   (validStatus (statusCode s) = true ->
    Code (w s) = Some (statusCode s) /\
    RespBody (w s)
    = accepted fs
        (list_byte_of_string (errorText ups r (statusCode s)) ++ newline)) /\
   (validStatus (statusCode s) = false ->
    Code (w s) = None /\ RespBody (w s) = [])).
Proof.
  splits.
  - intros json b m res enc H Hr He. cbn zeta. rewrite serve_split.
    pose proof (dispatched_encoded ups r pool fs json b m res enc H Hr He) as D.
    destruct (respond_ok ups r (dispatched ups r pool fs))
      as (s1 & -> & H2 & H4 & H5 & H6 & H8 & H7 & _ & Hb).
    { rewrite D. reflexivity. }
    cbn [fst snd logged statusCode w]. rewrite H2, H6, H8.
    rewrite D in *. cbn [statusCode resp w RespHeader Code RespBody faults
                          sendHeader] in *.
    splits; auto.
  - intros json b m res H Hr He.
    pose proof (serve_frame ups r pool fs) as F. cbn zeta in F.
    destruct F as (_ & -> & _).
    apply (dispatched_encode_failed ups r pool fs json b m res H Hr He).
  - cbn zeta. rewrite serve_split.
    pose proof (respond_frame ups r (dispatched ups r pool fs)
                  (dispatched_unsent ups r pool fs)) as F.
    cbn zeta in F. destruct F as (_ & F2 & _).
    rewrite F2. intros Hsc.
    pose proof (dispatched_fresh ups r pool fs Hsc) as Hw.
    destruct (validStatus (statusCode (dispatched ups r pool fs))) eqn:Hv.
    + rewrite (respond_error ups r _ Hsc Hv).
      cbn [snd w Code RespHeader RespBody]. rewrite Hw.
      cbn [NewRecorder Code RespHeader RespBody faults sendHeader].
      splits; [reflexivity|intros _; split; reflexivity
              |intros HH; discriminate HH].
    + rewrite (respond_refused ups r _ Hv (dispatched_unsent ups r pool fs)).
      cbn [snd w Code RespHeader RespBody]. rewrite Hw.
      cbn [NewRecorder Code RespHeader RespBody faults].
      splits; [reflexivity|intros HH; discriminate HH
              |intros _; split; reflexivity].
Qed.


(** ** The arguments of the call *)

Ltac read_filter :=
  unfold trace; rewrite ?filter_rev; cbn [events];
  repeat first
    [ rewrite filter_app
    | rewrite filter_note
    | rewrite app_nil_r
    | rewrite rev_app_distr
    | rewrite rev_note
    | progress cbn -[note] ].

(** On every path the handler is called at most once, and with the
    arguments its kind asks for. *)
Lemma calls_of_dispatched ups r pool fs :
  filter isCall (trace (dispatched ups r pool fs)) = []
  \/ exists m,
      filter isCall (trace (dispatched ups r pool fs))
      = [EvCall (buildArgs ups r m)].
Proof.
  unfold_all. explore; read_filter;
    first [ left; reflexivity | right; eexists; reflexivity ].
Qed.

(** A request that decodes to [m] has the handler called on [m]. *)
Lemma call_of_decoded ups r pool fs json b m :
  decodesTo ups r pool json b m ->
  filter isCall (trace (dispatched ups r pool fs))
  = [EvCall (buildArgs ups r m)].
Proof.
  intros H. to_call H pool json; explore; read_filter; reflexivity.
Qed.

Lemma construction_rejects ins outs f param cfg :
  documentedVariant ins = None ->
  exists p, UPSWithParameterAndConfig (Func ins outs f) param cfg = inl p.
Proof.
  intros HV. unfold UPSWithParameterAndConfig.
  destruct (checkOut outs); [eauto|].
  pose proof (checkIn_documented ins) as HI.
  destruct (checkIn ins) as [p|[[ht reqType] paramType]]; [eauto|].
  destruct (Implements_message reqType); simpl; [|eauto].
  destruct HI as [HI _]. congruence.
Qed.

(** ** The pool *)



(** ** Body read and negotiation *)

Lemma negotiate_switch cfg declared :
  documentedNegotiate cfg declared
  = match ParseMediaType declared with
    | inl _ => None
    | inr mt => option_map formatOf (switchContentType cfg mt)
    end.
Proof.
  unfold documentedNegotiate, switchContentType.
  destruct (ParseMediaType declared) as [e|mt]; [reflexivity|].
  destruct (String.eqb mt "application/json");
    [destruct (JSONMarshaler cfg); reflexivity|].
  destruct (String.eqb mt "application/octet-stream"),
    (String.eqb mt "application/x-protobuf"); reflexivity.
Qed.

Lemma respond_not_stage e : isRespond e = true -> isStage e = false.
Proof. destruct e; simpl; congruence. Qed.

Lemma respond_not_codec e : isRespond e = true -> isCodecEvent e = false.
Proof. destruct e; simpl; congruence. Qed.

Lemma respond_not_binary e : isRespond e = true -> isBinaryCodecEvent e = false.
Proof. destruct e; simpl; congruence. Qed.

Lemma respond_not_text e : isRespond e = true -> isTextCodecEvent e = false.
Proof. destruct e; simpl; congruence. Qed.

(** the body cannot be read *)
Lemma dispatched_unreadable ups r pool fs err :
  Method r = MethodPost ->
  Body r = inl err ->
  statusCode (dispatched ups r pool fs) = StatusInternalServerError /\
  filter isStage (trace (dispatched ups r pool fs)) = [EvReadBody].
Proof.
  intros HM HB. on_dispatched ups r pool fs.
  unfold_all. run. rewrite HM. run. rewrite HB. run.
  eexists. split; [reflexivity|]. split; [reflexivity|].
  read_filter. reflexivity.
Qed.

(** the media type is rejected *)
Lemma dispatched_rejected ups r pool fs b :
  Method r = MethodPost ->
  Body r = inr b ->
  documentedNegotiate (config ups) (Header_Get (ReqHeader r) "Content-Type")
  = None ->
  statusCode (dispatched ups r pool fs) = StatusUnsupportedMediaType /\
  requestObjectPool (dispatched ups r pool fs) = pool /\
  filter isStage (trace (dispatched ups r pool fs))
  = [EvReadBody;
     EvParseMediaType (Header_Get (ReqHeader r) "Content-Type")].
Proof.
  intros HM HB HN. rewrite negotiate_switch in HN.
  on_dispatched ups r pool fs.
  unfold_all. run. rewrite HM. run. rewrite HB. run.
  destruct (ParseMediaType (Header_Get (ReqHeader r) "Content-Type"))
    as [e|mt] eqn:HP; run.
  - eexists. split; [reflexivity|]. splits; try reflexivity.
    read_filter. reflexivity.
  - destruct (switchContentType (config ups) mt); [discriminate|]. run.
    eexists. split; [reflexivity|]. splits; try reflexivity.
    read_filter. reflexivity.
Qed.

(** the media type is accepted: only the codec of the chosen format is
    used, first to decode the body, and every stage after the negotiation
    comes after it in the trace *)
Lemma dispatched_accepted ups r pool fs b mt json :
  Method r = MethodPost ->
  Body r = inr b ->
  ParseMediaType (Header_Get (ReqHeader r) "Content-Type") = inr mt ->
  switchContentType (config ups) mt = Some json ->
  filter (if json then isBinaryCodecEvent else isTextCodecEvent)
    (trace (dispatched ups r pool fs)) = [] /\
  (forall m0, acquired ups pool = Some m0 ->
     exists rest,
       filter isCodecEvent (trace (dispatched ups r pool fs))
       = (if json then EvJSONUnmarshal b else EvProtoUnmarshal b) :: rest) /\
  (exists rest,
    filter isStage (trace (dispatched ups r pool fs))
    = EvReadBody
      :: EvParseMediaType (Header_Get (ReqHeader r) "Content-Type") :: rest) /\
  (forall m0, acquired ups pool = Some m0 ->
     exists m,
       filter isPool (trace (dispatched ups r pool fs))
       = [EvPoolGet m0; EvReset; EvPoolPut (Reset m)]
       /\ requestObjectPool (dispatched ups r pool fs) = Reset m :: tl pool).
Proof.
  intros HM HB HP HS. on_dispatched ups r pool fs.
  unfold_all. run. rewrite HM. run. rewrite HB. run. rewrite HP. run.
  rewrite HS. run.
  destruct json; explore; (eexists; split; [reflexivity|]);
    (splits;
     [ read_filter; reflexivity
     | intros x Hx; cbn [acquired] in Hx; try discriminate;
       read_filter; eexists; reflexivity
     | read_filter; eexists; reflexivity
     | intros x Hx; cbn [acquired] in Hx; try discriminate;
       injection Hx as <-; read_filter; eexists; split; reflexivity ]).
Qed.


(** C6, amended: the body of a POST request is read before its media type
    is looked at.  A body that cannot be read gives status 500 whatever the
    media type, which is then never parsed; a readable body with a media
    type that is rejected gives status 415 with the pool untouched and
    nothing decoded; and with an accepted media type the pool object is
    taken and the body decoded only after the negotiation. *)
Theorem body_read_then_negotiation ups r pool fs :
  Method r = MethodPost ->
  let s := snd (serve ups r pool fs) in
  let declared := Header_Get (ReqHeader r) "Content-Type" in
  (forall err,
      Body r = inl err ->
      statusCode s = StatusInternalServerError /\
      filter isStage (trace s) = [EvReadBody]) /\
  (forall b,
      Body r = inr b ->
      documentedNegotiate (config ups) declared = None ->
      statusCode s = StatusUnsupportedMediaType /\
      requestObjectPool s = pool /\
      filter isStage (trace s) = [EvReadBody; EvParseMediaType declared]) /\
  (forall b f,
      Body r = inr b ->
      documentedNegotiate (config ups) declared = Some f ->
      exists rest,
        filter isStage (trace s)
        = EvReadBody :: EvParseMediaType declared :: rest).
Proof.
  intros HM. cbn zeta.
  pose proof (serve_frame ups r pool fs) as F. cbn zeta in F.
  destruct F as (_ & -> & _ & -> & _).
  rewrite (trace_dispatched isStage) by apply respond_not_stage.
  splits.
  - intros err HB. apply (dispatched_unreadable ups r pool fs err HM HB).
  - intros b HB HN. apply (dispatched_rejected ups r pool fs b HM HB HN).
  - intros b f HB HN. rewrite negotiate_switch in HN.
    destruct (ParseMediaType (Header_Get (ReqHeader r) "Content-Type"))
      as [e|mt] eqn:HP; [discriminate|].
    destruct (switchContentType (config ups) mt) as [json|] eqn:HS;
      [|discriminate].
    destruct (dispatched_accepted ups r pool fs b mt json HM HB HP HS)
      as (_ & _ & A3 & _).
    exact A3.
Qed.

Lemma switch_json cfg mt :
  switchContentType cfg mt = Some true -> exists mr, JSONMarshaler cfg = Some mr.
Proof.
  unfold switchContentType.
  destruct (String.eqb mt "application/json").
  - destruct (JSONMarshaler cfg) as [mr|]; [eauto|discriminate].
  - destruct (String.eqb mt "application/octet-stream"
              || String.eqb mt "application/x-protobuf"); discriminate.
Qed.

Ltac with_marshaler :=
  try match goal with
      | HS : switchContentType _ _ = Some true |- _ =>
          let mr := fresh "mr" in
          let Hmr := fresh "Hmr" in
          destruct (switch_json _ _ HS) as [mr Hmr]; rewrite Hmr
      end.

(** the codec events of a request whose handler returned a message *)
Lemma codec_of_returned ups r pool fs json b m res :
  decodesTo ups r pool json b m ->
  returns ups r m res ->
  filter isCodecEvent (trace (dispatched ups r pool fs))
  = if json then [EvJSONUnmarshal b; EvMarshalToString res]
    else [EvProtoUnmarshal b; EvProtoMarshal res].
Proof.
  intros H Hr. on_dispatched ups r pool fs.
  destruct Hr as [Hr|Hr];
    (to_call H pool json; rewrite Hr; run; with_marshaler; explore;
     (eexists; split; [reflexivity|]); read_filter; reflexivity).
Qed.

Lemma encode_of_codec t :
  filter isEncodeEvent t = filter isEncodeEvent (filter isCodecEvent t).
Proof.
  induction t as [|e t IH]; [reflexivity|].
  simpl. destruct e; simpl; try rewrite <- IH; reflexivity.
Qed.

(** C1: a handler accepted at construction is of the one calling convention
    that its number of parameters and its first parameter determine, and
    every other parameter shape makes construction panic.  At dispatch the
    handler is called at most once, with the context or the request first
    where the convention has one, then the bound parameter where it has one,
    then the decoded message; a request that decodes is given to it so, and
    what the function does on exactly these arguments is what the reply
    shows: its panic value reaches the panic callback, the status of its
    error becomes the status, its message is what the encoder is given. *)
Theorem binding_and_argument_order ins outs f param cfg :
  (documentedVariant ins = None ->
   exists p, UPSWithParameterAndConfig (Func ins outs f) param cfg = inl p) /\
  (forall ups,
      UPSWithParameterAndConfig (Func ins outs f) param cfg = inr ups ->
      documentedVariant ins = Some (handlerKind ups) /\
      ((forall m, ins = [m] -> handlerKind ups = messageHandlerType) /\
       (forall m, ins = [contextType; m] ->
                  handlerKind ups = contextHandlerType) /\
       (forall m, ins = [requestType; m] ->
                  handlerKind ups = requestHandlerType) /\
       (forall p m, ins = [p; m] -> p <> contextType -> p <> requestType ->
                    handlerKind ups = paramHandlerType) /\
       (forall p m, ins = [contextType; p; m] ->
                    handlerKind ups = contextParamHandlerType) /\
       (forall p m, ins = [requestType; p; m] ->
                    handlerKind ups = requestParamHandlerType)) /\
      handler ups = f /\
      forall r pool fs,
        let t := trace (snd (serve ups r pool fs)) in
        (filter isCall t = []
         \/ exists m,
             filter isCall t
             = [EvCall (documentedArgs (handlerKind ups) r param m)]) /\
        (forall json b m,
            decodesTo ups r pool json b m ->
            filter isCall t
            = [EvCall (documentedArgs (handlerKind ups) r param m)]) /\
        (forall json b m,
            decodesTo ups r pool json b m ->
            let args := documentedArgs (handlerKind ups) r param m in
            (forall v,
                f args = Panics v ->
                filter isLogPanic t = note (LogPanic cfg) (EvLogPanic v)) /\
            (forall x e,
                f args = Ret2 x (Some e) ->
                statusCode (snd (serve ups r pool fs)) = documentedStatus e) /\
            (forall res,
                f args = Ret1 (Some res) \/ f args = Ret2 (Some res) None ->
                filter isEncodeEvent t
                = [if json then EvMarshalToString res
                   else EvProtoMarshal res]))).
Proof.
  split; [apply construction_rejects|].
  intros ups Hu. apply construction_ok in Hu.
  destruct Hu as (_ & HV & _ & Hc & Hf & Hp).
  split; [exact HV|].
  split; [exact (documentedVariant_table ins (handlerKind ups) HV)|].
  split; [exact Hf|].
  intros r pool fs. cbn zeta.
  rewrite (trace_dispatched isCall) by apply respond_not_call.
  subst param cfg. splits.
  - destruct (calls_of_dispatched ups r pool fs) as [E|[m E]].
    + left. exact E.
    + right. exists m. rewrite E, buildArgs_documented. reflexivity.
  - intros json b m H.
    rewrite (call_of_decoded ups r pool fs json b m H), buildArgs_documented.
    reflexivity.
  - intros json b m H. splits.
    + intros v Hv. rewrite <- buildArgs_documented, <- Hf in Hv.
      rewrite (trace_dispatched isLogPanic) by apply respond_not_logPanic.
      rewrite (dispatched_panic ups r pool fs json b m v H Hv).
      unfold trace. rewrite filter_rev. cbn [events].
      rewrite filter_app, filter_note. cbn [isLogPanic filter].
      assert (filter isLogPanic (upToCall ups r pool json b m) = []) as ->
          by filt.
      rewrite app_nil_r. apply rev_note.
    + intros x e He. rewrite <- buildArgs_documented, <- Hf in He.
      destruct (serve_frame ups r pool fs) as (_ & -> & _).
      rewrite (dispatched_error ups r pool fs json b m x e H He). reflexivity.
    + intros res Hr. rewrite <- buildArgs_documented, <- Hf in Hr.
      rewrite (trace_dispatched isEncodeEvent) by apply respond_not_encode.
      rewrite encode_of_codec.
      rewrite (codec_of_returned ups r pool fs json b m res H Hr).
      destruct json; reflexivity.
Qed.


(** C5, amended: for a POST request whose body has been read, a declared
    media type that does not parse (an absent one included, the parser
    rejecting the empty string), or that is none of the supported ones, or
    that is application/json without a JSON marshaler, gives status 415;
    application/json with a marshaler is decoded and encoded as JSON,
    application/octet-stream and application/x-protobuf as binary. *)
Theorem negotiation_of_media_type ups r pool fs b :
  Method r = MethodPost ->
  Body r = inr b ->
  let s := snd (serve ups r pool fs) in
  let declared := Header_Get (ReqHeader r) "Content-Type" in
  let rejected :=
    statusCode s = StatusUnsupportedMediaType /\
    Code (w s) = Some StatusUnsupportedMediaType /\
    count isCodecEvent (trace s) = 0%nat in
  let chosen (json : bool) :=
    count (if json then isBinaryCodecEvent else isTextCodecEvent) (trace s)
    = 0%nat /\
    (forall m0, acquired ups pool = Some m0 ->
       exists rest,
         filter isCodecEvent (trace s)
         = (if json then EvJSONUnmarshal b else EvProtoUnmarshal b) :: rest) /\
    (forall m res,
        decodesTo ups r pool json b m ->
        returns ups r m res ->
        filter isCodecEvent (trace s)
        = if json then [EvJSONUnmarshal b; EvMarshalToString res]
          else [EvProtoUnmarshal b; EvProtoMarshal res]) in
  (forall e, ParseMediaType declared = inl e -> rejected) /\
  (forall e, declared = "" -> ParseMediaType "" = inl e -> rejected) /\
  (forall mt,
      ParseMediaType declared = inr mt ->
      mt <> "application/json" ->
      mt <> "application/octet-stream" ->
      mt <> "application/x-protobuf" ->
      rejected) /\
  (ParseMediaType declared = inr "application/json" ->
   JSONMarshaler (config ups) = None ->
   rejected) /\
  (forall mr,
      ParseMediaType declared = inr "application/json" ->
      JSONMarshaler (config ups) = Some mr ->
      chosen true) /\
  (forall mt,
      ParseMediaType declared = inr mt ->
      mt = "application/octet-stream" \/ mt = "application/x-protobuf" ->
      chosen false).
Proof.
  intros HM HB. cbn zeta.
  pose proof (serve_frame ups r pool fs) as F. cbn zeta in F.
  destruct F as (_ & F2 & _ & _ & F5 & _).
  unfold count.
  rewrite (trace_dispatched isCodecEvent) by apply respond_not_codec.
  rewrite F2, F5.
  assert (documentedNegotiate (config ups)
            (Header_Get (ReqHeader r) "Content-Type") = None ->
          statusCode (dispatched ups r pool fs) = StatusUnsupportedMediaType /\
          (if validStatus (statusCode (dispatched ups r pool fs))
           then Some (statusCode (dispatched ups r pool fs)) else None)
          = Some StatusUnsupportedMediaType /\
          length (filter isCodecEvent (trace (dispatched ups r pool fs)))
          = 0%nat) as Rej.
  { intros HN.
    destruct (dispatched_rejected ups r pool fs b HM HB HN) as (S1 & _ & S3).
    rewrite S1. splits; try reflexivity.
    assert (forall t, filter isCodecEvent t
                      = filter isCodecEvent (filter isStage t)) as HF.
    { induction t as [|e t IH]; [reflexivity|].
      simpl. destruct e; simpl; try rewrite <- IH; reflexivity. }
    rewrite HF, S3. reflexivity. }
  assert (forall mt json,
            ParseMediaType (Header_Get (ReqHeader r) "Content-Type") = inr mt ->
            switchContentType (config ups) mt = Some json ->
            length (filter (if json then isBinaryCodecEvent
                            else isTextCodecEvent)
                      (trace (snd (serve ups r pool fs)))) = 0%nat /\
            (forall m0, acquired ups pool = Some m0 ->
               exists rest,
                 filter isCodecEvent (trace (dispatched ups r pool fs))
                 = (if json then EvJSONUnmarshal b else EvProtoUnmarshal b)
                   :: rest) /\
            (forall m res,
                decodesTo ups r pool json b m ->
                returns ups r m res ->
                filter isCodecEvent (trace (dispatched ups r pool fs))
                = if json then [EvJSONUnmarshal b; EvMarshalToString res]
                  else [EvProtoUnmarshal b; EvProtoMarshal res])) as Acc.
  { intros mt json HP HS.
    destruct (dispatched_accepted ups r pool fs b mt json HM HB HP HS)
      as (A1 & A2 & _ & _).
    splits.
    - destruct json;
        [rewrite (trace_dispatched isBinaryCodecEvent)
           by apply respond_not_binary
        |rewrite (trace_dispatched isTextCodecEvent)
           by apply respond_not_text];
        cbn iota in A1; rewrite A1; reflexivity.
    - exact A2.
    - intros m res H Hr. apply (codec_of_returned ups r pool fs json b m res H Hr). }
  splits.
  - intros e HP. apply Rej. rewrite negotiate_switch, HP. reflexivity.
  - intros e HH HP. apply Rej. rewrite negotiate_switch, HH, HP. reflexivity.
  - intros mt HP N1 N2 N3. apply Rej. rewrite negotiate_switch, HP.
    unfold switchContentType.
    apply String.eqb_neq in N1, N2, N3. rewrite N1, N2, N3. reflexivity.
  - intros HP HJ. apply Rej. rewrite negotiate_switch, HP.
    unfold switchContentType. cbn. rewrite HJ. reflexivity.
  - intros mr HP HJ. apply (Acc "application/json" true HP).
    unfold switchContentType. cbn. rewrite HJ. reflexivity.
  - intros mt HP [->| ->]; apply (Acc _ false HP); reflexivity.
Qed.



(** * Beyond the claims *)


(** ** Constructors without bound parameter *)

Lemma checkIn_parameterless ins ht reqType paramType :
  checkIn ins = inr (ht, reqType, paramType) ->
  parameterless ht = match paramType with None => true | Some _ => false end.
Proof.
  destruct ins as [|i0 [|i1 [|i2 [|i3 ins]]]]; simpl; try discriminate.
  - intros H. inversion H. reflexivity.
  - destruct (rtype_eqb i0 contextType), (rtype_eqb i0 requestType);
      intros H; inversion H; reflexivity.
  - destruct (rtype_eqb i0 contextType), (rtype_eqb i0 requestType);
      intros H; inversion H; reflexivity.
Qed.

(** X1: UPSWithConfig, and so UPS, which is UPSWithConfig with the default
    configuration, only accepts the three conventions without bound
    parameter; a handler of a convention with one, valid together with some
    parameter, makes them panic with a nil dereference. *)
Theorem no_parameter_no_bound_convention h cfg :
  (forall ups, UPSWithConfig h cfg = inr ups ->
     parameterless (handlerKind ups) = true /\ parameter ups = None) /\
  (forall ins outs f ups param,
     h = Func ins outs f ->
     UPSWithParameterAndConfig h param cfg = inr ups ->
     parameterless (handlerKind ups) = false ->
     UPSWithConfig h cfg = inl nilDeref).
Proof.
  unfold UPSWithConfig, UPSWithParameterAndConfig. split.
  - intros ups. destruct h as [| |ins outs f]; try discriminate.
    destruct (checkOut outs); [discriminate|].
    destruct (checkIn ins) as [p|[[ht reqType] paramType]] eqn:HI;
      [discriminate|].
    apply checkIn_parameterless in HI.
    destruct (Implements_message reqType); simpl; [|discriminate].
    destruct paramType; simpl; [discriminate|].
    intros H. inversion H. simpl. auto.
  - intros ins outs f ups param -> .
    destruct (checkOut outs); [discriminate|].
    destruct (checkIn ins) as [p|[[ht reqType] paramType]] eqn:HI;
      [discriminate|].
    apply checkIn_parameterless in HI.
    destruct (Implements_message reqType); simpl; [|discriminate].
    destruct paramType; simpl.
    + reflexivity.
    + intros H. inversion H. simpl. congruence.
Qed.

(** ** A parameter nobody asked for *)

Lemma writeLoop_config ups1 ups2 :
  config ups1 = config ups2 ->
  forall fuel p s, writeLoop ups1 fuel p s = writeLoop ups2 fuel p s.
Proof.
  intros HC. induction fuel as [|fuel IH]; intros p s; [reflexivity|].
  cbn [writeLoop]. unfold bind.
  destruct (w_Write p s) as [[[n e]| |v] s1]; try reflexivity.
  cbn [snd fst]. destruct e as [err|].
  - unfold logError. rewrite HC. reflexivity.
  - destruct (length p <=? n)%nat; [reflexivity|]. apply IH.
Qed.

Lemma respond_config ups1 ups2 r s :
  config ups1 = config ups2 ->
  respond ups1 r s = respond ups2 r s.
Proof.
  intros HC. unfold respond, logEndRequest, errorResponse, bind.
  cbn [getState]. rewrite HC.
  destruct (statusCode s =? StatusOK); [|reflexivity].
  rewrite (writeLoop_config ups1 ups2 HC). reflexivity.
Qed.

Lemma closure_withParameter ups p r s :
  parameterless (handlerKind ups) = true ->
  closure (withParameter p ups) r s = closure ups r s.
Proof.
  destruct ups as [c k h q n]. destruct k; try discriminate; intros _;
    reflexivity.
Qed.

Lemma bind_ext {A B : Type} (c1 c2 : M A) (k1 k2 : A -> M B) s :
  (forall s', c1 s' = c2 s') ->
  (forall a s', k1 a s' = k2 a s') ->
  bind c1 k1 s = bind c2 k2 s.
Proof.
  intros Hc Hk. unfold bind. rewrite Hc.
  destruct (c2 s) as [[a| |v] s1]; [apply Hk|reflexivity|reflexivity].
Qed.

Lemma serve_withParameter ups p r pool fs :
  parameterless (handlerKind ups) = true ->
  serve (withParameter p ups) r pool fs = serve ups r pool fs.
Proof.
  intros HK. unfold serve, ServeHTTP.
  apply bind_ext; [reflexivity|intros _ s1].
  apply bind_ext; [reflexivity|intros _ s2].
  apply bind_ext.
  - intros s3. unfold recovering.
    rewrite (closure_withParameter ups p r s3 HK). reflexivity.
  - intros _ s3. apply respond_config. reflexivity.
Qed.

(** X2: a handler of a convention without bound parameter is accepted with
    any parameter, nil or not, of any type; the parameter is stored and never
    looked at, so every request is served as without it. *)
Theorem unused_parameter_is_ignored ins outs f param cfg ups :
  UPSWithParameterAndConfig (Func ins outs f) param cfg = inr ups ->
  parameterless (handlerKind ups) = true ->
  forall param',
    UPSWithParameterAndConfig (Func ins outs f) param' cfg
    = inr (withParameter param' ups)
    /\ forall r pool fs,
         serve (withParameter param' ups) r pool fs = serve ups r pool fs.
Proof.
  intros H HK param'. split; [|intros; now apply serve_withParameter].
  revert H. unfold UPSWithParameterAndConfig.
  destruct (checkOut outs); [discriminate|].
  destruct (checkIn ins) as [p|[[ht reqType] paramType]] eqn:HI;
    [discriminate|].
  apply checkIn_parameterless in HI.
  destruct (Implements_message reqType); simpl; [|discriminate].
  destruct paramType as [pt|]; simpl.
  - destruct param as [v|]; [|discriminate].
    destruct (AssignableTo (TypeOf v) pt); simpl; [|discriminate].
    intros H. inversion H; subst. simpl in HK. congruence.
  - intros H. inversion H; subst. reflexivity.
Qed.

(** ** What the closure and the reply leave in the trace *)

(** The closure writes nothing to the response and leaves, after the start
    callback, inner events only. *)
Lemma closure_events ups r pool fs :
  Code (w (dispatched ups r pool fs)) = None /\
  RespBody (w (dispatched ups r pool fs)) = [] /\
  faults (w (dispatched ups r pool fs)) = fs /\
  grows isInner
    (note (LogStartRequest (config ups))
       (EvLogStartRequest (Method r) (URL r)))
    (events (dispatched ups r pool fs)) /\
  (filter isLogError (events (dispatched ups r pool fs)) = []
   \/ statusCode (dispatched ups r pool fs) <> StatusOK
      /\ exists tag err,
           filter isLogError (events (dispatched ups r pool fs))
           = note (LogError (config ups)) (EvLogError tag err)).
Proof.
  on_dispatched ups r pool fs.
  unfold_all. explore; (eexists; split; [reflexivity|]);
    cbn [w Code RespBody faults events statusCode]; splits; try reflexivity;
    try (rewrite app_nil_r; grows).
  all: repeat first
         [ rewrite filter_app
         | rewrite filter_note
         | rewrite app_nil_r
         | progress cbn -[note] ].
  all: first
         [ left; reflexivity
         | right; split;
           [intros HH; cbv in HH; discriminate
           |eexists; eexists; reflexivity] ].
Qed.

(** The write loop calls Write at least once and at most once more than
    there are faults, and the error callback at most once. *)
Lemma writeLoop_trace ups fuel : forall p s,
  exists es,
    events (snd (writeLoop ups fuel p s)) = es ++ events s /\
    Forall (fun e => isLoopEvent e = true) es /\
    (length (filter isWrite es) <= S (length (faults (w s))))%nat /\
    (fuel <> 0%nat -> 1 <= length (filter isWrite es))%nat /\
    (length (filter isLogError es) <= 1)%nat.
Proof.
  assert (Hnote : forall b tag err,
    length (filter isWrite (note b (EvLogError tag err))) = 0%nat /\
    (length (filter isLogError (note b (EvLogError tag err))) <= 1)%nat).
  { intros [|] tag err; unfold note; cbn; lia. }
  induction fuel as [|fuel IH]; intros p s.
  { exists nil. cbn. splits; auto; lia. }
  destruct s as [sc rs a pl [hd cd bd fs] es0].
  destruct fs as [|[n [err|]] fs].
  - cbn. rewrite Nat.leb_refl. cbn.
    exists [EvWrite p]. cbn. splits; auto; lia.
  - cbn. unfold logError, bind. cbn. rewrite hook_run. cbn.
    exists (note (LogError (config ups)) (EvLogError "w.Write" err)
            ++ [EvWrite p]).
    destruct (Hnote (LogError (config ups)) "w.Write" err) as [H1 H2].
    rewrite !filter_app, !length_app, H1. cbn.
    splits; try lia.
    + now rewrite <- app_assoc.
    + apply Forall_app. split; [|repeat constructor].
      destruct (LogError (config ups)); unfold note; repeat constructor.
  - cbn. unfold bind. cbn.
    destruct (length p <=? Nat.min n (length p))%nat.
    + cbn. exists [EvWrite p]. cbn. splits; auto; lia.
    + match goal with
      | |- context [writeLoop ups fuel ?p' ?s'] =>
          destruct (IH p' s') as (es & H1 & H2 & H3 & H4 & H5)
      end.
      exists (es ++ [EvWrite p]). cbn in H1, H3.
      rewrite !filter_app, !length_app. cbn.
      splits; try lia.
      * rewrite H1. now rewrite <- app_assoc.
      * apply Forall_app. split; [assumption|repeat constructor].
Qed.

(** What the reply adds to the trace, on a state whose header is not sent. *)
Lemma respond_events ups r s :
  Code (w s) = None ->
  exists es,
    events (snd (respond ups r s))
    = rev (ending ups r (statusCode s)) ++ es ++ events s /\
    Forall (fun e => isReply e = true) es /\
    filter isErrorResponse es
    = (if statusCode s =? StatusOK then []
       else match ErrorResponse (config ups) with
            | Some _ => [EvErrorResponse (statusCode s)]
            | None => []
            end) /\
    (length (filter isWrite es) <= S (length (faults (w s))))%nat /\
    (length (filter isLogError es) <= 1)%nat /\
    (statusCode s <> StatusOK -> filter isLogError es = []) /\
    (validStatus (statusCode s) = true ->
     (1 <= length (filter isWrite es))%nat /\
     (statusCode s <> StatusOK -> length (filter isWrite es) = 1%nat)) /\
    (validStatus (statusCode s) = false -> filter isWrite es = []) /\
    (1 <= length (filter isSent es))%nat.
Proof.
  intros Hc. unfold ending.
  destruct (Z.eq_dec (statusCode s) StatusOK) as [Hsc|Hsc].
  - unfold respond, logEndRequest, bind. cbn [getState].
    rewrite Hsc. cbn [Z.eqb StatusOK Pos.eqb].
    destruct (writeLoop_trace ups (S (length (faults (w s)))) (resp s) s)
      as (es & H1 & H2 & H3 & H4 & H5).
    pose proof (writeLoop_spec ups (S (length (faults (w s)))) (resp s) s) as H.
    cbn zeta in H. destruct H as (H0 & _).
    destruct (writeLoop ups (S (length (faults (w s)))) (resp s) s) as [o s1].
    cbn [fst snd] in *. subst o. rewrite hook_run. cbn [snd logged events].
    exists es. rewrite H1.
    assert (Hw : (1 <= length (filter isWrite es))%nat)
      by (apply H4; discriminate).
    assert (Hle : (length (filter isWrite es)
                   <= length (filter isSent es))%nat).
    { clear. induction es as [|e es IH]; [apply le_n|].
      destruct e; cbn; lia. }
    change (validStatus StatusOK) with true. cbn iota. rewrite rev_note.
    splits; auto; try lia; try (intros HH; now elim HH);
      try discriminate.
    + eapply Forall_impl; [|exact H2]. intros [] He; cbn in *; congruence.
    + clear - H2. induction H2 as [|e es He _ IH]; [reflexivity|].
      destruct e; cbn in *; congruence.
  - destruct (validStatus (statusCode s)) eqn:Hv.
    + rewrite (respond_error ups r s Hsc Hv). cbn [snd events].
      exists (errorReply ups r (statusCode s)). rewrite rev_note.
      apply Z.eqb_neq in Hsc. rewrite Hsc. unfold errorReply.
      destruct (ErrorResponse (config ups)); cbn; splits; auto;
        try lia; try discriminate; repeat constructor.
    + rewrite (respond_refused ups r s Hv Hc). cbn [snd events rev app].
      exists (refusedReply ups (statusCode s)).
      apply Z.eqb_neq in Hsc. rewrite Hsc. unfold refusedReply.
      destruct (ErrorResponse (config ups)); cbn; splits; auto;
        try lia; try discriminate; repeat constructor.
Qed.

(** The trace of a request, earliest first: the start callback, what the
    closure left, what the reply left, the end callback if it is reached. *)
Lemma trace_of_serve ups r pool fs :
  exists inner reply,
    trace (snd (serve ups r pool fs))
    = note (LogStartRequest (config ups))
        (EvLogStartRequest (Method r) (URL r))
      ++ (inner ++ reply)
      ++ ending ups r (statusCode (snd (serve ups r pool fs))) /\
    Forall (fun e => isInner e = true) inner /\
    Forall (fun e => isReply e = true) reply /\
    (filter isLogError inner = []
     \/ statusCode (snd (serve ups r pool fs)) <> StatusOK
        /\ exists tag err,
             filter isLogError inner
             = note (LogError (config ups)) (EvLogError tag err)) /\
    filter isErrorResponse reply
    = (if statusCode (snd (serve ups r pool fs)) =? StatusOK then []
       else match ErrorResponse (config ups) with
            | Some _ => [EvErrorResponse (statusCode (snd (serve ups r pool fs)))]
            | None => []
            end) /\
    (length (filter isWrite reply) <= S (length fs))%nat /\
    (length (filter isLogError reply) <= 1)%nat /\
    (statusCode (snd (serve ups r pool fs)) <> StatusOK ->
     filter isLogError reply = []) /\
    (validStatus (statusCode (snd (serve ups r pool fs))) = true ->
     (1 <= length (filter isWrite reply))%nat /\
     (statusCode (snd (serve ups r pool fs)) <> StatusOK ->
      length (filter isWrite reply) = 1%nat)) /\
    (validStatus (statusCode (snd (serve ups r pool fs))) = false ->
     filter isWrite reply = []) /\
    (1 <= length (filter isSent reply))%nat.
Proof.
  destruct (serve_frame ups r pool fs) as (_ & Hsc & _). cbn zeta in Hsc.
  rewrite Hsc. clear Hsc. rewrite serve_split.
  destruct (closure_events ups r pool fs)
    as (Hc & _ & Hfs & (inner & Hd & Hinner) & Hlog).
  destruct (respond_events ups r (dispatched ups r pool fs) Hc)
    as (reply & Hs & H1 & H2 & H3 & H4 & H5 & H6 & H7 & H8).
  rewrite Hfs in H3.
  exists (rev inner), (rev reply). unfold trace. rewrite Hs, Hd.
  rewrite Hd in Hlog.
  rewrite !rev_app_distr, !rev_note, rev_involutive, <- !app_assoc.
  rewrite !filter_rev, !length_rev.
  assert (Hnot : forall b e, isLogError e = false ->
            filter isLogError (inner ++ note b e) = filter isLogError inner).
  { intros b e He. rewrite filter_app, filter_note, He. apply app_nil_r. }
  rewrite Hnot in Hlog by reflexivity.
  splits; auto.
  - now apply Forall_rev.
  - now apply Forall_rev.
  - destruct Hlog as [->|(Hne & tag & err & ->)]; [now left|right].
    split; [assumption|]. exists tag, err. now rewrite rev_note.
  - rewrite H2. destruct (_ =? _); [reflexivity|].
    destruct (ErrorResponse (config ups)); reflexivity.
  - intros Hne. now rewrite (H5 Hne).
  - intros Hv. rewrite (H7 Hv). reflexivity.
Qed.

Lemma Forall_not_boundary_inner inner :
  Forall (fun e => isInner e = true) inner ->
  Forall (fun e => isBoundary e = false) inner.
Proof.
  intros H. eapply Forall_impl; [|exact H].
  intros [] He; cbn in He |- *; congruence.
Qed.

Lemma Forall_not_boundary_reply reply :
  Forall (fun e => isReply e = true) reply ->
  Forall (fun e => isBoundary e = false) reply.
Proof.
  intros H. eapply Forall_impl; [|exact H].
  intros [] He; cbn in He |- *; congruence.
Qed.

(** X3: ServeHTTP returns unless WriteHeader refuses the status the closure
    left.  When it returns, the status line that was sent carries the status
    the end callback is given, and the trace is the start callback (if
    set), events that are neither start nor end callback, and the end
    callback (if set).  When WriteHeader refuses the status, no status line
    and no body are sent and the trace is the start callback (if set) and
    events that are neither start nor end callback: the end callback is not
    called. *)
Theorem callbacks_bracket_the_request ups r pool fs :
  let s := snd (serve ups r pool fs) in
  fst (serve ups r pool fs) = replyOutcome (statusCode s) /\
  (validStatus (statusCode s) = true ->
   Code (w s) = Some (statusCode s) /\
   exists mid,
     trace s
     = note (LogStartRequest (config ups))
         (EvLogStartRequest (Method r) (URL r))
       ++ mid
       ++ note (LogEndRequest (config ups))
            (EvLogEndRequest (Method r) (URL r) (statusCode s)) /\
     Forall (fun e => isBoundary e = false) mid) /\
  (validStatus (statusCode s) = false ->
   Code (w s) = None /\
   RespBody (w s) = [] /\
   exists mid,
     trace s
     = note (LogStartRequest (config ups))
         (EvLogStartRequest (Method r) (URL r))
       ++ mid /\
     Forall (fun e => isBoundary e = false) mid).
Proof.
  cbn zeta.
  destruct (serve_frame ups r pool fs) as (Ho & Hsc & _ & _ & Hc & _).
  cbn zeta in Ho, Hsc, Hc. rewrite <- Hsc in Ho, Hc.
  destruct (trace_of_serve ups r pool fs)
    as (inner & reply & Ht & Hi & Hr & _).
  assert (Hmid : Forall (fun e => isBoundary e = false) (inner ++ reply)).
  { apply Forall_app. split;
      [now apply Forall_not_boundary_inner|now apply Forall_not_boundary_reply]. }
  unfold ending in Ht.
  splits; [exact Ho| |].
  - intros Hv. rewrite Hv in Hc, Ht. split; [exact Hc|].
    exists (inner ++ reply). split; [exact Ht|exact Hmid].
  - intros Hv. rewrite Hv in Hc, Ht. split; [exact Hc|]. split.
    + assert (Hne : statusCode (dispatched ups r pool fs) <> StatusOK).
      { intros E. rewrite Hsc, E in Hv. discriminate. }
      rewrite Hsc in Hv. rewrite serve_split.
      rewrite (respond_refused ups r _ Hv (dispatched_unsent ups r pool fs)).
      cbn [snd w RespBody].
      now rewrite (dispatched_fresh ups r pool fs Hne).
    + exists (inner ++ reply). rewrite app_nil_r in Ht.
      split; [exact Ht|exact Hmid].
Qed.

Lemma filter_none (f P : Event -> bool) es :
  (forall e, P e = true -> f e = false) ->
  Forall (fun e => P e = true) es -> filter f es = [].
Proof.
  intros HP H. induction H as [|e es He _ IH]; [reflexivity|].
  cbn. now rewrite (HP e He).
Qed.

Lemma filter_ending (f : Event -> bool) ups r c :
  (forall m u k, f (EvLogEndRequest m u k) = false) ->
  filter f (ending ups r c) = [].
Proof.
  intros Hf. unfold ending. destruct (validStatus c); [|reflexivity].
  now rewrite filter_note, Hf.
Qed.

(** X4: the error-body formatter is called exactly once, with the final
    status, when it is set and the status is not 200, and never otherwise. *)
Theorem error_formatter_called_once ups r pool fs :
  let s := snd (serve ups r pool fs) in
  filter isErrorResponse (trace s)
  = if statusCode s =? StatusOK then []
    else match ErrorResponse (config ups) with
         | Some _ => [EvErrorResponse (statusCode s)]
         | None => []
         end.
Proof.
  cbn zeta.
  destruct (trace_of_serve ups r pool fs)
    as (inner & reply & Ht & Hi & Hr & _ & He & _).
  rewrite Ht, !filter_app, !filter_note, He, filter_ending by reflexivity.
  cbn.
  rewrite (filter_none isErrorResponse isInner inner); [|intros []; easy|easy].
  rewrite app_nil_r. reflexivity.
Qed.

(** X5: the error callback is only ever given one of the seven tags of
    ServeHTTP, and at most once per request; it is given the tag of the write
    loop exactly when the status is 200. *)
Theorem error_callback_tags_and_count ups r pool fs :
  let s := snd (serve ups r pool fs) in
  Forall (fun e => tagged errorTags e = true) (trace s) /\
  (count isLogError (trace s) <= 1)%nat /\
  (forall tag err, In (EvLogError tag err) (trace s) ->
     (tag = "w.Write" <-> statusCode s = StatusOK)).
Proof.
  cbn zeta.
  destruct (trace_of_serve ups r pool fs)
    as (inner & reply & Ht & Hi & Hr & Hli & _ & _ & Hlr & Hne & _).
  rewrite Ht. splits.
  - rewrite !Forall_app. splits.
    + destruct (LogStartRequest (config ups)); repeat constructor.
    + eapply Forall_impl; [|exact Hi].
      intros [] He; try reflexivity. unfold isInner in He. unfold tagged.
      apply existsb_exists in He. destruct He as (x & Hin & Hx).
      apply existsb_exists. exists x. split; [|exact Hx].
      cbn in Hin |- *. tauto.
    + eapply Forall_impl; [|exact Hr].
      intros [] He; try reflexivity. unfold isReply in He. unfold tagged.
      apply existsb_exists. exists "w.Write". split; [|exact He].
      cbn. tauto.
    + unfold ending. destruct (validStatus _); [|constructor].
      destruct (LogEndRequest (config ups)); repeat constructor.
  - unfold count. rewrite !filter_app, !filter_note, !length_app.
    rewrite filter_ending by reflexivity. cbn.
    destruct Hli as [->|(Hsc & tag & err & ->)].
    + cbn. lia.
    + rewrite (Hne Hsc).
      destruct (LogError (config ups)); unfold note; cbn; lia.
  - intros tag err Hin.
    rewrite !in_app_iff in Hin.
    assert (Hfi : forall es, In (EvLogError tag err) es ->
                    In (EvLogError tag err) (filter isLogError es)).
    { intros es H. apply filter_In. now split. }
    destruct Hin as [Hin|[[Hin|Hin]|Hin]].
    + destruct (LogStartRequest (config ups)); cbn in Hin; [|easy].
      destruct Hin; [discriminate|easy].
    + pose proof (Hfi _ Hin) as Hf.
      destruct Hli as [Hl|(Hsc & tag' & err' & Hl)]; rewrite Hl in Hf;
        [easy|].
      rewrite Forall_forall in Hi. specialize (Hi _ Hin). cbn in Hi.
      split; [|intros HH; now elim Hsc].
      intros ->. cbn in Hi. discriminate.
    + pose proof (Hfi _ Hin) as Hf.
      rewrite Forall_forall in Hr. specialize (Hr _ Hin). cbn in Hr.
      apply String.eqb_eq in Hr. subst tag.
      split; [intros _|reflexivity].
      destruct (Z.eq_dec (statusCode (snd (serve ups r pool fs))) StatusOK)
        as [Hsc|Hsc]; [exact Hsc|].
      rewrite (Hne Hsc) in Hf. easy.
    + pose proof (Hfi _ Hin) as Hf.
      rewrite filter_ending in Hf by reflexivity. easy.
Qed.

(** X6: when WriteHeader accepts the status, the request calls Write at
    least once, also for an empty body, and at most once more than the
    writer has faults, and an error reply is one call; when WriteHeader
    refuses the status, Write is never called and the body stays empty.
    With status 200 what reached the writer is a prefix of the encoded
    response. *)
Theorem write_calls_bounded ups r pool fs :
  let s := snd (serve ups r pool fs) in
  (count isWrite (trace s) <= S (length fs))%nat /\
  (validStatus (statusCode s) = true ->
   (1 <= count isWrite (trace s))%nat /\
   (statusCode s <> StatusOK -> count isWrite (trace s) = 1%nat)) /\
  (validStatus (statusCode s) = false ->
   count isWrite (trace s) = 0%nat /\ RespBody (w s) = []) /\
  (statusCode s = StatusOK ->
   exists rest,
     resp (dispatched ups r pool fs) = RespBody (w s) ++ rest).
Proof.
  cbn zeta.
  destruct (trace_of_serve ups r pool fs)
    as (inner & reply & Ht & Hi & Hr & _ & _ & Hw & _ & _ & Hv1 & Hv0 & _).
  assert (Hc : count isWrite (trace (snd (serve ups r pool fs)))
               = length (filter isWrite reply)).
  { unfold count. rewrite Ht, !filter_app, !filter_note.
    rewrite filter_ending by reflexivity. cbn.
    rewrite (filter_none isWrite isInner inner); [|intros []; easy|easy].
    now rewrite app_nil_r. }
  rewrite Hc.
  destruct (serve_frame ups r pool fs) as (_ & Hd & _). cbn zeta in Hd.
  splits; [exact Hw|exact Hv1| |].
  - intros Hv. split; [now rewrite (Hv0 Hv)|].
    assert (Hne : statusCode (dispatched ups r pool fs) <> StatusOK).
    { intros E. rewrite Hd, E in Hv. discriminate. }
    rewrite Hd in Hv. rewrite serve_split.
    rewrite (respond_refused ups r _ Hv (dispatched_unsent ups r pool fs)).
    cbn [snd w RespBody].
    now rewrite (dispatched_fresh ups r pool fs Hne).
  - intros Hsc. rewrite Hd in Hsc. rewrite serve_split.
    destruct (respond_ok ups r (dispatched ups r pool fs) Hsc)
      as (s1 & -> & _ & _ & _ & _ & _ & _ & (q & q' & Hq & Hb) & _).
    destruct (closure_events ups r pool fs) as (_ & Hnil & _).
    rewrite Hnil in Hb. cbn in Hb |- *. exists q'. now rewrite Hb.
Qed.

(** ** Paths that end before or at the call *)

Ltac unrev :=
  repeat progress
    (rewrite ?rev_app_distr, ?rev_note, <- ?app_assoc; cbn -[note]).

(** Runs the closure up to the pool for a request that [negotiates]. *)
Ltac to_pool H :=
  let HM := fresh "HM" in let HB := fresh "HB" in let HP := fresh "HP" in
  let HS := fresh "HS" in let mt := fresh "mt" in
  destruct H as (HM & HB & (mt & HP & HS));
  unfold_all; run; rewrite HM; run; rewrite HB; run; rewrite HP; run;
  rewrite HS; run.

(** The trace of a request that the closure leaves with an error status. *)
Lemma trace_of_failure ups r d :
  statusCode d <> StatusOK ->
  validStatus (statusCode d) = true ->
  trace (snd (respond ups r d))
  = rev (events d) ++ failing ups r (statusCode d).
Proof.
  intros Hsc Hv. rewrite (respond_error ups r d Hsc Hv).
  unfold trace, failing, errorReply. cbn [snd events].
  destruct (ErrorResponse (config ups)); unrev; reflexivity.
Qed.

Lemma dispatched_undecodable ups r pool fs json b m0 m' e :
  undecodable ups r pool json b m0 m' e ->
  dispatched ups r pool fs =
  {| statusCode := StatusInternalServerError; resp := []; arg := None;
     requestObjectPool := Reset m' :: tl pool; w := NewRecorder fs;
     events := rev (negotiated ups r ++ [EvPoolGet m0]
                    ++ decoding ups json b
                    ++ note (LogError (config ups))
                         (EvLogError (decodeTag json) e)
                    ++ [EvReset; EvPoolPut (Reset m')]) |}.
Proof.
  intros (H & HA & HU). unfold negotiated, decoding, decodeTag.
  to_pool H.
  (destruct pool; simpl in HA; [rewrite !HA | inversion HA; subst]); run;
    destruct json; run; rewrite HU; run; tidy; unrev; reflexivity.
Qed.

Lemma dispatched_unpooled ups r fs json b :
  negotiates ups r json b ->
  poolNew ups = None ->
  dispatched ups r [] fs =
  {| statusCode := StatusInternalServerError; resp := []; arg := None;
     requestObjectPool := []; w := NewRecorder fs;
     events := rev (negotiated ups r
                    ++ note (LogPanic (config ups)) (EvLogPanic noElem)) |}.
Proof.
  intros H HN. unfold negotiated, noElem.
  to_pool H. rewrite HN. run. tidy. unrev. reflexivity.
Qed.

Lemma dispatched_nil ups r pool fs json b m :
  decodesTo ups r pool json b m ->
  returnsNil ups r m ->
  dispatched ups r pool fs =
  {| statusCode := StatusInternalServerError; resp := []; arg := None;
     requestObjectPool := Reset m :: tl pool; w := NewRecorder fs;
     events := note (LogPanic (config ups)) (EvLogPanic nilMessage)
               ++ EvPoolPut (Reset m) :: EvReset
                  :: upToCall ups r pool json b m |}.
Proof.
  intros H [Hh|Hh]; unfold nilMessage;
    (to_call H pool json; rewrite Hh; run; tidy; reflexivity).
Qed.

Lemma status_500 : StatusInternalServerError <> StatusOK.
Proof. discriminate. Qed.

(** X7: when the codec rejects the body, the raw-request callback has been
    called, the error callback gets the tag of the codec and its error, the
    handler is not called, the object is reset and put back whatever the
    codec left in it, and the reply is 500. *)
Theorem decode_failure ups r pool fs json b m0 m' e :
  undecodable ups r pool json b m0 m' e ->
  let s := snd (serve ups r pool fs) in
  statusCode s = StatusInternalServerError /\
  Code (w s) = Some StatusInternalServerError /\
  arg s = None /\
  requestObjectPool s = Reset m' :: tl pool /\
  count isCall (trace s) = 0%nat /\
  trace s
  = negotiated ups r ++ [EvPoolGet m0]
    ++ decoding ups json b
    ++ note (LogError (config ups)) (EvLogError (decodeTag json) e)
    ++ [EvReset; EvPoolPut (Reset m')]
    ++ failing ups r StatusInternalServerError.
Proof.
  intros H. cbn zeta.
  assert (Ht : trace (snd (serve ups r pool fs))
    = negotiated ups r ++ [EvPoolGet m0]
      ++ decoding ups json b
      ++ note (LogError (config ups)) (EvLogError (decodeTag json) e)
      ++ [EvReset; EvPoolPut (Reset m')]
      ++ failing ups r StatusInternalServerError).
  { rewrite serve_split, (dispatched_undecodable ups r pool fs json b m0 m' e H).
    rewrite trace_of_failure by status.
    cbn [events statusCode]. rewrite rev_involutive, <- !app_assoc.
    reflexivity. }
  destruct (serve_frame ups r pool fs) as (_ & H1 & H2 & H3 & H4 & _).
  cbn zeta in H1, H2, H3, H4.
  rewrite (dispatched_undecodable ups r pool fs json b m0 m' e H)
    in H1, H2, H3, H4.
  splits; try assumption.
  unfold count. rewrite Ht. unfold negotiated, decoding, failing.
  repeat first
    [ rewrite filter_app | rewrite filter_note | progress cbn -[note] ].
  destruct json, (ErrorResponse (config ups));
    repeat first
      [ rewrite filter_app | rewrite filter_note | progress cbn -[note] ];
    reflexivity.
Qed.

(** X8: when the pool is empty and its factory panics, the panic is caught
    before anything is borrowed: no reset, no put, no call of the handler;
    the panic callback gets the value, the reply is 500 and the pool stays
    empty, so the next request meets the same. *)
Theorem pool_factory_panic ups r fs json b :
  negotiates ups r json b ->
  poolNew ups = None ->
  let s := snd (serve ups r [] fs) in
  statusCode s = StatusInternalServerError /\
  Code (w s) = Some StatusInternalServerError /\
  arg s = None /\
  requestObjectPool s = [] /\
  trace s
  = negotiated ups r
    ++ note (LogPanic (config ups)) (EvLogPanic noElem)
    ++ failing ups r StatusInternalServerError.
Proof.
  intros H HN. cbn zeta.
  destruct (serve_frame ups r [] fs) as (_ & H1 & H2 & H3 & H4 & _).
  cbn zeta in H1, H2, H3, H4.
  rewrite (dispatched_unpooled ups r fs json b H HN) in H1, H2, H3, H4.
  splits; try assumption.
  rewrite serve_split, (dispatched_unpooled ups r fs json b H HN).
  rewrite trace_of_failure by status.
  cbn [events statusCode]. rewrite rev_involutive, <- !app_assoc.
  reflexivity.
Qed.

(** X9: a handler whose first result type is an interface type and that
    returns the nil interface and no error makes the type assertion on the
    result panic: the object is released, the panic callback gets the
    runtime error, nothing is encoded and the reply is 500.  (The nil
    pointer of a pointer result type is not the nil interface: the
    assertion succeeds on it and the encoder is called.) *)
Theorem nil_message_is_a_panic ups r pool fs json b m :
  decodesTo ups r pool json b m ->
  returnsNil ups r m ->
  let s := snd (serve ups r pool fs) in
  statusCode s = StatusInternalServerError /\
  Code (w s) = Some StatusInternalServerError /\
  requestObjectPool s = Reset m :: tl pool /\
  count isEncodeEvent (trace s) = 0%nat /\
  trace s
  = rev (upToCall ups r pool json b m)
    ++ [EvReset; EvPoolPut (Reset m)]
    ++ note (LogPanic (config ups)) (EvLogPanic nilMessage)
    ++ failing ups r StatusInternalServerError.
Proof.
  intros H Hn. cbn zeta.
  assert (Ht : trace (snd (serve ups r pool fs))
    = rev (upToCall ups r pool json b m)
      ++ [EvReset; EvPoolPut (Reset m)]
      ++ note (LogPanic (config ups)) (EvLogPanic nilMessage)
      ++ failing ups r StatusInternalServerError).
  { rewrite serve_split, (dispatched_nil ups r pool fs json b m H Hn).
    rewrite trace_of_failure by status.
    cbn [events statusCode]. unrev. reflexivity. }
  destruct (serve_frame ups r pool fs) as (_ & H1 & H2 & H3 & H4 & _).
  cbn zeta in H1, H2, H3, H4.
  rewrite (dispatched_nil ups r pool fs json b m H Hn) in H1, H2, H3, H4.
  splits; try assumption.
  unfold count. rewrite Ht, !filter_app, filter_rev, upToCall_encode.
  unfold failing. rewrite !filter_app, !filter_note.
  destruct (ErrorResponse (config ups)); reflexivity.
Qed.

(** ** A successful request *)

Lemma writeLoop_head ups fuel p s :
  exists loop,
    events (snd (writeLoop ups (S fuel) p s)) = loop ++ EvWrite p :: events s /\
    Forall (fun e => isLoopEvent e = true) loop /\
    (faults (w s) = [] -> loop = []).
Proof.
  destruct (writeLoop_trace ups (S fuel) p s) as (es & H1 & H2 & _).
  pose proof (writeLoop_spec ups (S fuel) p s) as H. cbn zeta in H.
  destruct H as (_ & _ & _ & _ & _ & _ & (loop & Hl & _) & _).
  exists loop. rewrite Hl. split; [reflexivity|].
  rewrite H1 in Hl.
  change (loop ++ EvWrite p :: events s)
    with (loop ++ [EvWrite p] ++ events s) in Hl.
  rewrite app_assoc in Hl. apply app_inv_tail in Hl. subst es.
  apply Forall_app in H2. split; [apply H2|].
  intros Hf. destruct s as [sc rs a pl [hd cd bd fs] es0]. cbn in Hf. subst fs.
  cbn in H1. rewrite Nat.leb_refl in H1. cbn in H1.
  change (EvWrite p :: es0) with ([EvWrite p] ++ es0) in H1.
  apply app_inv_tail in H1. destruct loop; [reflexivity|].
  destruct loop; discriminate.
Qed.

(** X10: the trace of a successful request: after the call, the
    response-message callback, the codec, the raw-response callback and the
    Content-Type header; then the object is reset and put back, before the
    first call of Write, which is given the whole encoded response; then
    what the write loop adds, nothing on a writer without faults; then the
    end callback with 200. *)
Theorem success_trace ups r pool fs json b m res enc :
  decodesTo ups r pool json b m ->
  returns ups r m res ->
  encodesTo ups json res enc ->
  let s := snd (serve ups r pool fs) in
  exists loop,
    trace s
    = rev (upToCall ups r pool json b m)
      ++ rev (encoding ups json res (rawResponse ups json enc))
      ++ [EvHeaderSet "Content-Type" (mediaTypeOf json);
          EvReset; EvPoolPut (Reset m); EvWrite enc]
      ++ loop
      ++ note (LogEndRequest (config ups))
           (EvLogEndRequest (Method r) (URL r) StatusOK) /\
    Forall (fun e => isLoopEvent e = true) loop /\
    (fs = [] -> loop = []).
Proof.
  intros H Hr He. cbn zeta.
  rewrite serve_split, (dispatched_encoded ups r pool fs json b m res enc H Hr He).
  unfold respond, logEndRequest, bind. cbn [getState statusCode resp w faults].
  cbn [Z.eqb StatusOK Pos.eqb].
  match goal with
  | |- context [writeLoop ups (S ?n) ?p ?s] =>
      destruct (writeLoop_head ups n p s) as (loop & Hl & HF & Hnil);
      pose proof (writeLoop_spec ups (S n) p s) as Hs; cbn zeta in Hs;
      destruct Hs as (Hn & _);
      destruct (writeLoop ups (S n) p s) as [o s1]
  end.
  cbn [fst snd] in *. subst o. rewrite hook_run.
  exists (rev loop). unfold trace. cbn [snd logged events]. rewrite Hl.
  cbn [events]. splits.
  - unrev. reflexivity.
  - now apply Forall_rev.
  - intros ->. now rewrite Hnil.
Qed.

(** ** What construction stores *)

(** X12: what construction stores for an accepted handler: the
    configuration and the parameter as given; the message type is the last
    of at most three parameters, implements proto.Message, and the pool
    factory makes objects of its element type; the first result implements
    proto.Message and a second one implements error. *)
Theorem accepted_handler_fields ins outs f param cfg ups :
  UPSWithParameterAndConfig (Func ins outs f) param cfg = inr ups ->
  config ups = cfg /\
  parameter ups = param /\
  exists front reqType res,
    ins = front ++ [reqType] /\
    (length front <= 2)%nat /\
    Implements_message reqType = true /\
    poolNew ups = New_Elem reqType /\
    Implements_message res = true /\
    (outs = [res] \/ exists e, outs = [res; e] /\ Implements_error e = true).
Proof.
  unfold UPSWithParameterAndConfig. intros H.
  destruct (checkOut outs) eqn:Hc; [discriminate|].
  destruct (checkIn ins) as [p|[[ht reqType] paramType]] eqn:Hi;
    [discriminate|].
  destruct (Implements_message reqType) eqn:Hm; cbn in H; [|discriminate].
  destruct (checkParam paramType param); [discriminate|].
  inversion H; subst; cbn. clear H.
  splits; auto.
  assert (Hout : exists res,
            Implements_message res = true /\
            (outs = [res]
             \/ exists e, outs = [res; e] /\ Implements_error e = true)).
  { destruct outs as [|o0 [|o1 [|o2 outs]]]; cbn in Hc; try discriminate.
    - exists o0. destruct (Implements_message o0); [|discriminate].
      split; [reflexivity|left; reflexivity].
    - exists o0. destruct (Implements_error o1) eqn:He; [|discriminate].
      destruct (Implements_message o0); [|discriminate].
      split; [reflexivity|right]. exists o1. split; [reflexivity|exact He]. }
  destruct Hout as (res & Hres & Houts).
  assert (Hin : exists front, ins = front ++ [reqType]
                              /\ (length front <= 2)%nat).
  { destruct ins as [|i0 [|i1 [|i2 [|i3 ins]]]]; cbn in Hi; try discriminate.
    - inversion Hi; subst. exists []. split; [reflexivity|cbn; lia].
    - destruct (rtype_eqb i0 contextType);
        [|destruct (rtype_eqb i0 requestType)];
        inversion Hi; subst; (exists [i0]; split; [reflexivity|cbn; lia]).
    - destruct (rtype_eqb i0 contextType);
        [|destruct (rtype_eqb i0 requestType); [|discriminate]];
        inversion Hi; subst; (exists [i0; i1]; split; [reflexivity|cbn; lia]). }
  destruct Hin as (front & Hins & Hlen).
  exists front, reqType, res. splits; auto.
Qed.

(** ** The default configuration *)

(** X13: UPS and UPSWithParameter pass on the value the package variable
    DefaultConfig has when they are called.  While that is the value the
    variable is initialised with, the handler they make has it as its
    configuration: application/json is always negotiable, the error-body
    formatter is never called, the body of an error reply that WriteHeader
    accepts is what Write accepts of a single line feed, every request
    starts with the start callback and, unless WriteHeader refuses its
    status, ends with the end callback. *)
Theorem default_config_handlers mr h param ups :
  UPS (DefaultConfig mr) h = inr ups
  \/ UPSWithParameter (DefaultConfig mr) h param = inr ups ->
  config ups = DefaultConfig mr /\
  (forall v, ParseMediaType v = inr "application/json" ->
             documentedNegotiate (config ups) v = Some text) /\
  forall r pool fs,
    let s := snd (serve ups r pool fs) in
    count isErrorResponse (trace s) = 0%nat /\
    (statusCode s <> StatusOK -> validStatus (statusCode s) = true ->
     RespBody (w s) = accepted fs newline) /\
    (exists rest, trace s = EvLogStartRequest (Method r) (URL r) :: rest) /\
    (validStatus (statusCode s) = true ->
     exists mid,
       trace s
       = EvLogStartRequest (Method r) (URL r)
         :: mid ++ [EvLogEndRequest (Method r) (URL r) (statusCode s)]).
Proof.
  intros H.
  assert (HC : config ups = DefaultConfig mr).
  { unfold UPS, UPSWithParameter in H.
    destruct h as [| |ins outs f]; [destruct H; discriminate..|].
    destruct H as [H|H]; apply construction_ok in H; apply H. }
  splits; [exact HC| |].
  - intros v Hv. unfold documentedNegotiate. rewrite Hv, HC. reflexivity.
  - intros r pool fs. cbn zeta.
    destruct (trace_of_serve ups r pool fs)
      as (inner & reply & Ht & Hi & Hr & _ & He & _).
    splits.
    + unfold count.
      rewrite Ht, !filter_app, !filter_note, He, HC.
      rewrite filter_ending by reflexivity. cbn.
      rewrite (filter_none isErrorResponse isInner inner);
        [|intros []; easy|easy].
      now destruct (_ =? _).
    + intros Hsc Hv.
      destruct (serve_frame ups r pool fs) as (_ & Hd & _). cbn zeta in Hd.
      rewrite Hd in Hsc, Hv.
      rewrite serve_split, (respond_error ups r _ Hsc Hv).
      cbn [snd w RespBody].
      rewrite (dispatched_fresh ups r pool fs Hsc). unfold errorText.
      rewrite HC. reflexivity.
    + eexists. rewrite Ht, HC. reflexivity.
    + intros Hv. exists (inner ++ reply). rewrite Ht. unfold ending.
      rewrite Hv, HC. reflexivity.
Qed.

(** ** The log callbacks are optional *)

Lemma note_off e : note false e = [].
Proof. reflexivity. Qed.

Lemma dispatched_muted ups r pool fs :
  dispatched (muted ups) r pool fs = mute (dispatched ups r pool fs).
Proof.
  unfold mute. unfold_all. unfold switchContentType.
  change (buildArgs (muted ups)) with (buildArgs ups). unfold muted.
  explore; rewrite ?note_off;
    repeat first
      [ rewrite filter_app | rewrite filter_note | rewrite app_nil_r
      | progress cbn -[note] ];
    reflexivity.
Qed.

Lemma writeLoop_muted ups fuel : forall p s,
  writeLoop (muted ups) fuel p (mute s)
  = (fst (writeLoop ups fuel p s), mute (snd (writeLoop ups fuel p s))).
Proof.
  induction fuel as [|fuel IH]; intros p s; [reflexivity|].
  destruct s as [sc rs a pl [hd cd bd fs] es].
  destruct fs as [|[n [err|]] fs].
  - cbn. rewrite Nat.leb_refl. reflexivity.
  - cbn. unfold logError, bind. cbn. rewrite !hook_run. unfold mute. cbn.
    rewrite note_off, filter_app, filter_note. reflexivity.
  - cbn. unfold bind. cbn.
    destruct (length p <=? Nat.min n (length p))%nat; [reflexivity|].
    match goal with
    | |- writeLoop (muted ups) fuel ?q' _ = (fst (writeLoop ups fuel ?q' ?s'), _) =>
        rewrite <- (IH q' s')
    end.
    reflexivity.
Qed.

Lemma respond_muted ups r s :
  respond (muted ups) r (mute s)
  = (fst (respond ups r s), mute (snd (respond ups r s))).
Proof.
  destruct (Z.eq_dec (statusCode s) StatusOK) as [Hsc|Hsc].
  - unfold respond, logEndRequest, bind. cbn [getState].
    cbn [mute statusCode w resp]. rewrite Hsc. cbn [Z.eqb StatusOK Pos.eqb].
    rewrite writeLoop_muted.
    destruct (writeLoop ups (S (length (faults (w s)))) (resp s) s)
      as [[[]| |v] s1]; cbn [fst snd]; rewrite ?hook_run; try reflexivity.
    unfold mute, logged. cbn. rewrite note_off, filter_app, filter_note.
    reflexivity.
  - apply Z.eqb_neq in Hsc.
    unfold respond, logEndRequest, bind. cbn [getState].
    cbn [mute statusCode]. rewrite Hsc, !errorResponse_run.
    unfold http_Error, w_Header_Set, w_WriteHeader, w_Write, bind.
    destruct s as [sc rs a pl [hd cd bd fs] es]. unfold mute. cbn.
    destruct cd; cbn; [|destruct (validStatus sc); cbn];
      try (destruct fs as [|[n e] fs]; cbn; rewrite ?hook_run);
      unfold logged; cbn; rewrite ?note_off, ?filter_app, ?filter_note;
      destruct (ErrorResponse (config ups)); reflexivity.
Qed.

Lemma serve_muted ups r pool fs :
  snd (serve (muted ups) r pool fs) = mute (snd (serve ups r pool fs)).
Proof.
  rewrite !serve_split, dispatched_muted, respond_muted. reflexivity.
Qed.

(** X14: the log callbacks are optional: two handlers that differ only in
    which of the ten log callbacks are set answer every request with the
    same status, the same response and the same pool, and make the same
    calls apart from those callbacks; with all of them nil exactly the
    calls of the callbacks are missing. *)
Theorem log_callbacks_are_optional ups1 ups2 r pool fs :
  muted ups1 = muted ups2 ->
  let s1 := snd (serve ups1 r pool fs) in
  let s2 := snd (serve ups2 r pool fs) in
  statusCode s1 = statusCode s2 /\
  w s1 = w s2 /\
  requestObjectPool s1 = requestObjectPool s2 /\
  filter (fun e => negb (isCallback e)) (trace s1)
  = filter (fun e => negb (isCallback e)) (trace s2) /\
  trace (snd (serve (muted ups1) r pool fs))
  = filter (fun e => negb (isCallback e)) (trace s1).
Proof.
  intros H. cbn zeta.
  pose proof (serve_muted ups1 r pool fs) as H1.
  pose proof (serve_muted ups2 r pool fs) as H2.
  rewrite H in H1. rewrite H1 in H2.
  splits.
  - apply (f_equal statusCode) in H2. exact H2.
  - apply (f_equal w) in H2. exact H2.
  - apply (f_equal requestObjectPool) in H2. exact H2.
  - apply (f_equal events) in H2. cbn [mute events] in H2.
    unfold trace. rewrite !filter_rev. now rewrite H2.
  - rewrite serve_muted. unfold trace. cbn [mute events].
    now rewrite filter_rev.
Qed.

(** ** Failures before the pool *)

(** X15: the three failures of a POST request before the pool: an
    unreadable body is logged with its tag and answered 500 before the media
    type is parsed; a media type that does not parse is logged with its tag
    and answered 415; a media type that parses but is not supported, or is
    application/json without a marshaler, is answered 415 without any call
    of the error callback. *)
Theorem early_failures ups r pool fs :
  Method r = MethodPost ->
  let s := snd (serve ups r pool fs) in
  (forall err,
      Body r = inl err ->
      trace s
      = note (LogStartRequest (config ups))
          (EvLogStartRequest (Method r) (URL r))
        ++ [EvReadBody]
        ++ note (LogError (config ups)) (EvLogError "req.ReadFrom" err)
        ++ failing ups r StatusInternalServerError) /\
  (forall b err,
      Body r = inr b ->
      ParseMediaType (Header_Get (ReqHeader r) "Content-Type") = inl err ->
      trace s
      = negotiated ups r
        ++ note (LogError (config ups)) (EvLogError "mime.ParseMediaType" err)
        ++ failing ups r StatusUnsupportedMediaType) /\
  (forall b mt,
      Body r = inr b ->
      ParseMediaType (Header_Get (ReqHeader r) "Content-Type") = inr mt ->
      switchContentType (config ups) mt = None ->
      trace s = negotiated ups r ++ failing ups r StatusUnsupportedMediaType).
Proof.
  intros HM. cbn zeta. rewrite serve_split. unfold negotiated. splits.
  - intros err HB.
    assert (Hd : dispatched ups r pool fs =
      {| statusCode := StatusInternalServerError; resp := []; arg := None;
         requestObjectPool := pool; w := NewRecorder fs;
         events := note (LogError (config ups)) (EvLogError "req.ReadFrom" err)
                   ++ EvReadBody
                   :: note (LogStartRequest (config ups))
                        (EvLogStartRequest (Method r) (URL r)) |}).
    { unfold_all. run. rewrite HM. run. rewrite HB. run. tidy. reflexivity. }
    rewrite Hd, trace_of_failure by status.
    cbn [events statusCode]. unrev. reflexivity.
  - intros b err HB HP.
    assert (Hd : dispatched ups r pool fs =
      {| statusCode := StatusUnsupportedMediaType; resp := []; arg := None;
         requestObjectPool := pool; w := NewRecorder fs;
         events := note (LogError (config ups))
                     (EvLogError "mime.ParseMediaType" err)
                   ++ EvParseMediaType (Header_Get (ReqHeader r) "Content-Type")
                   :: EvReadBody
                   :: note (LogStartRequest (config ups))
                        (EvLogStartRequest (Method r) (URL r)) |}).
    { unfold_all. run. rewrite HM. run. rewrite HB. run. rewrite HP. run.
      tidy. reflexivity. }
    rewrite Hd, trace_of_failure by status.
    cbn [events statusCode]. unrev. reflexivity.
  - intros b mt HB HP HS.
    assert (Hd : dispatched ups r pool fs =
      {| statusCode := StatusUnsupportedMediaType; resp := []; arg := None;
         requestObjectPool := pool; w := NewRecorder fs;
         events := EvParseMediaType (Header_Get (ReqHeader r) "Content-Type")
                   :: EvReadBody
                   :: note (LogStartRequest (config ups))
                        (EvLogStartRequest (Method r) (URL r)) |}).
    { unfold_all. run. rewrite HM. run. rewrite HB. run. rewrite HP. run.
      rewrite HS. run. tidy. reflexivity. }
    rewrite Hd, trace_of_failure by status.
    cbn [events statusCode]. unrev. reflexivity.
Qed.

(** ** Failures after the call *)

Lemma dispatched_unencodable ups r pool fs json b m res :
  decodesTo ups r pool json b m ->
  returns ups r m res ->
  forall err,
    (if json
     then exists mr, JSONMarshaler (config ups) = Some mr
                     /\ MarshalToString mr res = inl err
     else proto_Marshal res = inl err) ->
    dispatched ups r pool fs =
    {| statusCode := StatusInternalServerError; resp := []; arg := None;
       requestObjectPool := Reset m :: tl pool; w := NewRecorder fs;
       events := EvPoolPut (Reset m) :: EvReset
                 :: encoding ups json res
                      (note (LogError (config ups))
                         (EvLogError
                            (if json then "JSONMarshaler.MarshalToString"
                             else "proto.Marshal") err))
                 ++ upToCall ups r pool json b m |}.
Proof.
  intros H Hr err He. unfold encoding.
  destruct Hr as [Hr|Hr];
    (to_call H pool json; rewrite Hr; run;
     first
       [ destruct He as (mr & Hm & Ht); rewrite Hm; run; rewrite Ht; run
       | rewrite He; run ];
     tidy; reflexivity).
Qed.

(** X16: when the codec rejects the handler's result, the response-message
    callback has been called, the error callback gets the tag of the codec
    and its error, no Content-Type header of the format is set, the object
    is released and the reply is 500. *)
Theorem encode_failure ups r pool fs json b m res err :
  decodesTo ups r pool json b m ->
  returns ups r m res ->
  (if json
   then exists mr, JSONMarshaler (config ups) = Some mr
                   /\ MarshalToString mr res = inl err
   else proto_Marshal res = inl err) ->
  let s := snd (serve ups r pool fs) in
  statusCode s = StatusInternalServerError /\
  requestObjectPool s = Reset m :: tl pool /\
  trace s
  = rev (upToCall ups r pool json b m)
    ++ note (LogResponseMessage (config ups)) (EvLogResponseMessage res)
    ++ [if json then EvMarshalToString res else EvProtoMarshal res]
    ++ note (LogError (config ups))
         (EvLogError
            (if json then "JSONMarshaler.MarshalToString" else "proto.Marshal")
            err)
    ++ [EvReset; EvPoolPut (Reset m)]
    ++ failing ups r StatusInternalServerError.
Proof.
  intros H Hr He. cbn zeta.
  destruct (serve_frame ups r pool fs) as (_ & H1 & _ & H3 & _).
  cbn zeta in H1, H3.
  rewrite (dispatched_unencodable ups r pool fs json b m res H Hr err He)
    in H1, H3.
  splits; try assumption.
  rewrite serve_split,
    (dispatched_unencodable ups r pool fs json b m res H Hr err He).
  rewrite trace_of_failure by status.
  cbn [events statusCode]. unfold encoding. unrev. reflexivity.
Qed.

(** X17: when the handler returns, as a second result of a type that has a
    nil, an error whose status is not 200, nothing follows the call but the
    release of the object and the error reply: the first result is dropped,
    the response-message callback and the error callback are not called.
    When WriteHeader accepts the status the reply is the whole error reply
    and the end callback; when it refuses the status the reply ends with
    the call of WriteHeader, whose panic leaves ServeHTTP. *)
Theorem handler_error_trace ups r pool fs json b m x e :
  decodesTo ups r pool json b m ->
  handler ups (buildArgs ups r m) = Ret2 x (Some e) ->
  documentedStatus e <> StatusOK ->
  let s := snd (serve ups r pool fs) in
  (validStatus (documentedStatus e) = true ->
   fst (serve ups r pool fs) = Normal tt /\
   trace s
   = rev (upToCall ups r pool json b m)
     ++ [EvReset; EvPoolPut (Reset m)]
     ++ failing ups r (documentedStatus e)) /\
  (validStatus (documentedStatus e) = false ->
   fst (serve ups r pool fs) = Panic (invalidWriteHeader (documentedStatus e)) /\
   trace s
   = rev (upToCall ups r pool json b m)
     ++ [EvReset; EvPoolPut (Reset m)]
     ++ rev (refusedReply ups (documentedStatus e))) /\
  RespHeader (w s)
  = [("X-Content-Type-Options", "nosniff");
     ("Content-Type", "text/plain; charset=utf-8")] /\
  count isLogError (trace s) = 0%nat.
Proof.
  intros H Hh Hsc. cbn zeta.
  assert (Hu : filter isLogError (upToCall ups r pool json b m) = [])
    by filt.
  rewrite serve_split, (dispatched_error ups r pool fs json b m x e H Hh).
  destruct (validStatus (documentedStatus e)) eqn:Hv.
  - rewrite trace_of_failure by assumption.
    rewrite respond_error by assumption.
    cbn [fst snd events statusCode w RespHeader NewRecorder].
    splits; try reflexivity.
    + intros _. split; [reflexivity|]. unrev. reflexivity.
    + intros HH. discriminate HH.
    + unfold count. rewrite !filter_app, filter_rev.
      cbn [filter isLogError]. rewrite Hu. unfold failing.
      rewrite !filter_app, !filter_note.
      destruct (ErrorResponse (config ups)); reflexivity.
  - rewrite respond_refused by (try assumption; reflexivity).
    unfold trace. cbn [fst snd events statusCode w RespHeader NewRecorder].
    splits; try reflexivity.
    + intros HH. discriminate HH.
    + intros _. split; [reflexivity|].
      rewrite rev_app_distr. cbn [rev]. rewrite <- !app_assoc. reflexivity.
    + unfold count. rewrite rev_app_distr, !filter_app, !filter_rev.
      cbn [filter isLogError]. rewrite Hu. unfold refusedReply.
      destruct (ErrorResponse (config ups)); reflexivity.
Qed.

(** ** A second result without nil *)

Lemma dispatched_value ups r pool fs json b m kind x e :
  decodesTo ups r pool json b m ->
  handler ups (buildArgs ups r m) = Ret2Value kind x e ->
  dispatched ups r pool fs =
  {| statusCode := StatusInternalServerError; resp := []; arg := None;
     requestObjectPool := Reset m :: tl pool; w := NewRecorder fs;
     events := note (LogPanic (config ups))
                 (EvLogPanic (ValueError "reflect.Value.IsNil" kind))
               ++ EvPoolPut (Reset m) :: EvReset
                  :: upToCall ups r pool json b m |}.
Proof.
  intros H Hh.
  to_call H pool json; rewrite Hh; run; tidy; reflexivity.
Qed.

(** X20: a handler whose second result is of a type without nil (an integer
    or a struct type that implements error, which construction accepts)
    cannot be served: whatever it returns, IsNil panics on the second
    result after the call.  The object is released, the panic callback gets
    the reflect.ValueError, nothing is encoded, the status code of the
    error is not looked at and the reply is an error reply with status
    500. *)
Theorem value_error_is_a_panic ups r pool fs json b m kind x e :
  decodesTo ups r pool json b m ->
  handler ups (buildArgs ups r m) = Ret2Value kind x e ->
  let s := snd (serve ups r pool fs) in
  fst (serve ups r pool fs) = Normal tt /\
  statusCode s = StatusInternalServerError /\
  Code (w s) = Some StatusInternalServerError /\
  requestObjectPool s = Reset m :: tl pool /\
  count isEncodeEvent (trace s) = 0%nat /\
  trace s
  = rev (upToCall ups r pool json b m)
    ++ [EvReset; EvPoolPut (Reset m)]
    ++ note (LogPanic (config ups))
         (EvLogPanic (ValueError "reflect.Value.IsNil" kind))
    ++ failing ups r StatusInternalServerError.
Proof.
  intros H Hn. cbn zeta.
  assert (Ht : trace (snd (serve ups r pool fs))
    = rev (upToCall ups r pool json b m)
      ++ [EvReset; EvPoolPut (Reset m)]
      ++ note (LogPanic (config ups))
           (EvLogPanic (ValueError "reflect.Value.IsNil" kind))
      ++ failing ups r StatusInternalServerError).
  { rewrite serve_split, (dispatched_value ups r pool fs json b m kind x e H Hn).
    rewrite trace_of_failure by status.
    cbn [events statusCode]. unrev. reflexivity. }
  destruct (serve_frame ups r pool fs) as (H0 & H1 & H2 & H3 & H4 & _).
  cbn zeta in H0, H1, H2, H3, H4.
  rewrite (dispatched_value ups r pool fs json b m kind x e H Hn)
    in H0, H1, H2, H3, H4.
  splits; try assumption.
  unfold count. rewrite Ht, !filter_app, filter_rev, upToCall_encode.
  unfold failing. rewrite !filter_app, !filter_note.
  destruct (ErrorResponse (config ups)); reflexivity.
Qed.

(** ** The statuses of a reply *)

Lemma pair_snd {A B : Type} (p : A * B) (y : B) : snd p = y -> p = (fst p, y).
Proof. intros <-. apply surjective_pairing. Qed.

(** Reads off the context of a path that reached the codec that the request
    decodes. *)
Ltac decoded :=
  repeat match goal with
         | H : negb (_ =? _)%string = false |- _ =>
             apply negb_false_iff, String.eqb_eq in H
         end;
  unfold decodesTo; cbn [acquired];
  split; [assumption|];
  split; [eassumption|];
  split; [eexists; split; eassumption|];
  eexists; split; [first [eassumption | reflexivity]|];
  cbn iota; apply pair_snd; assumption.

Ltac count_calls :=
  unfold trace; cbn [events];
  repeat first
    [ rewrite filter_app | rewrite filter_note | rewrite app_nil_r
    | rewrite rev_app_distr | rewrite rev_note
    | progress cbn -[note] ];
  reflexivity.

Lemma status_of_dispatched ups r pool fs :
  let d := dispatched ups r pool fs in
  (statusCode d = StatusOK
   \/ statusCode d = StatusMethodNotAllowed
   \/ statusCode d = StatusUnsupportedMediaType
   \/ statusCode d = StatusInternalServerError
   \/ exists json b m x e c,
        decodesTo ups r pool json b m
        /\ handler ups (buildArgs ups r m) = Ret2 x (Some e)
        /\ asStatusCoder e = Some c /\ statusCode d = c) /\
  (statusCode d = StatusOK ->
   exists json b m,
     decodesTo ups r pool json b m
     /\ filter isCall (trace d) = [EvCall (buildArgs ups r m)]
     /\ ((exists res enc,
            returns ups r m res /\ encodesTo ups json res enc /\ resp d = enc)
         \/ exists x e,
              handler ups (buildArgs ups r m) = Ret2 x (Some e)
              /\ asStatusCoder e = Some StatusOK)).
Proof.
  cbn zeta. on_dispatched ups r pool fs.
  unfold_all. explore; (eexists; split; [reflexivity|]);
    cbn [statusCode resp]; split.
  all: try solve [auto 8].
  all: try solve
         [do 4 right; do 6 eexists;
          split; [decoded|split; [eassumption|split; [eassumption|reflexivity]]]].
  all: intros HH; try solve [cbv in HH; discriminate HH].
  all: do 3 eexists; split; [decoded|]; split; [count_calls|].
  all: first
         [ left; do 2 eexists; split;
           [unfold returns; first [left; eassumption | right; eassumption]|];
           split; [|reflexivity];
           unfold encodesTo;
           first [ do 2 eexists; split; [eassumption|];
                   split; [eassumption|reflexivity]
                 | eassumption ]
         | right; subst; do 2 eexists; split; eassumption ].
Qed.

(** X18: the status of a reply is 200, 405, 415, 500 or the status code of
    the error that the handler returned on the arguments built from the
    message this request decodes to.  A reply with status 200 is never sent
    without the request having decoded and the handler having been called
    once on the arguments built from that message; what the handler did on
    them is either to return a message and no error, and then its encoding
    is the response, or to return an error with status code 200. *)
Theorem statuses_of_a_reply ups r pool fs :
  let s := snd (serve ups r pool fs) in
  (statusCode s = StatusOK
   \/ statusCode s = StatusMethodNotAllowed
   \/ statusCode s = StatusUnsupportedMediaType
   \/ statusCode s = StatusInternalServerError
   \/ exists json b m x e c,
        decodesTo ups r pool json b m
        /\ handler ups (buildArgs ups r m) = Ret2 x (Some e)
        /\ asStatusCoder e = Some c /\ statusCode s = c) /\
  (statusCode s = StatusOK ->
   exists json b m,
     decodesTo ups r pool json b m
     /\ filter isCall (trace s) = [EvCall (buildArgs ups r m)]
     /\ ((exists res enc,
            returns ups r m res /\ encodesTo ups json res enc
            /\ (noWriteError fs -> RespBody (w s) = enc))
         \/ exists x e,
              handler ups (buildArgs ups r m) = Ret2 x (Some e)
              /\ asStatusCoder e = Some StatusOK)).
Proof.
  cbn zeta.
  destruct (serve_frame ups r pool fs) as (_ & Hs & _). cbn zeta in Hs.
  rewrite Hs.
  destruct (status_of_dispatched ups r pool fs) as (H1 & H2). cbn zeta in *.
  split; [exact H1|].
  intros Hsc. destruct (H2 Hsc) as (json & b & m & Hd & Hcall & Hres).
  exists json, b, m. split; [exact Hd|]. split.
  - rewrite (trace_dispatched isCall ups r pool fs) by (intros []; easy).
    exact Hcall.
  - destruct Hres as [(res & enc & Hr & He & Hresp)|Herr]; [left|right; exact Herr].
    exists res, enc. split; [exact Hr|]. split; [exact He|].
    intros Hn. rewrite serve_split.
    destruct (respond_ok ups r (dispatched ups r pool fs) Hsc)
      as (s1 & -> & _ & _ & _ & _ & _ & _ & _ & Hb).
    cbn [snd logged w]. rewrite Hb.
    + destruct (closure_events ups r pool fs) as (_ & -> & _).
      rewrite Hresp. reflexivity.
    + destruct (closure_events ups r pool fs) as (_ & _ & -> & _). exact Hn.
Qed.

(** ** Nothing is sent while the closure runs *)

(** X19: the trace of every request splits in two: first the part in which
    the body is read, the media type parsed, the pool used, the codecs and
    the handler called, in which nothing is sent to the client; then the
    part in which the status line and the body are sent, in which none of
    the former happens.  So the pooled object is back before the first byte
    goes out, and a handler never runs after the reply has begun. *)
Theorem nothing_is_sent_before_the_closure_ends ups r pool fs :
  exists before after,
    trace (snd (serve ups r pool fs)) = before ++ after /\
    filter isSent before = [] /\
    filter (fun e => isStage e || isPool e) after = [] /\
    (1 <= length (filter isSent after))%nat.
Proof.
  destruct (trace_of_serve ups r pool fs)
    as (inner & reply & Ht & Hi & Hr & _ & _ & _ & _ & _ & _ & _ & Hs).
  exists (note (LogStartRequest (config ups))
            (EvLogStartRequest (Method r) (URL r)) ++ inner).
  exists (reply ++ ending ups r (statusCode (snd (serve ups r pool fs)))).
  splits.
  - rewrite Ht, <- !app_assoc. reflexivity.
  - rewrite filter_app, filter_note. cbn.
    apply (filter_none isSent isInner); [intros []; easy|exact Hi].
  - rewrite filter_app, filter_ending by reflexivity. rewrite app_nil_r.
    apply (filter_none _ isReply); [intros []; easy|exact Hr].
  - rewrite filter_app, length_app. lia.
Qed.
End Dispatch.

(** * The fixtures at work *)

Import Demo.

Ltac evaluate :=
  cbn zeta;
  repeat match goal with |- _ /\ _ => split end;
  vm_compute; first [reflexivity | discriminate].

(** The handlers of TestHello are accepted, each as the kind it is. *)
Example construct_hello :
  UPSWithParameterAndConfig (Func [THello] [THello] hello) None DefaultConfig
  = inr ups.
Proof. reflexivity. Qed.

Example construct_context_param :
  exists u,
    UPSWithParameterAndConfig (Func [TContext; TInt; THello] [THello] hello)
      (Some one) DefaultConfig = inr u
    /\ handlerKind u = contextParamHandlerType.
Proof. eexists. split; reflexivity. Qed.

(** A second result of the integer type of the tests is accepted: the type
    implements error. *)
Example construct_status :
  UPSWithParameterAndConfig (Func [THello] [THello; TStatus] helloStatus) None
    DefaultConfig = inr upsStatus.
Proof. reflexivity. Qed.

Example construct_bad_parameter :
  UPSWithParameterAndConfig (Func [TInt; THello] [THello] hello) None
    DefaultConfig = inl nilDeref.
Proof. reflexivity. Qed.

(** The scenario of TestHello "json". *)
Example hello_json :
  let s := snd (serve ups (ask "World") [] []) in
  Code (w s) = Some 200
  /\ Header_Get (RespHeader (w s)) "Content-Type" = "application/json"
  /\ RespBody (w s) = list_byte_of_string (object "text" "Hello, World!").
Proof. evaluate. Qed.

(** A request after a panic is served as the first one would have been. *)
Example hello_after_panic :
  let s1 := snd (serve ups (ask "panic") [] []) in
  let s2 :=
    snd (serve ups (ask "World") (requestObjectPool s1) []) in
  Code (w s1) = Some 500
  /\ Code (w s2) = Some 200
  /\ RespBody (w s2) = list_byte_of_string (object "text" "Hello, World!").
Proof. evaluate. Qed.

(** C3, counterexample: the handler returns an error whose StatusCode() is
    99.  WriteHeader refuses the code and panics outside the recovering
    closure: the response has no status at all, so not the status 99, and no
    body. *)
Lemma status_99_is_not_sent :
  let r := ask "Low" in
  let s := snd (serve upsError r [] []) in
  handler upsError (buildArgs upsError r "Low")
  = Ret2 (Some ""%string) (Some (Coded 99))
  /\ asStatusCoder (Coded 99) = Some 99
  /\ statusCode s = 99
  /\ Code (w s) = None
  /\ Code (w s) <> Some 99
  /\ RespBody (w s) = []
  /\ fst (serve upsError r [] [])
     = Panic (PanicString "invalid WriteHeader code 99").
Proof. evaluate. Qed.

(** C10, failing input: the handler of the tests declared with the second
    result type testError, an integer type with the methods Error and
    StatusCode, is accepted by the constructor.  When it returns the error
    with StatusCode() 200, IsNil panics on the integer value: the reply is an
    error reply with status 500 and a line feed as its body, and the panic
    callback is called. *)
Lemma value_error_with_status_ok_is_500 :
  let r := ask "Fine" in
  let s := snd (serve upsStatus r [] []) in
  UPSWithParameterAndConfig (Func [THello] [THello; TStatus] helloStatus) None
    DefaultConfig = inr upsStatus
  /\ handler upsStatus (buildArgs upsStatus r "Fine")
     = Ret2Value "int" (Some ""%string) (Coded 200)
  /\ asStatusCoder (Coded 200) = Some StatusOK
  /\ statusCode s = StatusInternalServerError
  /\ Code (w s) = Some StatusInternalServerError
  /\ Code (w s) <> Some StatusOK
  /\ RespBody (w s) = [Byte.x0a]
  /\ filter isLogPanic (trace s)
     = [EvLogPanic (ValueError "reflect.Value.IsNil" "int")].
Proof. cbn zeta. split; [reflexivity|]. evaluate. Qed.

(** C5, counterexample: a POST request with an unsupported media type whose
    body cannot be read is answered 500, not 415. *)
Lemma unreadable_body_is_not_415 :
  let r := broken "text/plain" in
  let s := snd (serve ups r [] []) in
  Method r = MethodPost
  /\ documentedNegotiate (config ups) (Header_Get (ReqHeader r) "Content-Type")
     = None
  /\ statusCode s = StatusInternalServerError
  /\ Code (w s) = Some StatusInternalServerError
  /\ Code (w s) <> Some StatusUnsupportedMediaType.
Proof. evaluate. Qed.

(** C6, counterexample: the body of a request with an unsupported media type
    is read, before the media type is parsed; and a body-read failure with
    status 500 occurs on a request whose media type is not accepted. *)
Lemma body_is_read_before_negotiation :
  let r := post "text/plain" "bad request" in
  let s := snd (serve ups r [] []) in
  let r' := broken "text/plain" in
  let s' := snd (serve ups r' [] []) in
  documentedNegotiate (config ups) "text/plain" = None
  /\ statusCode s = StatusUnsupportedMediaType
  /\ count isReadBody (trace s) = 1%nat
  /\ filter isStage (trace s) = [EvReadBody; EvParseMediaType "text/plain"]
  /\ statusCode s' = StatusInternalServerError
  /\ filter isStage (trace s') = [EvReadBody].
Proof. evaluate. Qed.

(** C8, counterexample: the body of an error reply is not the text of the
    error-body formatter, it is that text and a line feed, so it is not
    empty without a formatter; and the body of a successful reply is not the
    encoding when a call of Write fails. *)
Lemma error_body_ends_with_line_feed :
  let s := snd (serve ups get [] []) in
  let r := ask "World" in
  let s' := snd (serve ups r [] [(0%nat, Some (Plain "broken pipe"))]) in
  statusCode s = StatusMethodNotAllowed
  /\ errorText ups get (statusCode s) = ""
  /\ RespBody (w s) = [Byte.x0a]
  /\ RespBody (w s) <> list_byte_of_string (errorText ups get (statusCode s))
  /\ decodesTo ups r [] true (asked "World") "World"
  /\ returns ups r "World" "Hello, World!"
  /\ encodesTo ups true "Hello, World!"
       (list_byte_of_string (object "text" "Hello, World!"))
  /\ statusCode s' = StatusOK
  /\ RespBody (w s') = []
  /\ RespBody (w s') <> list_byte_of_string (object "text" "Hello, World!").
Proof.
  cbn zeta. unfold decodesTo, returns, encodesTo.
  repeat match goal with |- _ /\ _ => split end;
    try (vm_compute; first [reflexivity | discriminate]).
  - exists "application/json". split; reflexivity.
  - exists ""%string. split; reflexivity.
  - left. reflexivity.
  - exists tt, (object "text" "Hello, World!"). repeat split.
Qed.

(** ** The theorems at the fixtures *)

Lemma method_not_allowed_witness :
  Method get <> MethodPost
  /\ Code (w (snd (serve ups get [] []))) = Some StatusMethodNotAllowed.
Proof.
  assert (H : Method get <> MethodPost) by discriminate.
  split; [exact H|].
  destruct (method_not_allowed ups get [] [] H) as (_ & _ & HC & _).
  exact HC.
Defined.

Lemma teapot_decodes :
  decodesTo upsError (ask "Teapot") [] true (asked "Teapot") "Teapot".
Proof.
  unfold decodesTo. repeat split.
  - exists "application/json". split; reflexivity.
  - exists ""%string. split; reflexivity.
Defined.

Lemma handler_error_status_witness :
  Code (w (snd (serve upsError (ask "Teapot") [] []))) = Some 418.
Proof.
  destruct (handler_error_status upsError (ask "Teapot") [] [] true
              (asked "Teapot") "Teapot" (Some ""%string) (Coded 418)
              teapot_decodes eq_refl)
    as (_ & _ & _ & HV & _).
  exact (proj2 (HV eq_refl)).
Defined.

Lemma fine_decodes :
  decodesTo upsError (ask "Fine") [] true (asked "Fine") "Fine".
Proof.
  unfold decodesTo. repeat split.
  - exists "application/json". split; reflexivity.
  - exists ""%string. split; reflexivity.
Defined.

Lemma error_with_status_ok_witness :
  let s := snd (serve upsError (ask "Fine") [] []) in
  Code (w s) = Some StatusOK /\ RespBody (w s) = [] /\ RespHeader (w s) = [].
Proof.
  destruct (error_with_status_ok upsError (ask "Fine") [] [] true
              (asked "Fine") "Fine" (Some ""%string) (Coded 200)
              fine_decodes eq_refl eq_refl)
    as (_ & _ & HC & HB & HH & _).
  repeat split; assumption.
Defined.

Lemma panic_decodes :
  decodesTo ups (ask "panic") [] true (asked "panic") "panic".
Proof.
  unfold decodesTo. repeat split.
  - exists "application/json". split; reflexivity.
  - exists ""%string. split; reflexivity.
Defined.

Lemma handler_panic_contained_witness :
  let s := snd (serve ups (ask "panic") [] []) in
  fst (serve ups (ask "panic") [] []) = Normal tt
  /\ Code (w s) = Some StatusInternalServerError
  /\ requestObjectPool s = [""%string].
Proof.
  destruct (handler_panic_contained ups (ask "panic") [] [] true
              (asked "panic") "panic" (PanicString "panic")
              panic_decodes eq_refl)
    as (HN & _ & HC & _ & _ & HP & _).
  repeat split; assumption.
Defined.

Lemma negotiation_of_media_type_witness :
  let s := snd (serve ups (ask "World") [] []) in
  count isBinaryCodecEvent (trace s) = 0%nat
  /\ let s' := snd (serve ups (post "text/plain" "World") [] []) in
     statusCode s' = StatusUnsupportedMediaType.
Proof.
  split.
  - destruct (negotiation_of_media_type ups (ask "World") [] []
                (asked "World") eq_refl eq_refl)
      as (_ & _ & _ & _ & HJ & _).
    destruct (HJ tt eq_refl eq_refl) as (HB & _). exact HB.
  - destruct (negotiation_of_media_type ups (post "text/plain" "World") [] []
                (list_byte_of_string "World") eq_refl eq_refl)
      as (_ & _ & HO & _).
    assert (N1 : "text/plain" <> "application/json") by discriminate.
    assert (N2 : "text/plain" <> "application/octet-stream") by discriminate.
    assert (N3 : "text/plain" <> "application/x-protobuf") by discriminate.
    destruct (HO "text/plain" eq_refl N1 N2 N3) as (HS & _). exact HS.
Defined.

Lemma body_read_then_negotiation_witness :
  let s := snd (serve ups (broken "application/json") [] []) in
  statusCode s = StatusInternalServerError
  /\ filter isStage (trace s) = [EvReadBody].
Proof.
  destruct (body_read_then_negotiation ups (broken "application/json") [] []
              eq_refl) as (HU & _).
  exact (HU (Plain "unexpected EOF") eq_refl).
Defined.

Lemma world_decodes :
  decodesTo ups (post "application/octet-stream" "") [] false [] "".
Proof.
  unfold decodesTo. repeat split.
  - exists "application/octet-stream". split; reflexivity.
  - exists ""%string. split; reflexivity.
Defined.

Lemma response_of_success_and_error_witness :
  let s := snd (serve ups (post "application/octet-stream" "") [] []) in
  Code (w s) = Some StatusOK
  /\ RespHeader (w s) = [("Content-Type", "application/octet-stream")]
  /\ RespBody (w s)
     = Byte.x0a :: Byte.x08 :: list_byte_of_string "Hello, !".
Proof.
  destruct (response_of_success_and_error ups
              (post "application/octet-stream" "") [] []) as (HS & _).
  destruct (HS false [] ""%string "Hello, !"%string
              (Byte.x0a :: Byte.x08 :: list_byte_of_string "Hello, !")
              world_decodes (or_introl eq_refl) eq_refl)
    as (_ & HC & HH & HB).
  repeat split; try assumption; apply HB; constructor.
Defined.

Lemma context_param_decodes :
  decodesTo upsContextParam (ask "World") [] true (asked "World") "World".
Proof.
  unfold decodesTo. repeat split.
  - exists "application/json". split; reflexivity.
  - exists ""%string. split; reflexivity.
Defined.

Lemma binding_and_argument_order_witness :
  let t := trace (snd (serve upsContextParam (ask "World") [] [])) in
  UPSWithParameterAndConfig
    (Func [TContext; TInt; THello] [THello] helloContextParam) (Some one)
    DefaultConfig = inr upsContextParam
  /\ filter isCall t
     = [EvCall [ArgContext tt; ArgParameter (Some one); ArgMessage "World"]]
  /\ filter isEncodeEvent t = [EvMarshalToString "ContextParameter, World!"].
Proof.
  destruct (binding_and_argument_order (L:=lib) [TContext; TInt; THello]
              [THello] helloContextParam (Some one) DefaultConfig)
    as (_ & HA).
  destruct (HA upsContextParam eq_refl) as (_ & _ & _ & HD).
  destruct (HD (ask "World") [] []) as (_ & HC & HE).
  destruct (HE true (asked "World") "World"%string context_param_decodes)
    as (_ & _ & HR).
  split; [reflexivity|]. split.
  - exact (HC true (asked "World") "World"%string context_param_decodes).
  - exact (HR "ContextParameter, World!"%string (or_introl eq_refl)).
Defined.

(** ** The further theorems at the fixtures *)

(** A handler whose message type has no element type is accepted. *)
Example construct_no_elem :
  UPSWithParameterAndConfig (Func [TMessage] [THello] hello) None DefaultConfig
  = inr upsNoElem.
Proof. reflexivity. Qed.

Lemma no_parameter_no_bound_convention_witness :
  UPSWithConfig (Func [THello] [THello] hello) DefaultConfig = inr ups
  /\ parameterless (handlerKind ups) = true
  /\ UPSWithConfig (Func [TInt; THello] [THello] hello) DefaultConfig
     = inl nilDeref.
Proof.
  split; [reflexivity|]. split.
  - destruct (no_parameter_no_bound_convention
                (Func (L:=lib) [THello] [THello] hello) DefaultConfig)
      as (H & _).
    exact (proj1 (H ups eq_refl)).
  - destruct (no_parameter_no_bound_convention
                (Func (L:=lib) [TInt; THello] [THello] hello) DefaultConfig)
      as (_ & H).
    exact (H [TInt; THello] [THello] hello
             (upsOf hello paramHandlerType (Some one)) (Some one)
             eq_refl eq_refl eq_refl).
Defined.

Lemma unused_parameter_is_ignored_witness :
  UPSWithParameterAndConfig (Func [THello] [THello] hello) (Some one)
    DefaultConfig
  = inr (withParameter (Some one) ups).
Proof.
  exact (proj1 (unused_parameter_is_ignored (L:=lib) [THello] [THello] hello
                  None DefaultConfig ups eq_refl eq_refl (Some one))).
Defined.

Lemma json_negotiates (u : upsHandler) (body : string) :
  config u = DefaultConfig ->
  negotiates u (post "application/json" body) true (list_byte_of_string body).
Proof.
  intros H. unfold negotiates. repeat split.
  exists "application/json". rewrite H. split; reflexivity.
Defined.

Lemma decode_failure_witness :
  let s := snd (serve ups (post "application/json" "World") [] []) in
  statusCode s = StatusInternalServerError
  /\ count isCall (trace s) = 0%nat
  /\ requestObjectPool s = [""%string].
Proof.
  assert (H : undecodable ups (post "application/json" "World") [] true
                (list_byte_of_string "World") "" ""
                (Plain "invalid character looking for beginning of value")).
  { split; [exact (json_negotiates ups "World" eq_refl)|].
    split; reflexivity. }
  destruct (decode_failure ups (post "application/json" "World") [] [] true
              (list_byte_of_string "World") ""%string ""%string
              (Plain "invalid character looking for beginning of value") H)
    as (HS & _ & _ & HP & HC & _).
  repeat split; assumption.
Defined.

Lemma pool_factory_panic_witness :
  let s := snd (serve upsNoElem (ask "World") [] []) in
  statusCode s = StatusInternalServerError /\ requestObjectPool s = [].
Proof.
  destruct (pool_factory_panic upsNoElem (ask "World") [] true
              (asked "World")
              (json_negotiates upsNoElem (object "name" "World") eq_refl)
              eq_refl)
    as (HS & _ & _ & HP & _).
  split; assumption.
Defined.

Lemma empty_decodes (h : Handler) :
  decodesTo (upsOf h messageHandlerType None)
    (post "application/octet-stream" "") [] false [] "".
Proof.
  unfold decodesTo. repeat split.
  - exists "application/octet-stream". split; reflexivity.
  - exists ""%string. split; reflexivity.
Defined.

Lemma nil_message_is_a_panic_witness :
  let s := snd (serve upsSilent (post "application/octet-stream" "") [] []) in
  statusCode s = StatusInternalServerError
  /\ count isEncodeEvent (trace s) = 0%nat.
Proof.
  destruct (nil_message_is_a_panic upsSilent
              (post "application/octet-stream" "") [] [] false [] ""%string
              (empty_decodes silent) (or_introl eq_refl))
    as (HS & _ & _ & HE & _).
  split; assumption.
Defined.

Lemma success_trace_witness :
  exists loop,
    trace (snd (serve ups (post "application/octet-stream" "") [] []))
    = rev (upToCall ups (post "application/octet-stream" "") [] false [] "")
      ++ rev (encoding ups false "Hello, !"
                (rawResponse ups false
                   (Byte.x0a :: Byte.x08 :: list_byte_of_string "Hello, !")))
      ++ [EvHeaderSet "Content-Type" (mediaTypeOf false);
          EvReset; EvPoolPut (Reset ""%string);
          EvWrite (Byte.x0a :: Byte.x08 :: list_byte_of_string "Hello, !")]
      ++ loop
      ++ note (LogEndRequest (config ups))
           (EvLogEndRequest "POST" "/hello" StatusOK)
    /\ loop = [].
Proof.
  destruct (success_trace ups (post "application/octet-stream" "") [] []
              false [] ""%string "Hello, !"%string
              (Byte.x0a :: Byte.x08 :: list_byte_of_string "Hello, !")
              world_decodes (or_introl eq_refl) eq_refl)
    as (loop & Ht & _ & Hn).
  exists loop. split; [exact Ht|exact (Hn eq_refl)].
Defined.

Lemma accepted_handler_fields_witness :
  UPSWithParameterAndConfig (Func [THello] [THello] hello) None DefaultConfig
  = inr ups
  /\ config ups = DefaultConfig.
Proof.
  split; [reflexivity|].
  exact (proj1 (accepted_handler_fields (L:=lib) [THello] [THello] hello None
                  DefaultConfig ups eq_refl)).
Defined.

Lemma default_config_handlers_witness :
  UPS DefaultConfig (Func [THello] [THello] hello) = inr ups
  /\ forall v, ParseMediaType v = inr "application/json" ->
               documentedNegotiate (config ups) v = Some text.
Proof.
  split; [reflexivity|].
  destruct (default_config_handlers (L:=lib) tt
              (Func (L:=lib) [THello] [THello] hello) None ups
              (or_introl eq_refl)) as (_ & H & _).
  exact H.
Defined.

Lemma log_callbacks_are_optional_witness :
  muted ups = muted (muted ups)
  /\ w (snd (serve ups (ask "World") [] []))
     = w (snd (serve (muted ups) (ask "World") [] [])).
Proof.
  split; [reflexivity|].
  destruct (log_callbacks_are_optional ups (muted ups) (ask "World") [] []
              eq_refl) as (_ & H & _).
  exact H.
Defined.

Lemma early_failures_witness :
  Method (broken "application/json") = MethodPost
  /\ trace (snd (serve ups (broken "application/json") [] []))
     = note (LogStartRequest (config ups))
         (EvLogStartRequest (Method (broken "application/json"))
            (URL (broken "application/json")))
       ++ [EvReadBody]
       ++ note (LogError (config ups))
            (EvLogError "req.ReadFrom" (Plain "unexpected EOF"))
       ++ failing ups (broken "application/json") StatusInternalServerError.
Proof.
  split; [reflexivity|].
  destruct (early_failures ups (broken "application/json") [] [] eq_refl)
    as (H & _).
  exact (H (Plain "unexpected EOF") eq_refl).
Defined.

Lemma encode_failure_witness :
  let s := snd (serve upsVerbose (post "application/octet-stream" "") [] []) in
  statusCode s = StatusInternalServerError
  /\ requestObjectPool s = [""%string].
Proof.
  destruct (encode_failure upsVerbose (post "application/octet-stream" "")
              [] [] false [] ""%string long (Plain "proto: too long")
              (empty_decodes verbose) (or_introl eq_refl) eq_refl)
    as (HS & HP & _).
  split; assumption.
Defined.

Lemma handler_error_trace_witness :
  documentedStatus (Coded 418) <> StatusOK
  /\ count isLogError (trace (snd (serve upsError (ask "Teapot") [] [])))
     = 0%nat.
Proof.
  assert (H : documentedStatus (Coded 418) <> StatusOK) by discriminate.
  split; [exact H|].
  destruct (handler_error_trace upsError (ask "Teapot") [] [] true
              (asked "Teapot") "Teapot"%string (Some ""%string) (Coded 418)
              teapot_decodes eq_refl H)
    as (_ & _ & _ & HC).
  exact HC.
Defined.

Lemma status_decodes :
  decodesTo upsStatus (ask "Teapot") [] true (asked "Teapot") "Teapot".
Proof.
  unfold decodesTo. repeat split.
  - exists "application/json". split; reflexivity.
  - exists ""%string. split; reflexivity.
Defined.

Lemma value_error_is_a_panic_witness :
  let s := snd (serve upsStatus (ask "Teapot") [] []) in
  statusCode s = StatusInternalServerError
  /\ count isEncodeEvent (trace s) = 0%nat.
Proof.
  destruct (value_error_is_a_panic upsStatus (ask "Teapot") [] [] true
              (asked "Teapot") "Teapot"%string "int"%string
              (Some ""%string) (Coded 418) status_decodes eq_refl)
    as (_ & HS & _ & _ & HE & _).
  split; assumption.
Defined.
